(** * Debate orchestration and jury aggregation: a shallow embedding

    Embedding of [debate_experiment.py]: the four-round exchange between two
    debaters, the jury protocol (blinding, parsing, de-blinding, validation),
    the winner aggregation and the persisted record.

    Conventions.
    - A Python [str] is a [string]; its characters are read as code points
      below 256.
    - A Python object that comes out of [json.loads] or out of a usage payload
      is a [value].
    - An exception that leaves a function is the [Raise] outcome of the
      computation; the world (call counters, log, record store) keeps the
      effects that happened before it. *)

From Stdlib Require Import String Ascii List ZArith Lia Bool.
From Stdlib Require Import DecimalString.
From Stdlib Require Import PrimFloat FloatOps SpecFloat.

Import ListNotations.
Set Warnings "-register-all".
Open Scope string_scope.
Open Scope Z_scope.

(** ** Exceptions *)

Inductive exn : Type :=
| BackendError        (* the chat-completion request could not be completed *)
| FileNotFoundError   (* a prompt template is missing *)
| JSONDecodeError
| RecursionError
| TypeError
| AttributeError
| ValueError
| OverflowError
| IndexError
| KeyError
| InvalidURL.         (* the client constructor could not parse the base URL *)

(** What a library function gives back: a value or an exception. *)
Inductive result (A : Type) : Type :=
| Ok (a : A)
| Error (e : exn).
Arguments Ok {A} a.
Arguments Error {A} e.

(** How a computation of the program ends: with a value, with an exception,
    or not at all (the fuel of a [while True] loop ran out). *)
Inductive outcome (A : Type) : Type :=
| Return (a : A)
| Raise (e : exn)
| Diverge.
Arguments Return {A} a.
Arguments Raise {A} e.
Arguments Diverge {A}.

Definition of_result {A} (r : result A) : outcome A :=
  match r with
  | Ok a => Return a
  | Error e => Raise e
  end.

(** ** Python values *)

Inductive value : Type :=
| VNone
| VBool (b : bool)
| VInt (z : Z)
| VFloat (f : float)
| VStr (s : string)
| VList (l : list value)
| VDict (d : list (string * value)).

(** A [dict] with string keys, in insertion order; keys are unique. *)
Definition dict (V : Type) : Type := list (string * V).

Module Dict.
Section Ops.
Context {V : Type}.

(** [d.get(k)] as an option: the binding of [k], if any. *)
Fixpoint lookup (k : string) (d : dict V) : option V :=
match d with
| [] => None
| (k', v) :: d' => if String.eqb k k' then Some v else lookup k d'
end.

(** [d[k] = v]: overwrite in place, or append a new binding. *)
Fixpoint set (k : string) (v : V) (d : dict V) : dict V :=
match d with
| [] => [(k, v)]
| (k', v') :: d' =>
    if String.eqb k k' then (k', v) :: d' else (k', v') :: set k v d'
end.

(** [d.update(e)]. *)
Definition update (d e : dict V) : dict V :=
fold_left (fun acc kv => set (fst kv) (snd kv) acc) e d.
End Ops.
End Dict.

(** [d.get(k)] on values: an absent key reads as [None]. *)
Definition get (k : string) (d : dict value) : value :=
  match Dict.lookup k d with
  | Some v => v
  | None => VNone
  end.

(** [d.get(k, default)]. *)
Definition get_default (k : string) (default : value) (d : dict value) : value :=
  match Dict.lookup k d with
  | Some v => v
  | None => default
  end.

(** Truth value of an object ([bool(x)]). *)
Definition truthy (v : value) : bool :=
  match v with
  | VNone => false
  | VBool b => b
  | VInt z => negb (Z.eqb z 0)
  | VFloat f => negb (PrimFloat.eqb f 0%float)
  | VStr s => negb (String.eqb s "")
  | VList l => match l with [] => false | _ => true end
  | VDict d => match d with [] => false | _ => true end
  end.

(** [x or y]. *)
Definition por (x y : value) : value := if truthy x then x else y.

(** [x == s] for a string literal [s]: only a [str] equals a [str]. *)
Definition eq_str (v : value) (s : string) : bool :=
  match v with
  | VStr t => String.eqb t s
  | _ => false
  end.

(** [x is not None]. *)
Definition is_not_none (v : value) : bool :=
  match v with
  | VNone => false
  | _ => true
  end.

(** Lists and dicts have no hash. *)
Definition hashable (v : value) : bool :=
  match v with
  | VList _ | VDict _ => false
  | _ => true
  end.

(** ** Strings *)

Module Str.

Definition newline : string := String (ascii_of_nat 10) EmptyString.

(** [str.isspace] on one character. *)
Definition is_space (c : ascii) : bool :=
  let n := nat_of_ascii c in
  (((9 <=? n) && (n <=? 13)) || ((28 <=? n) && (n <=? 32))
   || (n =? 133) || (n =? 160))%nat.

Fixpoint lstrip_by (p : ascii -> bool) (s : string) : string :=
  match s with
  | EmptyString => EmptyString
  | String c s' => if p c then lstrip_by p s' else s
  end.

Fixpoint rstrip_by (p : ascii -> bool) (s : string) : string :=
  match s with
  | EmptyString => EmptyString
  | String c s' =>
      match rstrip_by p s' with
      | EmptyString => if p c then EmptyString else String c EmptyString
      | r => String c r
      end
  end.

Definition strip_by (p : ascii -> bool) (s : string) : string :=
  rstrip_by p (lstrip_by p s).

(** [s.strip()], [s.lstrip()]. *)
Definition strip : string -> string := strip_by is_space.
Definition lstrip : string -> string := lstrip_by is_space.

(** [s.strip(chars)]. *)
Definition mem_char (chars : string) (c : ascii) : bool :=
  existsb (Ascii.eqb c) (list_ascii_of_string chars).
Definition strip_chars (chars : string) : string -> string :=
  strip_by (mem_char chars).

(** [s.startswith(p)]. *)
Definition startswith (p s : string) : bool := String.prefix p s.

(** [s[n:]]. *)
Fixpoint drop (n : nat) (s : string) : string :=
  match n, s with
  | O, _ => s
  | S _, EmptyString => EmptyString
  | S n', String _ s' => drop n' s'
  end.

(** [s.replace(old, new)] for a non-empty [old]: occurrences are replaced
    from the left and do not overlap.  [skip] counts the characters of a
    matched occurrence that are still to be passed over. *)
Fixpoint replace_from (skip : nat) (old new : string) (s : string) : string :=
  match s with
  | EmptyString => EmptyString
  | String c s' =>
      match skip with
      | S k => replace_from k old new s'
      | O =>
          if String.prefix old s
          then new ++ replace_from (String.length old - 1) old new s'
          else String c (replace_from O old new s')
      end
  end.

(** With an empty [old], [new] is put before every character and at the
    end. *)
Fixpoint intersperse (new : string) (s : string) : string :=
  match s with
  | EmptyString => new
  | String c s' => new ++ String c (intersperse new s')
  end.

Definition replace (old new : string) (s : string) : string :=
  match old with
  | EmptyString => intersperse new s
  | _ => replace_from O old new s
  end.

(** [sep.join(l)]. *)
Fixpoint join (sep : string) (l : list string) : string :=
  match l with
  | [] => EmptyString
  | [x] => x
  | x :: l' => x ++ sep ++ join sep l'
  end.

(** [str(n)] for an [int]. *)
Definition of_Z (z : Z) : string := NilZero.string_of_int (Z.to_int z).

End Str.

(** [str(x)] of an optional text, as an f-string formats it. *)
Definition format_opt (s : option string) : string :=
  match s with
  | Some t => t
  | None => "None"
  end.

(** ** Numeric conversions of the usage payload *)

(** [float(n)] for an [int]: the nearest binary64, [OverflowError] beyond its
    range. *)
Definition float_of_int (z : Z) : outcome float :=
  match binary_normalize prec emax z 0 false with
  | S754_infinity _ => Raise OverflowError
  | sf => Return (SF2Prim sf)
  end.

(** [int(x)] for a [float]: truncation toward zero. *)
Definition int_of_float (f : float) : outcome Z :=
  match Prim2SF f with
  | S754_zero _ => Return 0
  | S754_infinity _ => Raise OverflowError
  | S754_nan => Raise ValueError
  | S754_finite s m e =>
      let a := if 0 <=? e then Z.shiftl (Zpos m) e else Z.shiftr (Zpos m) (- e) in
      Return (if s then - a else a)
  end.

(** ** Records of the run *)

Record Client : Type := { base_url : string; api_key : string }.

Record Message : Type := { role : string; content : string }.

(** What [call_model] returns: [{"model", "content", "usage"}]. *)
Record ModelResult : Type := {
  res_model : string;
  res_content : option string;
  res_usage : option (dict value)
}.

(** One chat-completion exchange as the backend answers it. *)
Inductive reply : Type :=
| Completion (text : option string) (usage : option (dict value))
| Failure (e : exn).

(** The tuple of [extract_usage_fields]. *)
Record UsageFields : Type := {
  u_cost : float;
  u_completion_tokens : Z;
  u_prompt_tokens : Z;
  u_total_tokens : Z;
  u_reasoning : string;
  u_reasoning_tokens : Z
}.

Record SideMap : Type := { map_A : string; map_B : string }.

(** What [run_jury_evaluation] returns. *)
Record JuryResult : Type := {
  jr_judge_model : string;
  jr_side_map : SideMap;
  jr_prompt : string;
  jr_raw_response : option string;
  jr_usage : option (dict value)
}.

Record JudgeConfig : Type := {
  cfg_model : string;
  cfg_backend : string;
  cfg_base_url : string;
  cfg_requires_api_key : bool;
  cfg_client : Client
}.

(** An entry of [rounds_log]. *)
Record RoundEntry : Type := {
  re_id : Z;
  re_side : string;
  re_prompt : string;
  re_content : string;
  re_cost : float;
  re_completion_tokens : Z;
  re_prompt_tokens : Z;
  re_total_tokens : Z;
  re_reasoning : string;
  re_reasoning_tokens : Z;
  re_duration_seconds : float
}.

(** An entry of [jury_results]. *)
Record JuryEntry : Type := {
  je_model : string;
  je_prompt : string;
  je_content : string;
  je_cost : float;
  je_completion_tokens : Z;
  je_prompt_tokens : Z;
  je_total_tokens : Z;
  je_reasoning : string;
  je_reasoning_tokens : Z;
  je_blind : bool;
  je_side_map : SideMap
}.

Record WinnerCounts : Type := { side_a_count : nat; side_b_count : nat }.

Record Evaluation : Type := {
  ev_juries : list JuryEntry;
  ev_parsed : list (dict value);
  ev_winner_counts : WinnerCounts
}.

Record Result : Type := {
  r_general : value;
  r_winner : string;
  r_winning_reason : value
}.

Record Totals : Type := {
  total_cost : float;
  total_completion_tokens : Z;
  total_prompt_tokens : Z;
  total_tokens : Z;
  total_reasoning_tokens : Z
}.

Record DebateRecord : Type := {
  rec_id : string;
  rec_topic : string;
  rec_conditions : string;
  rec_lang : string;
  rec_proposition : string;
  rec_opposition : string;
  rec_jury : string;
  rec_rounds : list RoundEntry;
  rec_evaluation : Evaluation;
  rec_result : Result;
  rec_totals : Totals;
  rec_total_duration_seconds : float
}.

(** ** The environment and the world *)

(** Everything the program reads from outside: the model backends, the prompt
    files, the clock, the id generator, and the library parsers. *)
Record Env : Type := {
  (** the [n]-th chat-completion request of the run *)
  backend : nat -> Client -> string -> list Message -> reply;
  (** the text of a file under [prompts/], if it exists *)
  prompt_file : string -> option string;
  (** the [n]-th reading of [time.time()] *)
  clock : nat -> float;
  (** the [n]-th draw of [nanoid.generate] *)
  nanoid : nat -> string;
  (** [json.loads] *)
  json_loads : string -> result value;
  (** [float(s)] and [int(s)] for a [str] *)
  float_of_str : string -> result float;
  int_of_str : string -> result Z
}.

(** What the program changes: how many requests, clock readings and id draws
    it has made, what it has logged, and the lines of [outputs/out.jsonl]. *)
Record World : Type := {
  calls : nat;
  ticks : nat;
  draws : nat;
  logs : list string;
  store : list DebateRecord
}.

(** ** Computations *)

Definition M (A : Type) : Type := World -> outcome A * World.

Definition ret {A} (a : A) : M A := fun w => (Return a, w).

Definition raise {A} (e : exn) : M A := fun w => (Raise e, w).

Definition bind {A B} (m : M A) (k : A -> M B) : M B :=
  fun w =>
    match m w with
    | (Return a, w') => k a w'
    | (Raise e, w') => (Raise e, w')
    | (Diverge, w') => (Diverge, w')
    end.

(** A pure step that may raise. *)
Definition lift {A} (o : outcome A) : M A := fun w => (o, w).

Notation "x <- m ;; k" := (bind m (fun x => k))
  (at level 61, m at next level, right associativity).
Notation "m ;;; k" := (bind m (fun _ => k))
  (at level 61, right associativity).

(** The same sequencing for pure steps. *)
Definition obind {A B} (o : outcome A) (k : A -> outcome B) : outcome B :=
  match o with
  | Return a => k a
  | Raise e => Raise e
  | Diverge => Diverge
  end.

Notation "x <~ o ;; k" := (obind o (fun x => k))
  (at level 61, o at next level, right associativity).

(** ** World updates *)

Definition with_calls (n : nat) (w : World) : World :=
  {| calls := n; ticks := ticks w; draws := draws w; logs := logs w;
     store := store w |}.

Definition with_ticks (n : nat) (w : World) : World :=
  {| calls := calls w; ticks := n; draws := draws w; logs := logs w;
     store := store w |}.

Definition with_draws (n : nat) (w : World) : World :=
  {| calls := calls w; ticks := ticks w; draws := n; logs := logs w;
     store := store w |}.

Definition with_logs (l : list string) (w : World) : World :=
  {| calls := calls w; ticks := ticks w; draws := draws w; logs := l;
     store := store w |}.

Definition with_store (s : list DebateRecord) (w : World) : World :=
  {| calls := calls w; ticks := ticks w; draws := draws w; logs := logs w;
     store := s |}.

(** ** Constants of the module *)

Definition LANG : string := "en".

Definition rounds : list string :=
  [ "round1_opening.txt";
    "round2_rebuttal.txt";
    "round3_assumptions.txt";
    "round4_closing.txt" ].

(** [enumerate(l, start=i)]. *)
Fixpoint enumerate {A} (i : Z) (l : list A) : list (Z * A) :=
  match l with
  | [] => []
  | x :: l' => (i, x) :: enumerate (i + 1) l'
  end.

(** [x.get("content") or ""] on a result of [call_model]. *)
Definition content_or_empty (c : option string) : string :=
  match c with
  | Some s => s
  | None => ""
  end.

(** ** Pure functions of the module *)

(** [render_prompt]: the variables are substituted one after the other, in
    the order of the dict; [str.replace] refuses a value that is [None]. *)
Fixpoint render_prompt (template : string) (variables : dict (option string))
  : outcome string :=
  match variables with
  | [] => Return template
  | (key, Some v) :: rest =>
      render_prompt (Str.replace ("{{" ++ key ++ "}}") v template) rest
  | (key, None) :: rest => Raise TypeError
  end.

Fixpoint merge_items (i : Z) (history : list ModelResult) : list string :=
  match history with
  | [] => []
  | item :: rest =>
      ("Round " ++ Str.of_Z (i + 1) ++ ":" ++ Str.newline
         ++ format_opt (res_content item))
        :: merge_items (i + 1) rest
  end.

Definition merge_responses (history : list ModelResult) : string :=
  Str.join (Str.newline ++ Str.newline) (merge_items 0 history).

Definition build_opponent_variables
    (round_index : Z) (opponent_history : list ModelResult)
    (opponent_label : string) : dict (option string) :=
  if round_index <=? 1 then []
  else
    let target_index := round_index - 2 in
    if Z.of_nat (List.length opponent_history) <=? target_index then []
    else
      let key := opponent_label ++ "_ROUND_" ++ Str.of_Z (round_index - 1) in
      match nth_error opponent_history (Z.to_nat target_index) with
      | Some item => [(key, res_content item)]
      | None => []
      end.

(** The variables of a round prompt: the topic and the conditions, updated
    with the opponent variables. *)
Definition round_variables (topic conditions : string) (round_index : Z)
    (opponent_history : list ModelResult) (opponent_label : string)
  : dict (option string) :=
  Dict.update [("TOPIC", Some topic); ("CONDITIONS", Some conditions)]
    (build_opponent_variables round_index opponent_history opponent_label).

Definition zero_usage : UsageFields :=
  {| u_cost := 0%float; u_completion_tokens := 0; u_prompt_tokens := 0;
     u_total_tokens := 0; u_reasoning := ""; u_reasoning_tokens := 0 |}.

Definition remap_winner (raw_winner : value) (side_map : SideMap) : value :=
  if eq_str raw_winner "Side A" then VStr ("Side " ++ map_A side_map)
  else if eq_str raw_winner "Side B" then VStr ("Side " ++ map_B side_map)
  else por raw_winner (VStr "").

Definition normalize_jury_scores (parsed : dict value) (side_map : SideMap)
  : dict value :=
  if String.eqb (map_A side_map) "A" then parsed
  else
    [ ("total_score_A", get "total_score_B" parsed);
      ("total_score_B", get "total_score_A" parsed);
      ("detailed_scores_A", get "detailed_scores_B" parsed);
      ("detailed_scores_B", get "detailed_scores_A" parsed);
      ("winner", get "winner" parsed);
      ("reasoning", get "reasoning" parsed);
      ("general", get "general" parsed) ].

(** [is_valid_jury].  Membership in the set literal hashes the winner first,
    which a list or a dict refuses. *)
Definition is_valid_jury (parsed : dict value) : outcome bool :=
  match parsed with
  | [] => Return false
  | _ =>
      let winner := get "winner" parsed in
      if negb (hashable winner) then Raise TypeError
      else if negb (eq_str winner "Side A" || eq_str winner "Side B")
      then Return false
      else Return (is_not_none (get "total_score_A" parsed)
                   && is_not_none (get "total_score_B" parsed))
  end.

Definition add_usage (t : Totals) (u : UsageFields) : Totals :=
  {| total_cost := PrimFloat.add (total_cost t) (u_cost u);
     total_completion_tokens := total_completion_tokens t + u_completion_tokens u;
     total_prompt_tokens := total_prompt_tokens t + u_prompt_tokens u;
     total_tokens := total_tokens t + u_total_tokens u;
     total_reasoning_tokens := total_reasoning_tokens t + u_reasoning_tokens u |}.

Definition zero_totals : Totals :=
  {| total_cost := 0%float; total_completion_tokens := 0;
     total_prompt_tokens := 0; total_tokens := 0;
     total_reasoning_tokens := 0 |}.

(** ** The winner aggregation (the end of [run_debate]) *)

(** [[item.get("winner") for item in jury_parsed_list if item.get("winner")]]. *)
Definition winners_of (jury_parsed_list : list (dict value)) : list value :=
  filter truthy (map (get "winner") jury_parsed_list).

(** [winners.count(s)]. *)
Definition count (s : string) (winners : list value) : nat :=
  List.length (filter (fun v => eq_str v s) winners).

Definition winner_counts_of (winners : list value) : WinnerCounts :=
  {| side_a_count := count "Side A" winners;
     side_b_count := count "Side B" winners |}.

Definition final_winner_of (winners : list value) : string :=
  match winners with
  | [] => ""
  | _ =>
      if (side_b_count (winner_counts_of winners)
          <=? side_a_count (winner_counts_of winners))%nat
      then "Side A" else "Side B"
  end.

(** The loop that picks the representative texts: the first verdict whose
    winner is the final winner decides both, and the loop stops there. *)
Fixpoint representative (final_winner : string)
    (jury_parsed_list : list (dict value)) : value * value :=
  match jury_parsed_list with
  | [] => (VStr "", VStr "")
  | parsed :: rest =>
      if eq_str (get "winner" parsed) final_winner
      then (por (get_default "reasoning" (VStr "") parsed) (VStr ""),
            por (get_default "general" (VStr "") parsed) (VStr ""))
      else representative final_winner rest
  end.

Definition result_of (jury_parsed_list : list (dict value)) : Result :=
  let final_winner := final_winner_of (winners_of jury_parsed_list) in
  let texts := representative final_winner jury_parsed_list in
  {| r_general := snd texts;
     r_winner := final_winner;
     r_winning_reason := fst texts |}.

(** ** The program over an environment *)

Section Program.

Variable env : Env.

(** [log]: the line goes to the console; the model keeps the message. *)
Definition log (message : string) : M unit :=
  fun w => (Return tt, with_logs (logs w ++ [message])%list w).

Definition load_prompt (name : string) : M string :=
  match prompt_file env name with
  | Some text => ret text
  | None => raise FileNotFoundError
  end.

(** [time.time()]. *)
Definition time_time : M float :=
  fun w => (Return (clock env (ticks w)), with_ticks (S (ticks w)) w).

(** [time.sleep(1)] changes nothing the model keeps. *)
Definition sleep : M unit := ret tt.

Definition call_model (client : Client) (model : string)
    (messages : list Message) : M ModelResult :=
  fun w =>
    let w' := with_calls (S (calls w)) w in
    match backend env (calls w) client model messages with
    | Completion text usage =>
        (Return {| res_model := model; res_content := text;
                   res_usage := usage |}, w')
    | Failure e => (Raise e, w')
    end.

(** [save_jsonl]: one line per record is appended to the file; the store
    keeps the records themselves. *)
Definition save_jsonl (records : list DebateRecord) : M unit :=
  fun w => (Return tt, with_store (store w ++ records)%list w).

(** [generate(size=16, alphabet=...)]. *)
Definition generate : M string :=
  fun w => (Return (nanoid env (draws w)), with_draws (S (draws w)) w).

(** [unique_id]: draw until the id is new; the id is added to [seen]. *)
Fixpoint unique_id (fuel : nat) (seen : list string)
  : M (string * list string) :=
  match fuel with
  | O => fun w => (Diverge, w)
  | S fuel' =>
      uid <- generate ;;
      if existsb (String.eqb uid) seen
      then unique_id fuel' seen
      else ret (uid, uid :: seen)
  end.

(** [float(x)]. *)
Definition py_float (v : value) : outcome float :=
  match v with
  | VFloat f => Return f
  | VInt z => float_of_int z
  | VBool b => Return (if b then 1%float else 0%float)
  | VStr s => of_result (float_of_str env s)
  | VNone | VList _ | VDict _ => Raise TypeError
  end.

(** [int(x)]. *)
Definition py_int (v : value) : outcome Z :=
  match v with
  | VInt z => Return z
  | VBool b => Return (if b then 1 else 0)
  | VFloat f => int_of_float f
  | VStr s => of_result (int_of_str env s)
  | VNone | VList _ | VDict _ => Raise TypeError
  end.

Definition extract_usage_fields (usage : option (dict value))
  : outcome UsageFields :=
  match usage with
  | None | Some [] => Return zero_usage
  | Some usage =>
      let cost := get "total_cost" usage in
      let cost :=
        if is_not_none cost then cost
        else get_default "cost" (VFloat 0%float) usage in
      c <~ py_float (por cost (VFloat 0%float)) ;;
      ct <~ py_int (por (get "completion_tokens" usage) (VInt 0)) ;;
      pt <~ py_int (por (get "prompt_tokens" usage) (VInt 0)) ;;
      tt <~ py_int (por (get "total_tokens" usage) (VInt 0)) ;;
      rt <~ py_int (por (get "reasoning_tokens" usage) (VInt 0)) ;;
      Return {| u_cost := c; u_completion_tokens := ct;
                u_prompt_tokens := pt; u_total_tokens := tt;
                u_reasoning := ""; u_reasoning_tokens := rt |}
  end.

(** The text handed to [json.loads]: blanks stripped, and for a fenced block
    the back-quotes and a leading [json] tag removed. *)
Definition clean_jury_text (text : string) : string :=
  let cleaned := Str.strip text in
  if Str.startswith "```" cleaned then
    let cleaned := Str.strip_chars "`" cleaned in
    if Str.startswith "json" cleaned
    then Str.lstrip (Str.drop 4 cleaned)
    else cleaned
  else cleaned.

Definition parse_jury_response (text : string) : outcome value :=
  if String.eqb text "" then Return (VDict [])
  else
    match json_loads env (clean_jury_text text) with
    | Error JSONDecodeError => Return (VDict [])
    | r => of_result r
    end.

Definition run_jury_evaluation
    (client : Client) (judge_model topic conditions : string)
    (history_a history_b : list ModelResult) (blind : bool)
  : M JuryResult :=
  judge_template <- load_prompt "judge/judge_evaluation.txt" ;;
  log "Running jury evaluation." ;;;
  let side_a_text := merge_responses history_a in
  let side_b_text := merge_responses history_b in
  let side_map := {| map_A := "A"; map_B := "B" |} in
  let '(side_a_text, side_b_text, side_map) :=
    if blind
    then (side_b_text, side_a_text, {| map_A := "B"; map_B := "A" |})
    else (side_a_text, side_b_text, side_map) in
  rendered_prompt <-
    lift (render_prompt judge_template
            [ ("TOPIC", Some topic);
              ("CONDITIONS", Some conditions);
              ("SIDE_A_TEXT", Some side_a_text);
              ("SIDE_B_TEXT", Some side_b_text) ]) ;;
  let messages :=
    [ {| role := "system"; content := "You are a neutral debate judge." |};
      {| role := "user"; content := rendered_prompt |} ] in
  result <- call_model client judge_model messages ;;
  ret {| jr_judge_model := judge_model;
         jr_side_map := side_map;
         jr_prompt := rendered_prompt;
         jr_raw_response := res_content result;
         jr_usage := res_usage result |}.

(** *** The rounds of [run_debate] *)

Record RoundState : Type := {
  history_a : list ModelResult;
  history_b : list ModelResult;
  messages_a : list Message;
  messages_b : list Message;
  rounds_log : list RoundEntry;
  totals : Totals
}.

(** What one debater's half of a round produces. *)
Record Turn : Type := {
  t_result : ModelResult;
  t_messages : list Message;
  t_entry : RoundEntry;
  t_usage : UsageFields
}.

(** One debater's half of round [i]: bind the variables, render the prompt,
    call the model, read the usage, build the log entry.  [side] is ["A"]
    or ["B"]; the opponent's label is ["MODEL_B"] or ["MODEL_A"]. *)
Definition debater_turn (i : Z) (side : string)
    (client : Client) (model : string) (round_template : string)
    (topic conditions : string) (messages : list Message)
    (opponent_history : list ModelResult) (opponent_label : string)
  : M Turn :=
  let variables :=
    round_variables topic conditions i opponent_history opponent_label in
  prompt <- lift (render_prompt round_template variables) ;;
  let messages :=
    (messages ++ [{| role := "user"; content := prompt |}])%list in
  log ("Calling model " ++ side ++ " for round " ++ Str.of_Z i ++ ".") ;;;
  round_start <- time_time ;;
  result <- call_model client model messages ;;
  round_end <- time_time ;;
  let round_duration := PrimFloat.sub round_end round_start in
  log ("Model " ++ side ++ " completed round " ++ Str.of_Z i ++ ".") ;;;
  let messages :=
    (messages ++ [{| role := "assistant";
                     content := content_or_empty (res_content result) |}])%list in
  u <- lift (extract_usage_fields (res_usage result)) ;;
  ret {| t_result := result;
         t_messages := messages;
         t_entry :=
           {| re_id := i;
              re_side := side;
              re_prompt := prompt;
              re_content := content_or_empty (res_content result);
              re_cost := u_cost u;
              re_completion_tokens := u_completion_tokens u;
              re_prompt_tokens := u_prompt_tokens u;
              re_total_tokens := u_total_tokens u;
              re_reasoning := u_reasoning u;
              re_reasoning_tokens := u_reasoning_tokens u;
              re_duration_seconds := round_duration |};
         t_usage := u |}.

(** The body of the loop over the rounds. *)
Definition debate_round
    (client_a client_b : Client) (model_a model_b topic conditions : string)
    (i : Z) (round_file : string) (st : RoundState) : M RoundState :=
  round_template_a <- load_prompt ("model_a/" ++ round_file) ;;
  round_template_b <- load_prompt ("model_b/" ++ round_file) ;;
  log ("Round " ++ Str.of_Z i ++ " started: " ++ round_file) ;;;
  ta <- debater_turn i "A" client_a model_a round_template_a topic conditions
          (messages_a st) (history_b st) "MODEL_B" ;;
  let history_a' := (history_a st ++ [t_result ta])%list in
  let rounds_log' := (rounds_log st ++ [t_entry ta])%list in
  let totals' := add_usage (totals st) (t_usage ta) in
  sleep ;;;
  tb <- debater_turn i "B" client_b model_b round_template_b topic conditions
          (messages_b st) history_a' "MODEL_A" ;;
  sleep ;;;
  ret {| history_a := history_a';
         history_b := (history_b st ++ [t_result tb])%list;
         messages_a := t_messages ta;
         messages_b := t_messages tb;
         rounds_log := (rounds_log' ++ [t_entry tb])%list;
         totals := add_usage totals' (t_usage tb) |}.

Fixpoint debate_rounds
    (client_a client_b : Client) (model_a model_b topic conditions : string)
    (todo : list (Z * string)) (st : RoundState) : M RoundState :=
  match todo with
  | [] => ret st
  | (i, round_file) :: rest =>
      st' <- debate_round client_a client_b model_a model_b topic conditions
               i round_file st ;;
      debate_rounds client_a client_b model_a model_b topic conditions
        rest st'
  end.

(** *** The jury of [run_debate] *)

Record JuryState : Type := {
  j_totals : Totals;
  jury_results : list JuryEntry;
  jury_parsed_list : list (dict value)
}.

(** [x.get(...)] exists on a dict only. *)
Definition as_dict (v : value) : outcome (dict value) :=
  match v with
  | VDict d => Return d
  | _ => Raise AttributeError
  end.

(** De-blinding of a parsed response: the winner is remapped through the
    side map and written back, then the scores are normalized. *)
Definition jury_parsed_of (jury_parsed_raw : value) (side_map : SideMap)
  : outcome (dict value) :=
  jury_parsed_raw <~ as_dict jury_parsed_raw ;;
  let remapped_winner :=
    remap_winner (get_default "winner" (VStr "") jury_parsed_raw) side_map in
  let jury_parsed_raw := Dict.set "winner" remapped_winner jury_parsed_raw in
  Return (normalize_jury_scores jury_parsed_raw side_map).

(** The body of the loop over the judges. *)
Definition jury_step (topic conditions : string)
    (history_a history_b : list ModelResult) (blind_jury : bool)
    (cfg : JudgeConfig) (st : JuryState) : M JuryState :=
  jury_result <-
    run_jury_evaluation (cfg_client cfg) (cfg_model cfg) topic conditions
      history_a history_b blind_jury ;;
  u <- lift (extract_usage_fields (jr_usage jury_result)) ;;
  let totals' := add_usage (j_totals st) u in
  jury_parsed_raw <-
    lift (parse_jury_response
            (content_or_empty (jr_raw_response jury_result))) ;;
  jury_parsed <-
    lift (jury_parsed_of jury_parsed_raw (jr_side_map jury_result)) ;;
  valid <- lift (is_valid_jury jury_parsed) ;;
  if negb valid then
    log ("Skipping invalid jury output for model " ++ cfg_model cfg ++ ".") ;;;
    ret {| j_totals := totals';
           jury_results := jury_results st;
           jury_parsed_list := jury_parsed_list st |}
  else
    ret {| j_totals := totals';
           jury_results :=
             (jury_results st ++
              [{| je_model := cfg_model cfg;
                  je_prompt := jr_prompt jury_result;
                  je_content := content_or_empty (jr_raw_response jury_result);
                  je_cost := u_cost u;
                  je_completion_tokens := u_completion_tokens u;
                  je_prompt_tokens := u_prompt_tokens u;
                  je_total_tokens := u_total_tokens u;
                  je_reasoning := u_reasoning u;
                  je_reasoning_tokens := u_reasoning_tokens u;
                  je_blind := blind_jury;
                  je_side_map := jr_side_map jury_result |}])%list;
           jury_parsed_list := (jury_parsed_list st ++ [jury_parsed])%list |}.

Fixpoint jury_loop (topic conditions : string)
    (history_a history_b : list ModelResult) (blind_jury : bool)
    (judge_configs : list JudgeConfig) (st : JuryState) : M JuryState :=
  match judge_configs with
  | [] => ret st
  | cfg :: rest =>
      st' <- jury_step topic conditions history_a history_b blind_jury
               cfg st ;;
      jury_loop topic conditions history_a history_b blind_jury rest st'
  end.

(** *** The record and the run *)

Definition build_record (uid : string)
    (judge_configs : list JudgeConfig)
    (model_a model_b topic conditions : string)
    (st : RoundState) (js : JuryState) (total_duration_seconds : float)
  : DebateRecord :=
  {| rec_id := uid;
     rec_topic := topic;
     rec_conditions := conditions;
     rec_lang := LANG;
     rec_proposition := model_a;
     rec_opposition := model_b;
     rec_jury := Str.join "," (map cfg_model judge_configs);
     rec_rounds := rounds_log st;
     rec_evaluation :=
       {| ev_juries := jury_results js;
          ev_parsed := jury_parsed_list js;
          ev_winner_counts :=
            winner_counts_of (winners_of (jury_parsed_list js)) |};
     rec_result := result_of (jury_parsed_list js);
     rec_totals := j_totals js;
     rec_total_duration_seconds := total_duration_seconds |}.

Definition initial_state (system_prompt : string) : RoundState :=
  {| history_a := [];
     history_b := [];
     messages_a := [{| role := "system"; content := system_prompt |}];
     messages_b := [{| role := "system"; content := system_prompt |}];
     rounds_log := [];
     totals := zero_totals |}.

(** [run_debate] up to the end of the loop over the judges: the start time,
    the state of the rounds and the state of the jury. *)
Definition debate_and_jury
    (client_a client_b : Client) (judge_configs : list JudgeConfig)
    (model_a model_b topic conditions : string) (blind_jury : bool)
  : M (float * RoundState * JuryState) :=
  start_time <- time_time ;;
  log ("Debate started with topic: " ++ topic) ;;;
  log ("Models: A=" ++ model_a ++ ", B=" ++ model_b ++ ", Judge="
         ++ Str.join "," (map cfg_model judge_configs)) ;;;
  system_prompt <- load_prompt "system.txt" ;;
  st <- debate_rounds client_a client_b model_a model_b topic conditions
          (enumerate 1 rounds) (initial_state system_prompt) ;;
  js <- jury_loop topic conditions (history_a st) (history_b st) blind_jury
          judge_configs
          {| j_totals := totals st;
             jury_results := [];
             jury_parsed_list := [] |} ;;
  ret (start_time, st, js).

(** [run_debate]: the rounds and the jury, then the aggregation, the record
    and its line in the output file. *)
Definition run_debate
    (client_a client_b : Client) (judge_configs : list JudgeConfig)
    (model_a model_b topic conditions : string) (blind_jury : bool)
  : M unit :=
  r <- debate_and_jury client_a client_b judge_configs model_a model_b
         topic conditions blind_jury ;;
  let '(start_time, st, js) := r in
  end_time <- time_time ;;
  let total_duration_seconds := PrimFloat.sub end_time start_time in
  (* seen_ids is a new empty set: the first draw is accepted *)
  uid <- unique_id 1 [] ;;
  let record :=
    build_record (fst uid) judge_configs model_a model_b topic conditions
      st js total_duration_seconds in
  save_jsonl [record] ;;;
  log "Debate finished. Output saved to outputs/out.jsonl".

End Program.

(** The environment [env] in which request number [idx] is answered by [r]
    and everything else is as before. *)
Definition with_reply (env : Env) (idx : nat) (r : reply) : Env :=
  {| backend := fun n client model messages =>
       if Nat.eqb n idx then r else backend env n client model messages;
     prompt_file := prompt_file env;
     clock := clock env;
     nanoid := nanoid env;
     json_loads := json_loads env;
     float_of_str := float_of_str env;
     int_of_str := int_of_str env |}.

(** The tags of the entries of a [rounds] array. *)
Definition round_tags (entries : list RoundEntry) : list (Z * string) :=
  map (fun e => (re_id e, re_side e)) entries.

Definition identity_map : SideMap := {| map_A := "A"; map_B := "B" |}.
Definition blind_map : SideMap := {| map_A := "B"; map_B := "A" |}.


(** ** Configuration from the process environment *)

(** [os.getenv], after [load_dotenv]: the value of a variable, if it is set. *)
Definition Environ : Type := string -> option string.

(** [str.lower] on one character (code points below 256). *)
Definition lower_char (c : ascii) : ascii :=
  let n := nat_of_ascii c in
  if (((65 <=? n) && (n <=? 90))
      || ((192 <=? n) && (n <=? 222) && negb (n =? 215)))%nat
  then ascii_of_nat (n + 32)
  else c.

Fixpoint lower (s : string) : string :=
  match s with
  | EmptyString => EmptyString
  | String c s' => String (lower_char c) (lower s')
  end.

(** [s.split(sep)] for a separator of one character: the pieces between the
    separators, at least one piece. *)
Fixpoint split (sep : ascii) (s : string) : list string :=
  match s with
  | EmptyString => [EmptyString]
  | String c s' =>
      if Ascii.eqb c sep then EmptyString :: split sep s'
      else
        match split sep s' with
        | piece :: pieces => String c piece :: pieces
        | [] => [String c EmptyString]
        end
  end.

Definition comma : ascii := ascii_of_nat 44.

(** The dict of [resolve_backend], and an entry of [build_judge_configs]. *)
Record BackendConfig : Type := {
  bc_backend : string;
  bc_base_url : string;
  bc_model : string;
  bc_requires_api_key : bool
}.

(** [backend in {"local", "online"}]. *)
Definition known_backend (backend : string) : bool :=
  String.eqb backend "local" || String.eqb backend "online".

(** The variable that holds the base URL of a backend. *)
Definition base_url_key (backend : string) : string :=
  if String.eqb backend "local" then "LOCAL_BASE_URL" else "ONLINE_BASE_URL".

Section Configuration.

Variable environ : Environ.

(** The constructor [OpenAI(base_url=..., api_key=...)]: the exception it
    raises, if any.  It parses the base URL and raises [InvalidURL] when the
    URL is malformed. *)
Variable openai_error : string -> string -> option exn.

Definition OpenAI (base_url api_key : string) : outcome Client :=
  match openai_error base_url api_key with
  | Some e => Raise e
  | None => Return {| base_url := base_url; api_key := api_key |}
  end.

(** [os.getenv(key, default)]. *)
Definition getenv_default (key default : string) : string :=
  match environ key with
  | Some v => v
  | None => default
  end.

Definition get_api_key : string :=
  match environ "API_KEY" with
  | Some (String c v) => String c v
  | _ => getenv_default "API_KEY" ""
  end.

Definition require_env (key : string) : outcome string :=
  match environ key with
  | Some (String c v) => Return (String c v)
  | _ => Raise ValueError
  end.

Definition resolve_backend (role : string) : outcome BackendConfig :=
  backend <~ require_env (role ++ "_BACKEND") ;;
  let backend := lower (Str.strip backend) in
  if negb (known_backend backend) then Raise ValueError
  else
    base_url <~ require_env (base_url_key backend) ;;
    model_name <~ require_env (role ++ "_MODEL") ;;
    Return {| bc_backend := backend;
              bc_base_url := base_url;
              bc_model := model_name;
              bc_requires_api_key := String.eqb backend "online" |}.

Definition build_client (base_url : string) (requires_api_key : bool)
  : outcome Client :=
  let api_key := get_api_key in
  if requires_api_key && String.eqb api_key "" then Raise ValueError
  else
    OpenAI base_url
      (if String.eqb api_key "" then "no-need-api-key" else api_key).

Definition parse_list_env (key : string) : outcome (list string) :=
  v <~ require_env key ;;
  Return (filter (fun item => negb (String.eqb item ""))
            (map Str.strip (split comma v))).

(** The loop of [build_judge_configs] over the pairs of a model and a
    backend. *)
Fixpoint judge_configs_of (pairs : list (string * string))
  : outcome (list BackendConfig) :=
  match pairs with
  | [] => Return []
  | (model, backend) :: rest =>
      if negb (known_backend backend) then Raise ValueError
      else
        base_url <~ require_env (base_url_key backend) ;;
        configs <~ judge_configs_of rest ;;
        Return ({| bc_backend := backend;
                   bc_base_url := base_url;
                   bc_model := model;
                   bc_requires_api_key := String.eqb backend "online" |}
                  :: configs)
  end.

Definition build_judge_configs : outcome (list BackendConfig) :=
  models <~ parse_list_env "JUDGE_MODELS" ;;
  backends <~ parse_list_env "JUDGE_BACKENDS" ;;
  if negb (Nat.eqb (List.length models) (List.length backends))
  then Raise ValueError
  else judge_configs_of (combine models backends).

(** The loop of the main block that gives every judge its client; judges
    with the same base URL and the same key requirement share one. *)
Fixpoint assign_clients (configs : list BackendConfig)
    (judge_clients : list (string * bool * Client))
  : outcome (list JudgeConfig) :=
  match configs with
  | [] => Return []
  | cfg :: rest =>
      let same (entry : string * bool * Client) :=
        String.eqb (fst (fst entry)) (bc_base_url cfg)
        && Bool.eqb (snd (fst entry)) (bc_requires_api_key cfg) in
      judge_clients <~
        match find same judge_clients with
        | Some _ => Return judge_clients
        | None =>
            client <~ build_client (bc_base_url cfg) (bc_requires_api_key cfg) ;;
            Return (judge_clients
                      ++ [(bc_base_url cfg, bc_requires_api_key cfg, client)])%list
        end ;;
      match find same judge_clients with
      | Some entry =>
          configs <~ assign_clients rest judge_clients ;;
          Return ({| cfg_model := bc_model cfg;
                     cfg_backend := bc_backend cfg;
                     cfg_base_url := bc_base_url cfg;
                     cfg_requires_api_key := bc_requires_api_key cfg;
                     cfg_client := snd entry |} :: configs)
      | None => Raise KeyError
      end
  end.

(** Everything the main block settles before it logs and starts the
    debate. *)
Record RunConfig : Type := {
  rc_topic : string;
  rc_conditions : string;
  rc_model_a : BackendConfig;
  rc_model_b : BackendConfig;
  rc_judges : list JudgeConfig;
  rc_blind_jury : bool;
  rc_client_a : Client;
  rc_client_b : Client
}.

Definition configure : outcome RunConfig :=
  topic <~ require_env "TOPIC" ;;
  let conditions := Str.strip (getenv_default "CONDITIONS" "") in
  model_a_config <~ resolve_backend "MODEL_A" ;;
  model_b_config <~ resolve_backend "MODEL_B" ;;
  judge_configs <~ build_judge_configs ;;
  let blind_jury :=
    String.eqb (lower (Str.strip (getenv_default "JUDGE_BLIND" "true")))
      "true" in
  client_a <~ build_client (bc_base_url model_a_config)
                (bc_requires_api_key model_a_config) ;;
  client_b <~ build_client (bc_base_url model_b_config)
                (bc_requires_api_key model_b_config) ;;
  judges <~ assign_clients judge_configs [] ;;
  Return {| rc_topic := topic;
            rc_conditions := conditions;
            rc_model_a := model_a_config;
            rc_model_b := model_b_config;
            rc_judges := judges;
            rc_blind_jury := blind_jury;
            rc_client_a := client_a;
            rc_client_b := client_b |}.

End Configuration.

(** The main block: configure, log the backends and the base URLs, run the
    debate. *)
Definition main (env : Env) (environ : Environ)
    (openai_error : string -> string -> option exn) : M unit :=
  rc <- lift (configure environ openai_error) ;;
  log ("Backends: A=" ++ bc_backend (rc_model_a rc)
         ++ " B=" ++ bc_backend (rc_model_b rc)
         ++ " Judge=" ++ Str.join "," (map cfg_backend (rc_judges rc))) ;;;
  log ("Base URLs: A=" ++ bc_base_url (rc_model_a rc)
         ++ " B=" ++ bc_base_url (rc_model_b rc)
         ++ " Judge=" ++ Str.join "," (map cfg_base_url (rc_judges rc))) ;;;
  run_debate env (rc_client_a rc) (rc_client_b rc) (rc_judges rc)
    (bc_model (rc_model_a rc)) (bc_model (rc_model_b rc))
    (rc_topic rc) (rc_conditions rc) (rc_blind_jury rc).

(** ** Vocabulary of the properties *)

(** A computation is [safe] when it never writes the store, never lowers the
    request counter, and always ends. *)
Definition safe {A} (m : M A) : Prop :=
  forall w r w',
    m w = (r, w') ->
    store w' = store w /\ (calls w <= calls w')%nat /\ r <> Diverge.

(** A computation in which request number [n], once it is made, ends
    everything: the outcome is the exception [e] and no request follows. *)
Definition stops_at (n : nat) (e : exn) {A} (m : M A) : Prop :=
  forall w r w',
    m w = (r, w') ->
    (calls w <= n)%nat -> (n < calls w')%nat ->
    r = Raise e /\ calls w' = S n.

(** Request number [n] was answered, whatever was asked. *)
Definition answered (env : Env) (n : nat) : Prop :=
  exists client model messages text usage,
    backend env n client model messages = Completion text usage.

Definition side_map_of (blind : bool) : SideMap :=
  if blind then blind_map else identity_map.

(** The variables of the judge prompt: under blinding the two transcripts
    change places. *)
Definition judge_variables (topic conditions : string)
    (ha hb : list ModelResult) (blind : bool) : dict (option string) :=
  [ ("TOPIC", Some topic);
    ("CONDITIONS", Some conditions);
    ("SIDE_A_TEXT", Some (merge_responses (if blind then hb else ha)));
    ("SIDE_B_TEXT", Some (merge_responses (if blind then ha else hb))) ].

Definition judge_messages (prompt : string) : list Message :=
  [ {| role := "system"; content := "You are a neutral debate judge." |};
    {| role := "user"; content := prompt |} ].

(** Request number [n], put to the judge [cfg], was answered with [text];
    the usage read [u]; the answer, parsed and de-blinded, is [parsed], and
    the validity check returned [valid]. *)
Definition judge_answer (env : Env) (topic conditions : string)
    (ha hb : list ModelResult) (blind : bool)
    (cfg : JudgeConfig) (n : nat) (prompt : string)
    (text : option string) (u : UsageFields) (parsed : dict value)
    (valid : bool) : Prop :=
  exists template usage raw,
    prompt_file env "judge/judge_evaluation.txt" = Some template
    /\ render_prompt template (judge_variables topic conditions ha hb blind)
       = Return prompt
    /\ backend env n (cfg_client cfg) (cfg_model cfg) (judge_messages prompt)
       = Completion text usage
    /\ extract_usage_fields env usage = Return u
    /\ parse_jury_response env (content_or_empty text) = Return raw
    /\ jury_parsed_of raw (side_map_of blind) = Return parsed
    /\ is_valid_jury parsed = Return valid.

(** The entry of [jury_results] for a judge. *)
Definition jury_entry (blind : bool) (cfg : JudgeConfig) (prompt : string)
    (text : option string) (u : UsageFields) : JuryEntry :=
  {| je_model := cfg_model cfg;
     je_prompt := prompt;
     je_content := content_or_empty text;
     je_cost := u_cost u;
     je_completion_tokens := u_completion_tokens u;
     je_prompt_tokens := u_prompt_tokens u;
     je_total_tokens := u_total_tokens u;
     je_reasoning := u_reasoning u;
     je_reasoning_tokens := u_reasoning_tokens u;
     je_blind := blind;
     je_side_map := side_map_of blind |}.

(** The state of the jury after a judge: the usage is always added; the
    entry and the verdict only when the verdict is valid. *)
Definition jury_state_after (blind : bool) (st : JuryState) (cfg : JudgeConfig)
    (prompt : string) (text : option string) (u : UsageFields)
    (parsed : dict value) (valid : bool) : JuryState :=
  {| j_totals := add_usage (j_totals st) u;
     jury_results :=
       if valid then (jury_results st ++ [jury_entry blind cfg prompt text u])%list
       else jury_results st;
     jury_parsed_list :=
       if valid then (jury_parsed_list st ++ [parsed])%list
       else jury_parsed_list st |}.

(** The world when the rounds start: the clock has been read once and two
    lines have been logged. *)
Definition started (topic model_a model_b : string)
    (judge_configs : list JudgeConfig) (w : World) : World :=
  snd (log ("Models: A=" ++ model_a ++ ", B=" ++ model_b ++ ", Judge="
              ++ Str.join "," (map cfg_model judge_configs))
         (snd (log ("Debate started with topic: " ++ topic)
                 (with_ticks (S (ticks w)) w)))).



(** The verdict [v] names [s] as its winner. *)
Definition wins (s : string) (v : dict value) : bool :=
  eq_str (get "winner" v) s.

(** ** A small world to run the program in *)

Module Scenario.

Definition quote : string := String (ascii_of_nat 34) EmptyString.

(** The JSON text of a verdict, as a judge writes it. *)
Definition verdict_text (winner : string) : string :=
  "{" ++ quote ++ "winner" ++ quote ++ ": " ++ quote ++ winner ++ quote ++ ", "
    ++ quote ++ "total_score_A" ++ quote ++ ": 18, "
    ++ quote ++ "total_score_B" ++ quote ++ ": 12, "
    ++ quote ++ "reasoning" ++ quote ++ ": " ++ quote ++ "clearer case" ++ quote ++ ", "
    ++ quote ++ "general" ++ quote ++ ": " ++ quote ++ "a close debate" ++ quote ++ "}".

Definition verdict (winner : string) : dict value :=
  [ ("winner", VStr winner);
    ("total_score_A", VInt 18);
    ("total_score_B", VInt 12);
    ("reasoning", VStr "clearer case");
    ("general", VStr "a close debate") ].

(** A verdict whose winner is a list. *)
Definition list_winner_text : string :=
  "{" ++ quote ++ "winner" ++ quote ++ ": [" ++ quote ++ "Side A" ++ quote ++ "], "
    ++ quote ++ "total_score_A" ++ quote ++ ": 18, "
    ++ quote ++ "total_score_B" ++ quote ++ ": 12}".

Definition list_winner : dict value :=
  [ ("winner", VList [VStr "Side A"]);
    ("total_score_A", VInt 18);
    ("total_score_B", VInt 12) ].

(** [json.loads] on the documents of the scenario; any other text is not
    JSON here. *)
Definition loads (s : string) : result value :=
  if String.eqb s (verdict_text "Side A") then Ok (VDict (verdict "Side A"))
  else if String.eqb s (verdict_text "Side B") then Ok (VDict (verdict "Side B"))
  else if String.eqb s list_winner_text then Ok (VDict list_winner)
  else Error JSONDecodeError.

Definition template : string :=
  "{{TOPIC}} ({{CONDITIONS}}) A1={{MODEL_A_ROUND_1}} A2={{MODEL_A_ROUND_2}} "
    ++ "A3={{MODEL_A_ROUND_3}} B1={{MODEL_B_ROUND_1}} B2={{MODEL_B_ROUND_2}} "
    ++ "B3={{MODEL_B_ROUND_3}} [{{SIDE_A_TEXT}}] [{{SIDE_B_TEXT}}]".

(** The eight debater requests are answered ["speech 0"] to ["speech 7"],
    without usage; the judges answer as listed, and a request beyond the
    list fails. *)
Definition env (judges : list reply) : Env :=
  {| backend := fun n _ _ _ =>
       if (n <? 8)%nat
       then Completion (Some ("speech " ++ Str.of_Z (Z.of_nat n))) None
       else nth (n - 8) judges (Failure BackendError);
     prompt_file := fun _ => Some template;
     clock := fun _ => 0%float;
     nanoid := fun _ => "0123456789abcdef";
     json_loads := loads;
     float_of_str := fun _ => Error ValueError;
     int_of_str := fun _ => Error ValueError |}.

Definition w0 : World :=
  {| calls := 0; ticks := 0; draws := 0; logs := []; store := [] |}.

Definition client : Client := {| base_url := "http://localhost"; api_key := "" |}.

Definition judge (model : string) : JudgeConfig :=
  {| cfg_model := model; cfg_backend := "local";
     cfg_base_url := "http://localhost"; cfg_requires_api_key := false;
     cfg_client := client |}.

(** A debate on ["X"] between two models, judged by [judges]. *)
Definition run (judges : list reply) (blind : bool) : outcome unit * World :=
  run_debate (env judges) client client
    (map (fun k => judge ("judge" ++ Str.of_Z (Z.of_nat k)))
         (seq 0 (List.length judges)))
    "model-a" "model-b" "X" "" blind w0.

End Scenario.

(** The same world with a [json.loads] that also knows three JSON documents
    that are not objects. *)
Module NotAnObject.

Definition string_text : string :=
  Scenario.quote ++ "Side A" ++ Scenario.quote.

Definition loads (s : string) : result value :=
  if String.eqb s "null" then Ok VNone
  else if String.eqb s "[1, 2]" then Ok (VList [VInt 1; VInt 2])
  else if String.eqb s string_text then Ok (VStr "Side A")
  else Scenario.loads s.

Definition env (judges : list reply) : Env :=
  {| backend := backend (Scenario.env judges);
     prompt_file := prompt_file (Scenario.env judges);
     clock := clock (Scenario.env judges);
     nanoid := nanoid (Scenario.env judges);
     json_loads := loads;
     float_of_str := float_of_str (Scenario.env judges);
     int_of_str := int_of_str (Scenario.env judges) |}.

(** A debate judged by one judge who answers [text]. *)
Definition run (text : string) : outcome unit * World :=
  run_debate (env [Completion (Some text) None]) Scenario.client
    Scenario.client [Scenario.judge "judge0"] "model-a" "model-b" "X" ""
    false Scenario.w0.

End NotAnObject.

(** ** Vocabulary of the further properties *)

Definition user_message (prompt : string) : Message :=
  {| role := "user"; content := prompt |}.

Definition assistant_message (text : string) : Message :=
  {| role := "assistant"; content := text |}.

(** The usage columns of a round entry and of a jury entry. *)
Definition entry_usage (e : RoundEntry) : UsageFields :=
  {| u_cost := re_cost e;
     u_completion_tokens := re_completion_tokens e;
     u_prompt_tokens := re_prompt_tokens e;
     u_total_tokens := re_total_tokens e;
     u_reasoning := re_reasoning e;
     u_reasoning_tokens := re_reasoning_tokens e |}.

Definition jury_usage (e : JuryEntry) : UsageFields :=
  {| u_cost := je_cost e;
     u_completion_tokens := je_completion_tokens e;
     u_prompt_tokens := je_prompt_tokens e;
     u_total_tokens := je_total_tokens e;
     u_reasoning := je_reasoning e;
     u_reasoning_tokens := je_reasoning_tokens e |}.

(** The messages one side has exchanged, read off the round entries: for
    every entry of that side its prompt, then its content. *)
Definition thread_of (side : string) (entries : list RoundEntry)
  : list Message :=
  flat_map
    (fun e =>
       if String.eqb (re_side e) side
       then [user_message (re_prompt e); assistant_message (re_content e)]
       else [])
    entries.

(** What one judge did in a loop that returned. *)
Record JudgeOutcome : Type := {
  jo_cfg : JudgeConfig;
  jo_prompt : string;
  jo_text : option string;
  jo_usage : UsageFields;
  jo_parsed : dict value;
  jo_valid : bool
}.

(** The state of the jury after the judge of an outcome. *)
Definition absorb (blind : bool) (st : JuryState) (o : JudgeOutcome)
  : JuryState :=
  jury_state_after blind st (jo_cfg o) (jo_prompt o) (jo_text o) (jo_usage o)
    (jo_parsed o) (jo_valid o).

(** The jury entry of an outcome. *)
Definition entry_of (blind : bool) (o : JudgeOutcome) : JuryEntry :=
  jury_entry blind (jo_cfg o) (jo_prompt o) (jo_text o) (jo_usage o).

(** [trace] is what the judges [cfgs] did after the rounds that ended in
    [st], the first judge's request being number [first]: one outcome per
    judge, in order, each the answer to that judge's request, read, parsed,
    de-blinded and checked as the jury loop does. *)
Definition judged (env : Env) (topic conditions : string) (st : RoundState)
    (blind : bool) (first : nat) (cfgs : list JudgeConfig)
    (trace : list JudgeOutcome) : Prop :=
  map jo_cfg trace = cfgs
  /\ forall k o,
       nth_error trace k = Some o ->
       judge_answer env topic conditions (history_a st) (history_b st) blind
         (jo_cfg o) (first + k) (jo_prompt o) (jo_text o) (jo_usage o)
         (jo_parsed o) (jo_valid o).

(** The sum of one counter over a list of usages. *)
Definition sum_of (counter : UsageFields -> Z) (us : list UsageFields) : Z :=
  fold_right Z.add 0 (map counter us).

Definition system_message (text : string) : Message :=
  {| role := "system"; content := text |}.

(** Request number [n] of a run: the thread of [side] so far, which is the
    system prompt and what the side exchanged in the [earlier] entries,
    followed by [prompt], was put to [client] and [model] and answered with
    the content and the usage of [result]. *)
Definition asked (env : Env) (n : nat) (client : Client) (model : string)
    (system_prompt side : string) (earlier : list RoundEntry)
    (prompt : string) (result : ModelResult) : Prop :=
  backend env n client model
    (system_message system_prompt
       :: thread_of side earlier ++ [user_message prompt])%list
  = Completion (res_content result) (res_usage result).

(** The value [extract_usage_fields] takes the cost from: [total_cost], or
    [cost] when [total_cost] is absent or null. *)
Definition cost_of_usage (usage : dict value) : value :=
  if is_not_none (get "total_cost" usage) then get "total_cost" usage
  else get_default "cost" (VFloat 0%float) usage.

(** A float, zero for a missing one (and for either zero). *)
Definition float_or_zero (v : value) : float :=
  match v with
  | VFloat f => if PrimFloat.eqb f 0%float then 0%float else f
  | _ => 0%float
  end.

(** An int, zero for a missing one. *)
Definition int_or_zero (v : value) : Z :=
  match v with
  | VInt z => z
  | _ => 0
  end.

Definition absent_or_float (v : value) : bool :=
  match v with
  | VNone | VFloat _ => true
  | _ => false
  end.

Definition absent_or_int (v : value) : bool :=
  match v with
  | VNone | VInt _ => true
  | _ => false
  end.

(** A computation makes at most [n] requests. *)
Definition bounded (n : nat) {A} (m : M A) : Prop :=
  forall w r w', m w = (r, w') -> (calls w' <= calls w + n)%nat.

(** [old] occurs in [s], at some position. *)
Definition occurs (old s : string) : Prop :=
  exists n, String.prefix old (Str.drop n s) = true.

(** A JSON value that is not an object. *)
Definition not_an_object (v : value) : bool :=
  match v with
  | VDict _ => false
  | _ => true
  end.

(** A judge answer that is not empty and that the jury loop cannot read:
    its cleaned text decodes to a value that is not an object, on which the
    [.get] of the loop raises [AttributeError], or [json.loads] raises an
    exception other than [JSONDecodeError] on it. *)
Definition misread (env : Env) (text : option string) (e : exn) : Prop :=
  content_or_empty text <> ""
  /\ ((exists v,
         json_loads env (clean_jury_text (content_or_empty text)) = Ok v
         /\ not_an_object v = true
         /\ e = AttributeError)
      \/ (json_loads env (clean_jury_text (content_or_empty text)) = Error e
          /\ e <> JSONDecodeError)).

(** ** Vocabulary of the configuration properties *)

(** [c in s] for one character. *)
Fixpoint contains_char (c : ascii) (s : string) : bool :=
  match s with
  | EmptyString => false
  | String a s' => Ascii.eqb a c || contains_char c s'
  end.

(** What an item of a list variable looks like: not empty, without white
    space around it, without a comma. *)
Definition list_item (s : string) : Prop :=
  s <> "" /\ Str.strip s = s /\ contains_char comma s = false.

(** An outcome that is a value or a [ValueError]. *)
Definition value_or_ValueError {A} (o : outcome A) : Prop :=
  (exists a, o = Return a) \/ o = Raise ValueError.

(** What can go wrong while the configuration is settled: a [ValueError] of
    the program itself, or whatever the client constructor raises. *)
Definition configuration_error
    (openai_error : string -> string -> option exn) (e : exn) : Prop :=
  e = ValueError
  \/ exists base_url api_key, openai_error base_url api_key = Some e.

(** An outcome that is a value or such an error. *)
Definition settled_or_fails {A}
    (openai_error : string -> string -> option exn) (o : outcome A) : Prop :=
  (exists a, o = Return a)
  \/ exists e, o = Raise e /\ configuration_error openai_error e.

(** A client of an online backend carries the key of the environment, which
    is set and not empty. *)
Definition carries_key (environ : Environ) (backend : string) (c : Client)
  : Prop :=
  backend = "online" ->
  environ "API_KEY" = Some (api_key c) /\ api_key c <> "".

(** What holds of a backend configuration: the backend is one of the two,
    the key is required for the online one, and the base URL is the value of
    the variable of that backend, which is not empty. *)
Definition well_formed_config (environ : Environ) (cfg : BackendConfig)
  : Prop :=
  known_backend (bc_backend cfg) = true
  /\ bc_requires_api_key cfg = String.eqb (bc_backend cfg) "online"
  /\ environ (base_url_key (bc_backend cfg)) = Some (bc_base_url cfg)
  /\ bc_base_url cfg <> "".

(** The judge made of a configuration: the same four fields, and the client
    that [build_client] builds for its base URL and key requirement. *)
Definition judge_of (environ : Environ)
    (openai_error : string -> string -> option exn) (cfg : BackendConfig)
    (judge : JudgeConfig) : Prop :=
  cfg_model judge = bc_model cfg
  /\ cfg_backend judge = bc_backend cfg
  /\ cfg_base_url judge = bc_base_url cfg
  /\ cfg_requires_api_key judge = bc_requires_api_key cfg
  /\ build_client environ openai_error (bc_base_url cfg) (bc_requires_api_key cfg)
     = Return (cfg_client judge).

(** An environment file with an online side, a local side and three judges
    on two backends. *)
Module Setup.

Definition variables : dict string :=
  [ ("TOPIC", "Remote work is better than office work");
    ("MODEL_A_BACKEND", " Online ");
    ("MODEL_A_MODEL", "model-a");
    ("MODEL_B_BACKEND", "local");
    ("MODEL_B_MODEL", "model-b");
    ("LOCAL_BASE_URL", "http://localhost:1234/v1");
    ("ONLINE_BASE_URL", "https://openrouter.ai/api/v1");
    ("JUDGE_MODELS", "judge-1, judge-2,,judge-3");
    ("JUDGE_BACKENDS", "online,local,online");
    ("API_KEY", "sk-key") ].

Definition environ : Environ := fun key => Dict.lookup key variables.

(** The client constructor accepts the two base URLs of the file and
    rejects a URL with an unclosed bracket. *)
Definition openai_error (base_url api_key : string) : option exn :=
  if String.eqb base_url "http://[::1" then Some InvalidURL else None.

(** The same file with a local base URL that does not parse. *)
Definition broken : Environ :=
  fun key =>
    if String.eqb key "LOCAL_BASE_URL" then Some "http://[::1"
    else environ key.

(** What the main block settles from it. *)
Definition online_client : Client :=
  {| base_url := "https://openrouter.ai/api/v1"; api_key := "sk-key" |}.

Definition local_client : Client :=
  {| base_url := "http://localhost:1234/v1"; api_key := "sk-key" |}.

Definition online_judge (model : string) : JudgeConfig :=
  {| cfg_model := model; cfg_backend := "online";
     cfg_base_url := "https://openrouter.ai/api/v1";
     cfg_requires_api_key := true; cfg_client := online_client |}.

Definition local_judge (model : string) : JudgeConfig :=
  {| cfg_model := model; cfg_backend := "local";
     cfg_base_url := "http://localhost:1234/v1";
     cfg_requires_api_key := false; cfg_client := local_client |}.

Definition settled : RunConfig :=
  {| rc_topic := "Remote work is better than office work";
     rc_conditions := "";
     rc_model_a :=
       {| bc_backend := "online";
          bc_base_url := "https://openrouter.ai/api/v1";
          bc_model := "model-a"; bc_requires_api_key := true |};
     rc_model_b :=
       {| bc_backend := "local";
          bc_base_url := "http://localhost:1234/v1";
          bc_model := "model-b"; bc_requires_api_key := false |};
     rc_judges :=
       [online_judge "judge-1"; local_judge "judge-2"; online_judge "judge-3"];
     rc_blind_jury := true;
     rc_client_a := online_client;
     rc_client_b := local_client |}.

End Setup.

(** * Properties *)

(** ** The library functions on small inputs *)

Example of_Z_positive : Str.of_Z 3 = "3".
Proof. reflexivity. Qed.

Example of_Z_negative : Str.of_Z (-12) = "-12".
Proof. reflexivity. Qed.

Example replace_placeholder :
  Str.replace "{{K}}" "v" "a {{K}} b {{K}}{{K}}" = "a v b vv".
Proof. reflexivity. Qed.

Example replace_does_not_overlap : Str.replace "aa" "b" "aaa" = "ba".
Proof. reflexivity. Qed.

Example replace_empty_pattern : Str.replace "" "-" "ab" = "-a-b-".
Proof. reflexivity. Qed.

Example strip_blanks : Str.strip "  a b  " = "a b".
Proof. reflexivity. Qed.

(** The line break before the closing fence stays; [json.loads] skips it. *)
Example clean_fenced_block :
  clean_jury_text ("  ```json" ++ Str.newline ++ "{}" ++ Str.newline ++ "```")
  = "{}" ++ Str.newline.
Proof. reflexivity. Qed.

Example int_of_float_truncates :
  int_of_float 2.5%float = Return 2 /\ int_of_float (-2.5)%float = Return (-2).
Proof. split; reflexivity. Qed.

Example int_of_infinity_raises :
  int_of_float infinity = Raise OverflowError.
Proof. reflexivity. Qed.

Example float_of_int_small : float_of_int 3 = Return 3%float.
Proof. reflexivity. Qed.

Example render_refuses_none :
  render_prompt "{{A}}" [("A", None)] = Raise TypeError.
Proof. reflexivity. Qed.

Example merge_two_rounds :
  merge_responses
    [ {| res_model := "m"; res_content := Some "one"; res_usage := None |};
      {| res_model := "m"; res_content := None; res_usage := None |} ]
  = "Round 1:" ++ Str.newline ++ "one" ++ Str.newline ++ Str.newline
      ++ "Round 2:" ++ Str.newline ++ "None".
Proof. reflexivity. Qed.

(** ** Sequencing *)

Section Sequencing.

Context {A B : Type}.

Lemma bind_Return_inv (m : M A) (k : A -> M B) w b w' :
  bind m k w = (Return b, w') ->
  exists a w1, m w = (Return a, w1) /\ k a w1 = (Return b, w').
Proof.
  unfold bind. destruct (m w) as [[a | e | ] w1]; intros H; try discriminate.
  exists a, w1. split; [reflexivity | exact H].
Qed.

Lemma bind_Return (m : M A) (k : A -> M B) w a w1 :
  m w = (Return a, w1) -> bind m k w = k a w1.
Proof. unfold bind. intros ->. reflexivity. Qed.

Lemma bind_Raise (m : M A) (k : A -> M B) w e w1 :
  m w = (Raise e, w1) -> bind m k w = (Raise e, w1).
Proof. unfold bind. intros ->. reflexivity. Qed.

Lemma obind_Return_inv (o : outcome A) (k : A -> outcome B) b :
  obind o k = Return b -> exists a, o = Return a /\ k a = Return b.
Proof.
  destruct o as [a | e | ]; simpl; intros H; try discriminate.
  exists a. split; [reflexivity | exact H].
Qed.

End Sequencing.

Lemma lift_Return_inv {A} (o : outcome A) w a w' :
  lift o w = (Return a, w') -> o = Return a /\ w' = w.
Proof. unfold lift. intros H. inversion H. split; reflexivity. Qed.

(** Takes a hypothesis [bind m k w = (Return b, w')] apart: the first step
    returned [a] in world [w1] (hypothesis [Hstep]), and [H] becomes the
    rest. *)
Tactic Notation "inv_bind" hyp(H) "as" ident(a) ident(w1) ident(Hs) :=
  apply bind_Return_inv in H; destruct H as (a & w1 & Hs & H).
Tactic Notation "inv_bind" hyp(H) "as" ident(a) ident(w1) :=
  let H1 := fresh "Hstep" in
  apply bind_Return_inv in H; destruct H as (a & w1 & H1 & H);
  rename H1 into Hstep.
Tactic Notation "inv_bind" hyp(H) :=
  let a := fresh "a" in
  let w1 := fresh "w" in
  inv_bind H as a w1.

(** ** What every step leaves alone *)

Lemma safe_ret {A} (a : A) : safe (ret a).
Proof.
  intros w r w' H. inversion H; subst. repeat split; [lia | discriminate].
Qed.

Lemma safe_raise {A} (e : exn) : safe (@raise A e).
Proof.
  intros w r w' H. inversion H; subst. repeat split; [lia | discriminate].
Qed.

Lemma safe_lift {A} (o : outcome A) : o <> Diverge -> safe (lift o).
Proof.
  intros Ho w r w' H. inversion H; subst. repeat split; [lia | exact Ho].
Qed.

Lemma safe_bind {A B} (m : M A) (k : A -> M B) :
  safe m -> (forall a, safe (k a)) -> safe (bind m k).
Proof.
  intros Hm Hk w r w' H. unfold bind in H.
  destruct (m w) as [[a | e | ] w1] eqn:E;
    destruct (Hm _ _ _ E) as (Hs & Hc & Hd).
  - destruct (Hk a _ _ _ H) as (Hs' & Hc' & Hd').
    repeat split; [congruence | lia | exact Hd'].
  - inversion H; subst. repeat split; [exact Hs | exact Hc | discriminate].
  - contradiction Hd. reflexivity.
Qed.

Lemma of_result_total {A} (r : result A) : of_result r <> Diverge.
Proof. destruct r; discriminate. Qed.

Lemma obind_total {A B} (o : outcome A) (k : A -> outcome B) :
  o <> Diverge -> (forall a, k a <> Diverge) -> obind o k <> Diverge.
Proof.
  destruct o; simpl; intros Ho Hk;
    [apply Hk | discriminate | contradiction Ho; reflexivity].
Qed.

Lemma render_prompt_total variables template :
  render_prompt template variables <> Diverge.
Proof.
  revert template.
  induction variables as [| [key [v |]] rest IH]; intros template; simpl.
  - discriminate.
  - apply IH.
  - discriminate.
Qed.

Lemma float_of_int_total z : float_of_int z <> Diverge.
Proof. unfold float_of_int. destruct (binary_normalize _ _ _ _ _); discriminate. Qed.

Lemma int_of_float_total f : int_of_float f <> Diverge.
Proof. unfold int_of_float. destruct (Prim2SF f); discriminate. Qed.

Lemma is_valid_jury_total parsed : is_valid_jury parsed <> Diverge.
Proof.
  unfold is_valid_jury. destruct parsed; [discriminate |].
  destruct (negb _); [discriminate |]. destruct (negb _); discriminate.
Qed.

Section ProgramFacts.

Variable env : Env.

Lemma py_float_total v : py_float env v <> Diverge.
Proof.
  destruct v; simpl; try discriminate;
    [apply float_of_int_total | apply of_result_total].
Qed.

Lemma py_int_total v : py_int env v <> Diverge.
Proof.
  destruct v; simpl; try discriminate;
    [apply int_of_float_total | apply of_result_total].
Qed.

Lemma extract_usage_fields_total usage :
  extract_usage_fields env usage <> Diverge.
Proof.
  unfold extract_usage_fields. destruct usage as [[| kv usage] |];
    try discriminate.
  apply obind_total; [apply py_float_total | intros c].
  repeat (apply obind_total; [apply py_int_total | intros ?]).
  discriminate.
Qed.

Lemma parse_jury_response_total text :
  parse_jury_response env text <> Diverge.
Proof.
  unfold parse_jury_response. destruct (String.eqb text ""); [discriminate |].
  destruct (json_loads env _) as [v | e]; simpl; [discriminate |].
  destruct e; discriminate.
Qed.

Lemma jury_parsed_of_total raw side_map :
  jury_parsed_of raw side_map <> Diverge.
Proof.
  unfold jury_parsed_of. apply obind_total; [| discriminate].
  destruct raw; discriminate.
Qed.

Lemma safe_log message : safe (log message).
Proof.
  intros w r w' H. inversion H; subst. simpl.
  repeat split; [lia | discriminate].
Qed.

Lemma safe_load_prompt name : safe (load_prompt env name).
Proof.
  unfold load_prompt. destruct (prompt_file env name);
    [apply safe_ret | apply safe_raise].
Qed.

Lemma safe_time_time : safe (time_time env).
Proof.
  intros w r w' H. inversion H; subst. simpl.
  repeat split; [lia | discriminate].
Qed.

Lemma safe_generate : safe (generate env).
Proof.
  intros w r w' H. inversion H; subst. simpl.
  repeat split; [lia | discriminate].
Qed.

Lemma safe_call_model client model messages :
  safe (call_model env client model messages).
Proof.
  intros w r w' H. unfold call_model in H.
  destruct (backend env (calls w) client model messages);
    inversion H; subst; simpl; repeat split; try lia; discriminate.
Qed.

Lemma safe_unique_id_fresh fuel : safe (unique_id env (S fuel) []).
Proof.
  simpl. apply safe_bind; [apply safe_generate | intros uid; apply safe_ret].
Qed.

Create HintDb safe discriminated.

Hint Resolve safe_ret safe_raise safe_log safe_load_prompt safe_time_time
  safe_generate safe_call_model safe_unique_id_fresh
  render_prompt_total extract_usage_fields_total parse_jury_response_total
  jury_parsed_of_total is_valid_jury_total : safe.

(** Solves [safe] goals over sequences of steps. *)
Ltac safe_steps :=
  repeat first
    [ solve [auto with safe]
    | apply safe_lift; solve [auto with safe]
    | apply safe_bind; [| intros ?]
    | match goal with
      | |- safe (if ?b then _ else _) => destruct b
      | |- safe (let '(_, _) := ?p in _) => destruct p
      end ].

Lemma safe_run_jury_evaluation client judge_model topic conditions ha hb blind :
  safe (run_jury_evaluation env client judge_model topic conditions ha hb blind).
Proof.
  unfold run_jury_evaluation.
  destruct blind; cbv iota beta zeta; safe_steps.
Qed.

Lemma safe_debater_turn i side client model template topic conditions
    messages opponent_history opponent_label :
  safe (debater_turn env i side client model template topic conditions
          messages opponent_history opponent_label).
Proof. unfold debater_turn. safe_steps. Qed.

Hint Resolve safe_run_jury_evaluation safe_debater_turn : safe.

Lemma safe_debate_round ca cb ma mb topic conditions i round_file st :
  safe (debate_round env ca cb ma mb topic conditions i round_file st).
Proof. unfold debate_round, sleep. safe_steps. Qed.

Lemma safe_debate_rounds ca cb ma mb topic conditions todo :
  forall st, safe (debate_rounds env ca cb ma mb topic conditions todo st).
Proof.
  induction todo as [| [i round_file] rest IH]; intros st; simpl.
  - apply safe_ret.
  - apply safe_bind; [apply safe_debate_round | intros st'; apply IH].
Qed.

Lemma safe_jury_step topic conditions ha hb blind cfg st :
  safe (jury_step env topic conditions ha hb blind cfg st).
Proof.
  unfold jury_step. safe_steps.
Qed.

Lemma safe_jury_loop topic conditions ha hb blind cfgs :
  forall st, safe (jury_loop env topic conditions ha hb blind cfgs st).
Proof.
  induction cfgs as [| cfg rest IH]; intros st; simpl.
  - apply safe_ret.
  - apply safe_bind; [apply safe_jury_step | intros st'; apply IH].
Qed.

Hint Resolve safe_debate_rounds safe_jury_loop : safe.

Lemma safe_debate_and_jury ca cb cfgs ma mb topic conditions blind :
  safe (debate_and_jury env ca cb cfgs ma mb topic conditions blind).
Proof. unfold debate_and_jury. safe_steps. Qed.

End ProgramFacts.

(** ** Inversion of the steps *)

Section Steps.

Variable env : Env.

Lemma log_inv message w a w' :
  log message w = (Return a, w') ->
  w' = with_logs (logs w ++ [message])%list w.
Proof. unfold log. intros H. inversion H. reflexivity. Qed.

Lemma time_time_inv w t w' :
  time_time env w = (Return t, w') ->
  t = clock env (ticks w) /\ w' = with_ticks (S (ticks w)) w.
Proof. unfold time_time. intros H. inversion H. split; reflexivity. Qed.

Lemma load_prompt_inv name w text w' :
  load_prompt env name w = (Return text, w') ->
  prompt_file env name = Some text /\ w' = w.
Proof.
  unfold load_prompt. destruct (prompt_file env name) as [t |]; intros H.
  - inversion H. split; reflexivity.
  - discriminate.
Qed.

Lemma call_model_inv client model messages w r w' :
  call_model env client model messages w = (Return r, w') ->
  exists text usage,
    backend env (calls w) client model messages = Completion text usage
    /\ r = {| res_model := model; res_content := text; res_usage := usage |}
    /\ w' = with_calls (S (calls w)) w.
Proof.
  unfold call_model.
  destruct (backend env (calls w) client model messages) as [text usage | e];
    intros H; inversion H.
  exists text, usage. repeat split.
Qed.

Lemma lift_Return {A} (o : outcome A) a w :
  o = Return a -> lift o w = (Return a, w).
Proof. intros ->. reflexivity. Qed.

Lemma log_Return message w :
  log message w = (Return tt, with_logs (logs w ++ [message])%list w).
Proof. reflexivity. Qed.

Lemma load_prompt_Return name text w :
  prompt_file env name = Some text ->
  load_prompt env name w = (Return text, w).
Proof. unfold load_prompt. intros ->. reflexivity. Qed.

Lemma call_model_Return client model messages text usage w :
  backend env (calls w) client model messages = Completion text usage ->
  call_model env client model messages w
  = (Return {| res_model := model; res_content := text; res_usage := usage |},
     with_calls (S (calls w)) w).
Proof. unfold call_model. intros ->. reflexivity. Qed.

(** A debater's turn that returns has rendered its prompt from the variables
    of the round, has been answered by the backend at the current request
    number, and has logged an entry tagged with the round and the side. *)
Lemma debater_turn_inv i side client model template topic conditions
    messages opponent_history opponent_label w t w' :
  debater_turn env i side client model template topic conditions
    messages opponent_history opponent_label w = (Return t, w') ->
  exists text usage,
    render_prompt template
      (round_variables topic conditions i opponent_history opponent_label)
    = Return (re_prompt (t_entry t))
    /\ backend env (calls w) client model
         (messages ++ [{| role := "user";
                          content := re_prompt (t_entry t) |}])%list
       = Completion text usage
    /\ t_result t
       = {| res_model := model; res_content := text; res_usage := usage |}
    /\ extract_usage_fields env usage = Return (t_usage t)
    /\ re_id (t_entry t) = i
    /\ re_side (t_entry t) = side
    /\ re_content (t_entry t) = content_or_empty text
    /\ calls w' = S (calls w).
Proof.
  unfold debater_turn. intros H.
  inv_bind H. apply lift_Return_inv in Hstep. destruct Hstep as [Hrender ->].
  inv_bind H. apply log_inv in Hstep. subst.
  inv_bind H. apply time_time_inv in Hstep. destruct Hstep as [-> ->].
  inv_bind H. apply call_model_inv in Hstep.
  destruct Hstep as (text & usage & Hreply & -> & ->).
  inv_bind H. apply time_time_inv in Hstep. destruct Hstep as [-> ->].
  inv_bind H. apply log_inv in Hstep. subst.
  inv_bind H. apply lift_Return_inv in Hstep. destruct Hstep as [Husage ->].
  inversion H; subst; clear H. simpl in *.
  exists text, usage. repeat split; assumption.
Qed.

(** The same turn under two environments that answer the current request
    alike and read the same files and parsers. *)
Lemma debater_turn_with_reply idx r i side client model template topic
    conditions messages opponent_history opponent_label w :
  calls w <> idx ->
  debater_turn (with_reply env idx r) i side client model template topic
    conditions messages opponent_history opponent_label w
  = debater_turn env i side client model template topic conditions
      messages opponent_history opponent_label w.
Proof.
  intros Hidx. unfold debater_turn, bind, lift, log, time_time, call_model.
  simpl. apply Nat.eqb_neq in Hidx. rewrite Hidx. reflexivity.
Qed.

End Steps.

(** ** The rounds *)

Section Rounds.

Variable env : Env.
Variables client_a client_b : Client.
Variables model_a model_b topic conditions : string.

Let debate_round' :=
  debate_round env client_a client_b model_a model_b topic conditions.
Let debate_rounds' :=
  debate_rounds env client_a client_b model_a model_b topic conditions.

(** What a round that returns has done. *)
Lemma debate_round_inv i round_file st w st' w' :
  debate_round' i round_file st w = (Return st', w') ->
  exists ta tb ra rb ea eb,
    prompt_file env ("model_a/" ++ round_file) = Some ta
    /\ prompt_file env ("model_b/" ++ round_file) = Some tb
    /\ history_a st' = (history_a st ++ [ra])%list
    /\ history_b st' = (history_b st ++ [rb])%list
    /\ rounds_log st' = (rounds_log st ++ [ea; eb])%list
    /\ round_tags [ea; eb] = [(i, "A"); (i, "B")]
    /\ render_prompt ta
         (round_variables topic conditions i (history_b st) "MODEL_B")
       = Return (re_prompt ea)
    /\ render_prompt tb
         (round_variables topic conditions i (history_a st ++ [ra])%list
            "MODEL_A")
       = Return (re_prompt eb)
    /\ answered env (calls w)
    /\ answered env (S (calls w))
    /\ calls w' = (calls w + 2)%nat.
Proof.
  unfold debate_round', debate_round, sleep. intros H.
  inv_bind H as ta w1. apply load_prompt_inv in Hstep. destruct Hstep as [Hta ->].
  inv_bind H as tb w2. apply load_prompt_inv in Hstep. destruct Hstep as [Htb ->].
  inv_bind H as u1 w3. apply log_inv in Hstep. subst.
  inv_bind H as turn_a w4. apply debater_turn_inv in Hstep.
  destruct Hstep as (text_a & usage_a & Hra & Hba & Hres_a & _ & Hid_a & Hside_a
                     & _ & Hcalls_a).
  inv_bind H as u2 w5. inversion Hstep; subst; clear Hstep.
  inv_bind H as turn_b w6. apply debater_turn_inv in Hstep.
  destruct Hstep as (text_b & usage_b & Hrb & Hbb & Hres_b & _ & Hid_b & Hside_b
                     & _ & Hcalls_b).
  inv_bind H as u3 w7. inversion Hstep; subst; clear Hstep.
  inversion H; subst; clear H. simpl in *.
  exists ta, tb, (t_result turn_a), (t_result turn_b),
    (t_entry turn_a), (t_entry turn_b).
  repeat split; try assumption.
  - rewrite <- app_assoc. reflexivity.
  - unfold round_tags. simpl. congruence.
  - do 5 eexists. exact Hba.
  - rewrite <- Hcalls_a. do 5 eexists. exact Hbb.
  - lia.
Qed.

(** What a sequence of rounds that returns has done: one result per side and
    per round, two tagged entries per round, two answered requests per round,
    and prompts rendered from the opponent's results of the rounds before. *)
Lemma debate_rounds_inv files :
  forall i st w st' w',
    debate_rounds' (enumerate i files) st w = (Return st', w') ->
    exists ras rbs entries,
      history_a st' = (history_a st ++ ras)%list
      /\ history_b st' = (history_b st ++ rbs)%list
      /\ rounds_log st' = (rounds_log st ++ entries)%list
      /\ List.length ras = List.length files
      /\ List.length rbs = List.length files
      /\ round_tags entries
         = flat_map (fun jf => [(fst jf, "A"); (fst jf, "B")])
             (enumerate i files)
      /\ calls w' = (calls w + 2 * List.length files)%nat
      /\ (forall n, (calls w <= n < calls w')%nat -> answered env n)
      /\ (forall k f,
            nth_error files k = Some f ->
            exists ta tb ea eb,
              prompt_file env ("model_a/" ++ f) = Some ta
              /\ prompt_file env ("model_b/" ++ f) = Some tb
              /\ nth_error entries (2 * k) = Some ea
              /\ nth_error entries (2 * k + 1) = Some eb
              /\ render_prompt ta
                   (round_variables topic conditions (i + Z.of_nat k)
                      (history_b st ++ firstn k rbs)%list "MODEL_B")
                 = Return (re_prompt ea)
              /\ render_prompt tb
                   (round_variables topic conditions (i + Z.of_nat k)
                      (history_a st ++ firstn (S k) ras)%list "MODEL_A")
                 = Return (re_prompt eb)).
Proof.
  induction files as [| f0 files IH]; intros i st w st' w' H.
  - simpl in H. inversion H; subst; clear H.
    exists [], [], []. rewrite !app_nil_r.
    repeat split; try reflexivity; try (simpl; lia).
    intros k f Hk. destruct k; discriminate.
  - simpl in H. inv_bind H as st1 w1.
    apply debate_round_inv in Hstep.
    destruct Hstep as (ta & tb & ra & rb & ea & eb & Hta & Htb & Hha & Hhb
                       & Hlog & Htags & Hpa & Hpb & Hans0 & Hans1 & Hcalls).
    apply IH in H.
    destruct H as (ras & rbs & entries & Hha' & Hhb' & Hlog' & Hla & Hlb
                   & Htags' & Hcalls' & Hans & Hrounds).
    exists (ra :: ras), (rb :: rbs), (ea :: eb :: entries).
    repeat split.
    + rewrite Hha', Hha, <- app_assoc. reflexivity.
    + rewrite Hhb', Hhb, <- app_assoc. reflexivity.
    + rewrite Hlog', Hlog, <- app_assoc. reflexivity.
    + simpl. congruence.
    + simpl. congruence.
    + unfold round_tags in *. simpl in Htags.
      injection Htags as Hi1 Hs1 Hi2 Hs2.
      simpl. rewrite Htags', Hi1, Hs1, Hi2, Hs2. reflexivity.
    + rewrite Hcalls', Hcalls. simpl. lia.
    + intros n Hn.
      destruct (Nat.eq_dec n (calls w)) as [-> | Hn0]; [exact Hans0 |].
      destruct (Nat.eq_dec n (S (calls w))) as [-> | Hn1]; [exact Hans1 |].
      apply Hans. lia.
    + intros k f Hk. destruct k as [| k].
      * simpl in Hk. inversion Hk; subst; clear Hk.
        exists ta, tb, ea, eb. simpl. rewrite Z.add_0_r, app_nil_r.
        repeat split; assumption.
      * simpl in Hk. destruct (Hrounds k f Hk)
          as (ta' & tb' & ea' & eb' & Hta' & Htb' & Hea' & Heb' & Hpa' & Hpb').
        exists ta', tb', ea', eb'.
        replace (i + Z.of_nat (S k)) with (i + 1 + Z.of_nat k) by lia.
        replace (2 * S k)%nat with (S (S (2 * k))) by lia.
        rewrite Hha, Hhb, <- !app_assoc in *.
        repeat split; assumption.
Qed.

End Rounds.

(** ** The jury *)

Section Jury.

Variable env : Env.
Variables topic conditions : string.
Variables ha hb : list ModelResult.
Variable blind : bool.

Let jury_step' := jury_step env topic conditions ha hb blind.
Let jury_loop' := jury_loop env topic conditions ha hb blind.

Lemma jury_step_inv cfg st w st' w' :
  jury_step' cfg st w = (Return st', w') ->
  exists prompt text u parsed valid,
    judge_answer env topic conditions ha hb blind cfg (calls w) prompt text u parsed valid
    /\ st' = jury_state_after blind st cfg prompt text u parsed valid
    /\ calls w' = S (calls w).
Proof.
  unfold jury_step', jury_step, run_jury_evaluation. intros H.
  inv_bind H as jr w1 Hjury.
  inv_bind Hjury as template w2.
  apply load_prompt_inv in Hstep. destruct Hstep as [Htemplate ->].
  inv_bind Hjury as u0 w3. apply log_inv in Hstep. subst.
  assert (Hjr : exists prompt text usage,
             render_prompt template (judge_variables topic conditions ha hb blind)
             = Return prompt
             /\ backend env (calls w) (cfg_client cfg) (cfg_model cfg)
                  (judge_messages prompt) = Completion text usage
             /\ jr = {| jr_judge_model := cfg_model cfg;
                        jr_side_map := side_map_of blind;
                        jr_prompt := prompt;
                        jr_raw_response := text;
                        jr_usage := usage |}
             /\ calls w1 = S (calls w)).
  { unfold judge_variables. destruct blind; cbv iota beta zeta in Hjury;
      inv_bind Hjury as prompt w4 Hp;
      apply lift_Return_inv in Hp; destruct Hp as [Hrender ->];
      inv_bind Hjury as res w5 Hc;
      apply call_model_inv in Hc;
      destruct Hc as (text & usage & Hreply & -> & ->);
      inversion Hjury; subst; clear Hjury;
      exists prompt, text, usage; repeat split; assumption. }
  destruct Hjr as (prompt & text & usage & Hrender & Hreply & -> & Hcalls).
  simpl in H.
  inv_bind H as u w4. apply lift_Return_inv in Hstep. destruct Hstep as [Hu ->].
  inv_bind H as raw w5. apply lift_Return_inv in Hstep. destruct Hstep as [Hraw ->].
  inv_bind H as parsed w6. apply lift_Return_inv in Hstep.
  destruct Hstep as [Hparsed ->].
  inv_bind H as valid w7. apply lift_Return_inv in Hstep.
  destruct Hstep as [Hvalid ->].
  exists prompt, text, u, parsed, valid.
  split; [exists template, usage, raw; repeat split; assumption |].
  destruct valid; simpl in H.
  - inversion H; subst; clear H. split; [reflexivity | exact Hcalls].
  - inv_bind H as u1 w8. apply log_inv in Hstep. subst.
    inversion H; subst; clear H. split; [reflexivity | exact Hcalls].
Qed.


(** What a loop over the judges that returns has done: one answered request
    per judge, and only valid verdicts added, at most one per judge. *)
Lemma jury_loop_inv cfgs :
  forall st w st' w',
    jury_loop' cfgs st w = (Return st', w') ->
    calls w' = (calls w + List.length cfgs)%nat
    /\ (forall n, (calls w <= n < calls w')%nat -> answered env n)
    /\ exists new,
         jury_parsed_list st' = (jury_parsed_list st ++ new)%list
         /\ Forall (fun v => is_valid_jury v = Return true) new
         /\ (List.length new <= List.length cfgs)%nat.
Proof.
  induction cfgs as [| cfg cfgs IH]; intros st w st' w' H.
  - simpl in H. inversion H; subst; clear H. split; [simpl; lia |].
    split; [intros n Hn; lia |].
    exists []. rewrite app_nil_r. repeat split; [constructor | simpl; lia].
  - simpl in H. inv_bind H as st1 w1.
    apply jury_step_inv in Hstep.
    destruct Hstep as (prompt & text & u & parsed & valid & Hans & -> & Hcalls).
    apply IH in H. destruct H as (Hcalls' & Hanswered & new & Hnew & Hvalid & Hlen).
    split; [simpl; lia |].
    split.
    + intros n Hn. destruct (Nat.eq_dec n (calls w)) as [-> | Hne].
      * destruct Hans as (template & usage & raw & _ & _ & Hreply & _).
        do 5 eexists. exact Hreply.
      * apply Hanswered. lia.
    + destruct Hans as (template & usage & raw & _ & _ & _ & _ & _ & _ & Hv).
      destruct valid; simpl in Hnew.
      * exists (parsed :: new). rewrite Hnew, <- app_assoc.
        repeat split; [constructor; assumption | simpl; lia].
      * exists new. repeat split; [assumption .. | simpl; lia].
Qed.


End Jury.

(** ** Changing one reply *)

Lemma bind_ext_at {A B} (m m' : M A) (k k' : A -> M B) w :
  m w = m' w ->
  (forall a w1, m' w = (Return a, w1) -> k a w1 = k' a w1) ->
  bind m k w = bind m' k' w.
Proof.
  intros Hm Hk. unfold bind. rewrite Hm.
  destruct (m' w) as [[a | e | ] w1]; [apply Hk | |]; reflexivity.
Qed.

Section Replies.

Variable env : Env.
Variable idx : nat.
Variable r : reply.

Let env' := with_reply env idx r.

Lemma jury_step_with_reply topic conditions ha hb blind cfg st w :
  calls w <> idx ->
  jury_step env' topic conditions ha hb blind cfg st w
  = jury_step env topic conditions ha hb blind cfg st w.
Proof.
  intros Hidx. apply Nat.eqb_neq in Hidx.
  unfold jury_step. apply bind_ext_at; [| reflexivity].
  unfold run_jury_evaluation.
  apply bind_ext_at; [reflexivity | intros template w1 H1].
  apply load_prompt_inv in H1. destruct H1 as [_ ->].
  apply bind_ext_at; [reflexivity | intros u0 w2 H2].
  apply log_inv in H2. subst.
  destruct blind; cbv iota beta zeta;
    (apply bind_ext_at; [reflexivity | intros prompt w3 H3]);
    apply lift_Return_inv in H3; destruct H3 as [_ ->];
    (apply bind_ext_at; [| reflexivity]);
    unfold call_model, env'; simpl; rewrite Hidx; reflexivity.
Qed.

Lemma debate_round_with_reply ca cb ma mb topic conditions i round_file st w :
  calls w <> idx -> S (calls w) <> idx ->
  debate_round env' ca cb ma mb topic conditions i round_file st w
  = debate_round env ca cb ma mb topic conditions i round_file st w.
Proof.
  intros H0 H1. unfold debate_round.
  apply bind_ext_at; [reflexivity | intros ta w1 E1].
  apply load_prompt_inv in E1. destruct E1 as [_ ->].
  apply bind_ext_at; [reflexivity | intros tb w2 E2].
  apply load_prompt_inv in E2. destruct E2 as [_ ->].
  apply bind_ext_at; [reflexivity | intros u0 w3 E3].
  apply log_inv in E3. subst.
  apply bind_ext_at;
    [apply debater_turn_with_reply; exact H0 | intros turn_a w4 E4].
  apply debater_turn_inv in E4.
  destruct E4 as (_ & _ & _ & _ & _ & _ & _ & _ & _ & Hcalls).
  simpl in Hcalls.
  apply bind_ext_at; [reflexivity | intros u1 w5 E5].
  inversion E5; subst; clear E5.
  apply bind_ext_at; [| reflexivity].
  apply debater_turn_with_reply. congruence.
Qed.

Lemma debate_rounds_with_reply ca cb ma mb topic conditions todo :
  forall st w,
    (calls w + 2 * List.length todo <= idx)%nat ->
    debate_rounds env' ca cb ma mb topic conditions todo st w
    = debate_rounds env ca cb ma mb topic conditions todo st w.
Proof.
  induction todo as [| [i round_file] todo IH]; intros st w Hidx.
  - reflexivity.
  - simpl in Hidx. simpl debate_rounds.
    apply bind_ext_at;
      [apply debate_round_with_reply; lia | intros st1 w1 E].
    apply debate_round_inv in E.
    destruct E as (? & ? & ? & ? & ? & ? & _ & _ & _ & _ & _ & _ & _ & _ & _
                   & _ & Hcalls).
    apply IH. lia.
Qed.


End Replies.

(** ** The run *)

Section Run.

Variable env : Env.
Variables client_a client_b : Client.
Variable judge_configs : list JudgeConfig.
Variables model_a model_b topic conditions : string.
Variable blind_jury : bool.

Let debate_and_jury' :=
  debate_and_jury env client_a client_b judge_configs model_a model_b topic
    conditions blind_jury.
Let run_debate' :=
  run_debate env client_a client_b judge_configs model_a model_b topic
    conditions blind_jury.

Lemma calls_started w :
  calls (started topic model_a model_b judge_configs w) = calls w.
Proof. reflexivity. Qed.

Lemma debate_and_jury_unfold w system_prompt :
  prompt_file env "system.txt" = Some system_prompt ->
  debate_and_jury' w
  = (st <- debate_rounds env client_a client_b model_a model_b topic
             conditions (enumerate 1 rounds) (initial_state system_prompt) ;;
     js <- jury_loop env topic conditions (history_a st) (history_b st)
             blind_jury judge_configs
             {| j_totals := totals st; jury_results := [];
                jury_parsed_list := [] |} ;;
     ret (clock env (ticks w), st, js)) (started topic model_a model_b judge_configs w).
Proof.
  intros Hsp. unfold debate_and_jury', debate_and_jury.
  unfold bind at 1. unfold time_time at 1.
  unfold bind at 1. unfold log at 1.
  unfold bind at 1. unfold log at 1.
  unfold bind at 1. unfold load_prompt. rewrite Hsp. reflexivity.
Qed.

Lemma debate_and_jury_inv w t0 st js w1 :
  debate_and_jury' w = (Return (t0, st, js), w1) ->
  exists system_prompt wb,
    prompt_file env "system.txt" = Some system_prompt
    /\ t0 = clock env (ticks w)
    /\ debate_rounds env client_a client_b model_a model_b topic conditions
         (enumerate 1 rounds) (initial_state system_prompt) (started topic model_a model_b judge_configs w)
       = (Return st, wb)
    /\ jury_loop env topic conditions (history_a st) (history_b st) blind_jury
         judge_configs
         {| j_totals := totals st; jury_results := [];
            jury_parsed_list := [] |} wb
       = (Return js, w1).
Proof.
  intros H.
  destruct (prompt_file env "system.txt") as [sp |] eqn:Hsp.
  - rewrite (debate_and_jury_unfold _ _ Hsp) in H.
    inv_bind H as st' wb Hrounds.
    inv_bind H as js' w2 Hjury.
    inversion H; subst; clear H.
    exists sp, wb. repeat split; assumption.
  - unfold debate_and_jury', debate_and_jury in H.
    inv_bind H as t w2 H1. inv_bind H as u1 w3 H2. inv_bind H as u2 w4 H3.
    inv_bind H as sp w5 H4. apply load_prompt_inv in H4.
    destruct H4 as [Hsome _]. congruence.
Qed.

(** Once the rounds and the jury are through, the run always ends by
    appending one record to the store. *)
Lemma run_debate_returns w t0 st js w1 :
  debate_and_jury' w = (Return (t0, st, js), w1) ->
  exists w' uid duration,
    run_debate' w = (Return tt, w')
    /\ store w'
       = (store w ++ [build_record uid judge_configs model_a model_b topic
                        conditions st js duration])%list.
Proof.
  intros H. unfold run_debate', run_debate.
  erewrite bind_Return by exact H.
  apply safe_debate_and_jury in H. destruct H as (Hstore & _).
  unfold bind, time_time, unique_id, generate, save_jsonl, log, ret. simpl.
  do 3 eexists. split; [reflexivity |]. simpl. rewrite Hstore. reflexivity.
Qed.

Lemma run_debate_Return_inv w w' :
  run_debate' w = (Return tt, w') ->
  exists t0 st js w1 uid duration,
    debate_and_jury' w = (Return (t0, st, js), w1)
    /\ store w'
       = (store w ++ [build_record uid judge_configs model_a model_b topic
                        conditions st js duration])%list.
Proof.
  intros H. unfold run_debate', run_debate in H.
  inv_bind H as r w1 Hdj. destruct r as [[t0 st] js].
  destruct (run_debate_returns _ _ _ _ _ Hdj) as (w2 & uid & duration & Hrun & Hs).
  unfold run_debate', run_debate in Hrun.
  erewrite bind_Return in Hrun by exact Hdj.
  pose proof (eq_trans (eq_sym H) Hrun) as Heq. inversion Heq; subst.
  exists t0, st, js, w1, uid, duration. split; [exact Hdj | exact Hs].
Qed.

(** An exception in the rounds or in the jury leaves the run as it is, and
    the store is as before. *)
Lemma run_debate_raises w e w1 :
  debate_and_jury' w = (Raise e, w1) ->
  run_debate' w = (Raise e, w1) /\ store w1 = store w.
Proof.
  intros H. split.
  - unfold run_debate', run_debate. apply bind_Raise. exact H.
  - apply safe_debate_and_jury in H. apply H.
Qed.

(** A run ends with an exception and the store untouched, or returns with
    one more record in the store. *)
Lemma run_debate_outcome w :
  (exists e w', run_debate' w = (Raise e, w') /\ store w' = store w)
  \/ (exists w' rec,
        run_debate' w = (Return tt, w')
        /\ store w' = (store w ++ [rec])%list).
Proof.
  destruct (debate_and_jury' w) as [[[[t0 st] js] | e | ] w1] eqn:E.
  - right. destruct (run_debate_returns _ _ _ _ _ E) as (w' & uid & d & Hr & Hs).
    exists w'. eexists. split; [exact Hr | exact Hs].
  - left. exists e, w1. apply run_debate_raises. exact E.
  - apply safe_debate_and_jury in E. destruct E as (_ & _ & Hd).
    contradiction Hd. reflexivity.
Qed.

End Run.

(** A run that gets through the rounds and the jury has had every one of its
    requests answered: eight by the debaters, then one per judge. *)
Lemma debate_and_jury_answered env ca cb cfgs ma mb topic conditions blind
    w t0 st js w1 :
  debate_and_jury env ca cb cfgs ma mb topic conditions blind w
  = (Return (t0, st, js), w1) ->
  forall k, (k < 8 + List.length cfgs)%nat -> answered env (calls w + k).
Proof.
  intros H k Hk. apply debate_and_jury_inv in H.
  destruct H as (sp & wb & _ & _ & Hrounds & Hjury).
  apply debate_rounds_inv in Hrounds.
  destruct Hrounds as (ras & rbs & entries & _ & _ & _ & _ & _ & _ & Hcalls
                       & Hans & _).
  apply jury_loop_inv in Hjury. destruct Hjury as (Hcalls' & Hans' & _).
  rewrite calls_started in Hcalls, Hans. simpl in Hcalls.
  destruct (Nat.lt_ge_cases k 8) as [Hlt | Hge].
  - apply Hans. lia.
  - apply Hans'. lia.
Qed.

(** ** C1: a failing backend call *)

(** The end of [run_debate] makes no request. *)
Lemma run_debate_calls env ca cb cfgs ma mb topic conditions blind w :
  calls (snd (run_debate env ca cb cfgs ma mb topic conditions blind w))
  = calls (snd (debate_and_jury env ca cb cfgs ma mb topic conditions blind w)).
Proof.
  unfold run_debate. unfold bind at 1.
  destruct (debate_and_jury env ca cb cfgs ma mb topic conditions blind w)
    as [[[[t0 st] js] | e | ] w1]; reflexivity.
Qed.

Section FailingRequest.

Variable env : Env.
Variable n : nat.
Variable e : exn.
Hypothesis Hfail :
  forall client model messages,
    backend env n client model messages = Failure e.

Lemma stops_at_quiet {A} (m : M A) :
  (forall w r w', m w = (r, w') -> calls w' = calls w) ->
  stops_at n e m.
Proof. intros Hm w r w' H Hle Hlt. rewrite (Hm _ _ _ H) in Hlt. lia. Qed.

Lemma stops_at_ret {A} (a : A) : stops_at n e (ret a).
Proof. apply stops_at_quiet. intros w r w' H. inversion H. reflexivity. Qed.

Lemma stops_at_lift {A} (o : outcome A) : stops_at n e (lift o).
Proof. apply stops_at_quiet. intros w r w' H. inversion H. reflexivity. Qed.

Lemma stops_at_log message : stops_at n e (log message).
Proof. apply stops_at_quiet. intros w r w' H. inversion H. reflexivity. Qed.

Lemma stops_at_time_time : stops_at n e (time_time env).
Proof. apply stops_at_quiet. intros w r w' H. inversion H. reflexivity. Qed.

Lemma stops_at_load_prompt name : stops_at n e (load_prompt env name).
Proof.
  apply stops_at_quiet. intros w r w' H. unfold load_prompt in H.
  destruct (prompt_file env name); inversion H; reflexivity.
Qed.

(** The request itself: it is request [n] exactly when the counter stands
    at [n], and then it fails with [e]. *)
Lemma stops_at_call_model client model messages :
  stops_at n e (call_model env client model messages).
Proof.
  intros w r w' H Hle Hlt. unfold call_model in H.
  assert (Hn : calls w = n).
  { destruct (backend env (calls w) client model messages);
      inversion H; subst; simpl in Hlt; lia. }
  rewrite Hn, Hfail in H. inversion H; subst. simpl. split; [reflexivity | lia].
Qed.

Lemma stops_at_bind {A B} (m : M A) (k : A -> M B) :
  stops_at n e m -> (forall a, stops_at n e (k a)) -> stops_at n e (bind m k).
Proof.
  intros Hm Hk w r w' H Hle Hlt. unfold bind in H.
  destruct (m w) as [[a | e1 | ] w1] eqn:E.
  - destruct (Nat.le_gt_cases (calls w1) n) as [Hle1 | Hlt1].
    + exact (Hk a _ _ _ H Hle1 Hlt).
    + destruct (Hm _ _ _ E Hle Hlt1) as [Hr _]. discriminate.
  - inversion H; subst. destruct (Hm _ _ _ E Hle Hlt) as [He Hn].
    split; [congruence | exact Hn].
  - inversion H; subst. destruct (Hm _ _ _ E Hle Hlt) as [He _].
    discriminate.
Qed.

Lemma stops_at_debater_turn i side client model template topic conditions
    messages opponent_history opponent_label :
  stops_at n e
    (debater_turn env i side client model template topic conditions messages
       opponent_history opponent_label).
Proof.
  unfold debater_turn.
  apply stops_at_bind; [apply stops_at_lift | intros prompt].
  apply stops_at_bind; [apply stops_at_log | intros u1].
  apply stops_at_bind; [apply stops_at_time_time | intros t1].
  apply stops_at_bind; [apply stops_at_call_model | intros res].
  apply stops_at_bind; [apply stops_at_time_time | intros t2].
  apply stops_at_bind; [apply stops_at_log | intros u2].
  apply stops_at_bind; [apply stops_at_lift | intros u].
  apply stops_at_ret.
Qed.

Lemma stops_at_debate_round ca cb ma mb topic conditions i round_file st :
  stops_at n e
    (debate_round env ca cb ma mb topic conditions i round_file st).
Proof.
  unfold debate_round, sleep.
  apply stops_at_bind; [apply stops_at_load_prompt | intros ta].
  apply stops_at_bind; [apply stops_at_load_prompt | intros tb].
  apply stops_at_bind; [apply stops_at_log | intros u1].
  apply stops_at_bind; [apply stops_at_debater_turn | intros turn_a].
  apply stops_at_bind; [apply stops_at_ret | intros u2].
  apply stops_at_bind; [apply stops_at_debater_turn | intros turn_b].
  apply stops_at_bind; [apply stops_at_ret | intros u3].
  apply stops_at_ret.
Qed.

Lemma stops_at_debate_rounds ca cb ma mb topic conditions todo :
  forall st,
    stops_at n e (debate_rounds env ca cb ma mb topic conditions todo st).
Proof.
  induction todo as [| [i round_file] todo IH]; intros st; simpl debate_rounds.
  - apply stops_at_ret.
  - apply stops_at_bind; [apply stops_at_debate_round | intros st'; apply IH].
Qed.

Lemma stops_at_jury_step topic conditions ha hb blind cfg st :
  stops_at n e (jury_step env topic conditions ha hb blind cfg st).
Proof.
  unfold jury_step.
  apply stops_at_bind.
  - unfold run_jury_evaluation.
    apply stops_at_bind; [apply stops_at_load_prompt | intros template].
    apply stops_at_bind; [apply stops_at_log | intros u1].
    destruct blind; cbv iota beta zeta;
      (apply stops_at_bind; [apply stops_at_lift | intros prompt]);
      (apply stops_at_bind; [apply stops_at_call_model | intros res]);
      apply stops_at_ret.
  - intros jr.
    apply stops_at_bind; [apply stops_at_lift | intros u].
    apply stops_at_bind; [apply stops_at_lift | intros raw].
    apply stops_at_bind; [apply stops_at_lift | intros parsed].
    apply stops_at_bind; [apply stops_at_lift | intros valid].
    destruct (negb valid); [| apply stops_at_ret].
    apply stops_at_bind; [apply stops_at_log | intros u2].
    apply stops_at_ret.
Qed.

Lemma stops_at_jury_loop topic conditions ha hb blind cfgs :
  forall st,
    stops_at n e (jury_loop env topic conditions ha hb blind cfgs st).
Proof.
  induction cfgs as [| cfg cfgs IH]; intros st; simpl jury_loop.
  - apply stops_at_ret.
  - apply stops_at_bind; [apply stops_at_jury_step | intros st'; apply IH].
Qed.

Lemma stops_at_debate_and_jury ca cb cfgs ma mb topic conditions blind :
  stops_at n e (debate_and_jury env ca cb cfgs ma mb topic conditions blind).
Proof.
  unfold debate_and_jury.
  apply stops_at_bind; [apply stops_at_time_time | intros t0].
  apply stops_at_bind; [apply stops_at_log | intros u1].
  apply stops_at_bind; [apply stops_at_log | intros u2].
  apply stops_at_bind; [apply stops_at_load_prompt | intros sp].
  apply stops_at_bind; [apply stops_at_debate_rounds | intros st].
  apply stops_at_bind; [apply stops_at_jury_loop | intros js].
  apply stops_at_ret.
Qed.

(** The same for the whole run: after the rounds and the jury no request is
    made, so a run that made request [n] ended there, with [e]. *)
Lemma stops_at_run_debate ca cb cfgs ma mb topic conditions blind :
  stops_at n e (run_debate env ca cb cfgs ma mb topic conditions blind).
Proof.
  intros w r w' Hrun Hle Hlt.
  pose proof (run_debate_calls env ca cb cfgs ma mb topic conditions blind w)
    as Hcalls.
  rewrite Hrun in Hcalls. cbn [snd] in Hcalls.
  destruct (debate_and_jury env ca cb cfgs ma mb topic conditions blind w)
    as [r1 w1] eqn:E.
  cbn [snd] in Hcalls. rewrite Hcalls in Hlt.
  destruct (stops_at_debate_and_jury _ _ _ _ _ _ _ _ _ _ _ E Hle Hlt)
    as [-> Hn].
  unfold run_debate in Hrun. erewrite bind_Raise in Hrun by exact E.
  inversion Hrun; subst. split; [reflexivity | exact Hn].
Qed.

End FailingRequest.

(** C1, as amended.  If the backend fails on any request of the run, the
    request of a debater (one of the first eight) or the request of a judge
    (one of those after), the run ends with an exception and the store is as
    it was: no record is persisted.  Nothing in [run_debate] catches the
    failure: when the failing request is made, the exception of the run is
    the failure itself, and no request follows it.  (The request is not
    made only when something before it has raised.) *)
Theorem backend_failure_aborts_the_run :
  forall env client_a client_b judge_configs model_a model_b topic conditions
         blind_jury w k e,
    (k < 8 + List.length judge_configs)%nat ->
    (forall client model messages,
        backend env (calls w + k) client model messages = Failure e) ->
    exists e' w',
      run_debate env client_a client_b judge_configs model_a model_b topic
        conditions blind_jury w = (Raise e', w')
      /\ store w' = store w
      /\ ((calls w + k < calls w')%nat ->
          e' = e /\ calls w' = S (calls w + k)).
Proof.
  intros env ca cb cfgs ma mb topic conditions blind w k e Hk Hfail.
  destruct (run_debate_outcome env ca cb cfgs ma mb topic conditions blind w)
    as [(e' & w' & Hrun & Hstore) | (w' & rec & Hrun & _)].
  - exists e', w'. split; [exact Hrun |]. split; [exact Hstore |].
    intros Hreached.
    destruct (stops_at_run_debate env (calls w + k) e Hfail ca cb cfgs ma mb
                topic conditions blind w _ _ Hrun ltac:(lia) Hreached)
      as [He Hcalls].
    split; [congruence | exact Hcalls].
  - exfalso.
    apply run_debate_Return_inv in Hrun.
    destruct Hrun as (t0 & st & js & w1 & _ & _ & Hdj & _).
    destruct (debate_and_jury_answered _ _ _ _ _ _ _ _ _ _ _ _ _ _ Hdj k Hk)
      as (client & model & messages & text & usage & Hreply).
    rewrite Hfail in Hreply. discriminate.
Qed.

(** The request of the only judge fails after eight answered debater
    requests: the run raises and the store stays empty. *)
Lemma backend_failure_aborts_the_run_witness :
  exists e' w',
    run_debate (Scenario.env [Failure BackendError]) Scenario.client
      Scenario.client [Scenario.judge "judge0"] "model-a" "model-b" "X" ""
      false Scenario.w0 = (Raise e', w')
    /\ store w' = store Scenario.w0
    /\ ((calls Scenario.w0 + 8 < calls w')%nat ->
        e' = BackendError /\ calls w' = S (calls Scenario.w0 + 8)).
Proof.
  apply (backend_failure_aborts_the_run
           (Scenario.env [Failure BackendError]) Scenario.client
           Scenario.client [Scenario.judge "judge0"] "model-a" "model-b" "X"
           "" false Scenario.w0 8 BackendError).
  - simpl. lia.
  - intros client model messages. reflexivity.
Defined.

(** C1, as stated, fails: with all eight debater requests answered and the
    request of the single judge failing, the failure is not caught; the run
    ends with [BackendError] after nine requests and the store is empty. *)
Lemma judge_failure_is_not_caught :
  let run := Scenario.run [Failure BackendError] false in
  fst run = Raise BackendError
  /\ calls (snd run) = 9%nat
  /\ store (snd run) = [].
Proof. vm_compute. repeat split. Qed.

(** ** C8: the rounds of the record *)

(** C8.  The record of a run that returns holds exactly eight round entries,
    tagged with the round ids 1 to 4 and the sides A and B, round by round
    and A before B. *)
Theorem record_rounds_are_round_major :
  forall env client_a client_b judge_configs model_a model_b topic conditions
         blind_jury w w',
    run_debate env client_a client_b judge_configs model_a model_b topic
      conditions blind_jury w = (Return tt, w') ->
    exists rec,
      store w' = (store w ++ [rec])%list
      /\ List.length (rec_rounds rec) = 8%nat
      /\ round_tags (rec_rounds rec)
         = [ (1, "A"); (1, "B"); (2, "A"); (2, "B");
             (3, "A"); (3, "B"); (4, "A"); (4, "B") ].
Proof.
  intros env ca cb cfgs ma mb topic conditions blind w w' Hrun.
  apply run_debate_Return_inv in Hrun.
  destruct Hrun as (t0 & st & js & w1 & uid & duration & Hdj & Hstore).
  eexists. split; [exact Hstore |]. simpl.
  apply debate_and_jury_inv in Hdj.
  destruct Hdj as (sp & wb & _ & _ & Hrounds & _).
  apply debate_rounds_inv in Hrounds.
  destruct Hrounds as (ras & rbs & entries & _ & _ & Hlog & _ & _ & Htags & _).
  simpl in Hlog, Htags. rewrite Hlog.
  split; [| exact Htags].
  apply (f_equal (@List.length _)) in Htags.
  unfold round_tags in Htags. rewrite length_map in Htags. exact Htags.
Qed.

Lemma record_rounds_are_round_major_witness :
  exists rec,
    store (snd (Scenario.run [] false)) = (store Scenario.w0 ++ [rec])%list
    /\ List.length (rec_rounds rec) = 8%nat
    /\ round_tags (rec_rounds rec)
       = [ (1, "A"); (1, "B"); (2, "A"); (2, "B");
           (3, "A"); (3, "B"); (4, "A"); (4, "B") ].
Proof.
  apply (record_rounds_are_round_major
           (Scenario.env []) Scenario.client Scenario.client [] "model-a"
           "model-b" "X" "" false Scenario.w0
           (snd (Scenario.run [] false))).
  vm_compute. reflexivity.
Defined.

(** ** C10: an absent usage payload *)

(** The usage columns of a round entry. *)
Lemma debater_turn_entry_usage env i side client model template topic
    conditions messages opponent_history opponent_label w t w' :
  debater_turn env i side client model template topic conditions messages
    opponent_history opponent_label w = (Return t, w') ->
  (re_cost (t_entry t), re_completion_tokens (t_entry t),
   re_prompt_tokens (t_entry t), re_total_tokens (t_entry t),
   re_reasoning (t_entry t), re_reasoning_tokens (t_entry t))
  = (u_cost (t_usage t), u_completion_tokens (t_usage t),
     u_prompt_tokens (t_usage t), u_total_tokens (t_usage t),
     u_reasoning (t_usage t), u_reasoning_tokens (t_usage t)).
Proof.
  unfold debater_turn. intros H.
  inv_bind H as prompt w1 H1. inv_bind H as u1 w2 H2.
  inv_bind H as t1 w3 H3. inv_bind H as res w4 H4.
  inv_bind H as t2 w5 H5. inv_bind H as u2 w6 H6.
  inv_bind H as u w7 H7.
  inversion H; subst; clear H. reflexivity.
Qed.

(** C10.  Reading the usage fields of an absent payload ([None], or an empty
    dict) returns the all-zero tuple and does not raise.  This holds at both
    places the payload is read: a debater's turn whose result carries no
    usage logs an all-zero entry, and a judge whose answer carries no usage
    adds the all-zero tuple to the totals. *)
Theorem absent_usage_reads_as_zero :
  (forall env,
      extract_usage_fields env None = Return zero_usage
      /\ extract_usage_fields env (Some []) = Return zero_usage)
  /\ (u_cost zero_usage, u_completion_tokens zero_usage,
      u_prompt_tokens zero_usage, u_total_tokens zero_usage,
      u_reasoning zero_usage, u_reasoning_tokens zero_usage)
     = (0%float, 0, 0, 0, "", 0)
  /\ (forall env i side client model template topic conditions messages
             opponent_history opponent_label w t w',
         debater_turn env i side client model template topic conditions
           messages opponent_history opponent_label w = (Return t, w') ->
         res_usage (t_result t) = None ->
         (re_cost (t_entry t), re_completion_tokens (t_entry t),
          re_prompt_tokens (t_entry t), re_total_tokens (t_entry t),
          re_reasoning (t_entry t), re_reasoning_tokens (t_entry t))
         = (0%float, 0, 0, 0, "", 0))
  /\ (forall env topic conditions ha hb blind cfg st w st' w' text,
         (forall client model messages,
             backend env (calls w) client model messages
             = Completion text None) ->
         jury_step env topic conditions ha hb blind cfg st w
         = (Return st', w') ->
         j_totals st' = add_usage (j_totals st) zero_usage).
Proof.
  split; [intros env; split; reflexivity |].
  split; [reflexivity |].
  split.
  - intros env i side client model template topic conditions messages
      opponent_history opponent_label w t w' H Hnone.
    rewrite (debater_turn_entry_usage _ _ _ _ _ _ _ _ _ _ _ _ _ _ H).
    apply debater_turn_inv in H.
    destruct H as (text & usage & _ & _ & Hres & Hu & _).
    rewrite Hres in Hnone. simpl in Hnone. subst usage.
    simpl in Hu. inversion Hu. reflexivity.
  - intros env topic conditions ha hb blind cfg st w st' w' text Hreply H.
    apply jury_step_inv in H.
    destruct H as (prompt & text' & u & parsed & valid & Hans & -> & _).
    destruct Hans as (template & usage & raw & _ & _ & Hr & Hu & _).
    rewrite Hreply in Hr. inversion Hr; subst.
    simpl in Hu. inversion Hu. reflexivity.
Qed.

(** The first turn of the scenario: the reply has no usage. *)
Lemma absent_usage_reads_as_zero_witness :
  exists t w',
    debater_turn (Scenario.env []) 1 "A" Scenario.client "model-a"
      Scenario.template "X" "" [] [] "MODEL_B" Scenario.w0 = (Return t, w')
    /\ (re_cost (t_entry t), re_completion_tokens (t_entry t),
        re_prompt_tokens (t_entry t), re_total_tokens (t_entry t),
        re_reasoning (t_entry t), re_reasoning_tokens (t_entry t))
       = (0%float, 0, 0, 0, "", 0).
Proof.
  eexists. eexists. split.
  - vm_compute. reflexivity.
  - eapply (proj1 (proj2 (proj2 absent_usage_reads_as_zero))
              (Scenario.env []) 1 "A" Scenario.client "model-a"
              Scenario.template "X" "" [] [] "MODEL_B" Scenario.w0).
    + vm_compute. reflexivity.
    + reflexivity.
Defined.

(** ** C6: no valid verdict *)



(** ** The validity check *)

Lemma eq_str_true_iff v s : eq_str v s = true <-> v = VStr s.
Proof.
  destruct v; simpl; split; intros H; try discriminate.
  - apply String.eqb_eq in H. congruence.
  - inversion H. apply String.eqb_refl.
Qed.

(** [is_valid_jury] accepts a verdict exactly when its winner is the string
    ["Side A"] or ["Side B"] and both totals are there. *)
Lemma is_valid_jury_true_iff parsed :
  is_valid_jury parsed = Return true
  <-> (get "winner" parsed = VStr "Side A"
       \/ get "winner" parsed = VStr "Side B")
      /\ is_not_none (get "total_score_A" parsed) = true
      /\ is_not_none (get "total_score_B" parsed) = true.
Proof.
  unfold is_valid_jury. split.
  - destruct parsed as [| kv parsed]; [discriminate |].
    set (winner := get "winner" (kv :: parsed)).
    set (ta := get "total_score_A" (kv :: parsed)).
    set (tb := get "total_score_B" (kv :: parsed)).
    destruct (hashable winner); cbn [negb]; [| discriminate].
    destruct (eq_str winner "Side A") eqn:Ea; cbn [orb negb].
    + intros H. injection H as Ht. apply andb_true_iff in Ht.
      split; [left; apply eq_str_true_iff; exact Ea | exact Ht].
    + destruct (eq_str winner "Side B") eqn:Eb; cbn [negb]; [| discriminate].
      intros H. injection H as Ht. apply andb_true_iff in Ht.
      split; [right; apply eq_str_true_iff; exact Eb | exact Ht].
  - intros (Hw & Ha & Hb).
    destruct parsed as [| kv parsed];
      [destruct Hw as [Hw | Hw]; discriminate |].
    destruct Hw as [Hw | Hw]; rewrite Hw, Ha, Hb; reflexivity.
Qed.

(** ** The aggregation *)

Lemma winners_of_cons v l :
  winners_of (v :: l)
  = if truthy (get "winner" v) then get "winner" v :: winners_of l
    else winners_of l.
Proof. reflexivity. Qed.

Lemma count_cons s v ws :
  count s (v :: ws) = ((if eq_str v s then 1 else 0) + count s ws)%nat.
Proof. unfold count. simpl. destruct (eq_str v s); reflexivity. Qed.

Lemma count_pos_exists s l :
  (0 < count s (winners_of l))%nat -> Exists (fun v => wins s v = true) l.
Proof.
  induction l as [| v l IH]; intros H.
  - cbv in H. lia.
  - rewrite winners_of_cons in H.
    destruct (truthy (get "winner" v)).
    + rewrite count_cons in H. destruct (eq_str (get "winner" v) s) eqn:E.
      * left. exact E.
      * right. apply IH. simpl in H. exact H.
    + right. apply IH. exact H.
Qed.

(** Among valid verdicts every winner counts for one side. *)
Lemma valid_verdicts_counts l :
  Forall (fun v => is_valid_jury v = Return true) l ->
  winners_of l = map (get "winner") l
  /\ (count "Side A" (winners_of l) + count "Side B" (winners_of l))%nat
     = List.length l.
Proof.
  induction 1 as [| v l Hv _ [IHw IHc]]; [split; reflexivity |].
  apply is_valid_jury_true_iff in Hv. destruct Hv as ([Hw | Hw] & _);
    rewrite winners_of_cons; cbn [map]; rewrite Hw; simpl truthy; cbv iota;
    rewrite !count_cons; simpl; (split; [rewrite IHw; reflexivity | lia]).
Qed.

(** The scan for the representative texts stops at the first verdict of the
    final winner. *)
Lemma representative_first final_winner l :
  Exists (fun v => wins final_winner v = true) l ->
  exists before v after,
    l = (before ++ v :: after)%list
    /\ Forall (fun x => wins final_winner x = false) before
    /\ wins final_winner v = true
    /\ representative final_winner l
       = (por (get_default "reasoning" (VStr "") v) (VStr ""),
          por (get_default "general" (VStr "") v) (VStr "")).
Proof.
  induction l as [| x l IH]; intros H; [inversion H |].
  destruct (wins final_winner x) eqn:E.
  - exists [], x, l. repeat split; [constructor | exact E |].
    simpl. unfold wins in E. rewrite E. reflexivity.
  - inversion H as [? ? Hx | ? ? Hl]; subst; [congruence |].
    destruct (IH Hl) as (before & v & after & -> & Hb & Hv & Hr).
    exists (x :: before), v, after.
    repeat split; [constructor; assumption | exact Hv |].
    simpl. unfold wins in E. rewrite E. exact Hr.
Qed.

(** With at least one valid verdict, some verdict has the final winner. *)
Lemma final_winner_has_a_verdict l :
  Forall (fun v => is_valid_jury v = Return true) l ->
  l <> [] ->
  Exists (fun v => wins (final_winner_of (winners_of l)) v = true) l.
Proof.
  intros Hvalid Hne.
  destruct (valid_verdicts_counts l Hvalid) as [Hw Hc].
  assert (Hlen : (0 < List.length l)%nat)
    by (destruct l; [contradiction | simpl; lia]).
  unfold final_winner_of.
  destruct (winners_of l) as [| w0 ws] eqn:Ews.
  - rewrite Hw in Ews. destruct l; [contradiction | discriminate].
  - rewrite <- Ews in *. simpl.
    destruct (count "Side B" (winners_of l) <=? count "Side A" (winners_of l))%nat
      eqn:E; apply count_pos_exists.
    + apply Nat.leb_le in E. lia.
    + apply Nat.leb_gt in E. lia.
Qed.

(** The record of a run that returns: its result is the aggregation of its
    verdicts, and its verdicts are valid. *)
Lemma run_debate_record env ca cb cfgs ma mb topic conditions blind w w' :
  run_debate env ca cb cfgs ma mb topic conditions blind w = (Return tt, w') ->
  exists rec,
    store w' = (store w ++ [rec])%list
    /\ rec_result rec = result_of (ev_parsed (rec_evaluation rec))
    /\ ev_winner_counts (rec_evaluation rec)
       = winner_counts_of (winners_of (ev_parsed (rec_evaluation rec)))
    /\ Forall (fun v => is_valid_jury v = Return true)
         (ev_parsed (rec_evaluation rec))
    /\ (List.length (ev_parsed (rec_evaluation rec)) <= List.length cfgs)%nat.
Proof.
  intros Hrun. apply run_debate_Return_inv in Hrun.
  destruct Hrun as (t0 & st & js & w1 & uid & duration & Hdj & Hstore).
  eexists. split; [exact Hstore |]. simpl.
  split; [reflexivity |]. split; [reflexivity |].
  apply debate_and_jury_inv in Hdj.
  destruct Hdj as (sp & wb & _ & _ & _ & Hjury).
  apply jury_loop_inv in Hjury.
  destruct Hjury as (_ & _ & new & Hnew & Hvalid & Hlen).
  simpl in Hnew. rewrite Hnew. split; assumption.
Qed.

(** ** C3: the final winner *)

(** C3.  When some verdict carries a winner, the final winner is ["Side A"]
    if the verdicts for side A are at least as many as those for side B, and
    ["Side B"] otherwise; one verdict each way is a win for side A.  The
    record of a run that returns carries the final winner and the two counts
    of its own verdicts. *)
Theorem side_a_wins_ties :
  (forall l,
      winners_of l <> [] ->
      ((count "Side B" (winners_of l) <= count "Side A" (winners_of l))%nat ->
       r_winner (result_of l) = "Side A")
      /\ ((count "Side A" (winners_of l) < count "Side B" (winners_of l))%nat ->
          r_winner (result_of l) = "Side B"))
  /\ (forall va vb,
         get "winner" va = VStr "Side A" ->
         get "winner" vb = VStr "Side B" ->
         r_winner (result_of [va; vb]) = "Side A")
  /\ (forall env client_a client_b judge_configs model_a model_b topic
             conditions blind_jury w w',
         run_debate env client_a client_b judge_configs model_a model_b topic
           conditions blind_jury w = (Return tt, w') ->
         exists rec,
           store w' = (store w ++ [rec])%list
           /\ r_winner (rec_result rec)
              = final_winner_of (winners_of (ev_parsed (rec_evaluation rec)))
           /\ ev_winner_counts (rec_evaluation rec)
              = {| side_a_count :=
                     count "Side A"
                       (winners_of (ev_parsed (rec_evaluation rec)));
                   side_b_count :=
                     count "Side B"
                       (winners_of (ev_parsed (rec_evaluation rec))) |}).
Proof.
  split; [| split].
  - intros l Hne. unfold result_of, final_winner_of. cbn [r_winner].
    destruct (winners_of l) as [| w0 ws] eqn:E; [contradiction |].
    cbn [winner_counts_of side_a_count side_b_count].
    split; intros H.
    + apply Nat.leb_le in H. rewrite H. reflexivity.
    + apply Nat.leb_gt in H. rewrite H. reflexivity.
  - intros va vb Ha Hb. unfold result_of, winners_of. cbn [map r_winner].
    rewrite Ha, Hb. reflexivity.
  - intros env ca cb cfgs ma mb topic conditions blind w w' Hrun.
    destruct (run_debate_record _ _ _ _ _ _ _ _ _ _ _ Hrun)
      as (rec & Hstore & Hres & Hcounts & _).
    exists rec. split; [exact Hstore |].
    rewrite Hres, Hcounts. split; reflexivity.
Qed.

(** Two judges, one verdict each way, no blinding. *)
Lemma side_a_wins_ties_witness :
  exists rec,
    store (snd (Scenario.run
                  [ Completion (Some (Scenario.verdict_text "Side A")) None;
                    Completion (Some (Scenario.verdict_text "Side B")) None ]
                  false))
    = (store Scenario.w0 ++ [rec])%list
    /\ r_winner (rec_result rec)
       = final_winner_of (winners_of (ev_parsed (rec_evaluation rec)))
    /\ ev_winner_counts (rec_evaluation rec)
       = {| side_a_count :=
              count "Side A" (winners_of (ev_parsed (rec_evaluation rec)));
            side_b_count :=
              count "Side B" (winners_of (ev_parsed (rec_evaluation rec))) |}.
Proof.
  apply (proj2 (proj2 side_a_wins_ties)
           (Scenario.env
              [ Completion (Some (Scenario.verdict_text "Side A")) None;
                Completion (Some (Scenario.verdict_text "Side B")) None ])
           Scenario.client Scenario.client
           [Scenario.judge "judge0"; Scenario.judge "judge1"]
           "model-a" "model-b" "X" "" false Scenario.w0).
  vm_compute. reflexivity.
Defined.

(** ** C4: the representative texts *)

(** C4.  In the record of a run that returns with at least one valid
    verdict, the winning reason and the general summary are those of the
    first verdict, in the order of the judges, whose winner is the final
    winner: no verdict before it has that winner, and the verdicts after it
    are not looked at.  A text that is missing or empty reads as the empty
    string. *)
Theorem representative_texts_come_from_first_match :
  forall env client_a client_b judge_configs model_a model_b topic conditions
         blind_jury w w',
    run_debate env client_a client_b judge_configs model_a model_b topic
      conditions blind_jury w = (Return tt, w') ->
    exists rec,
      store w' = (store w ++ [rec])%list
      /\ (ev_parsed (rec_evaluation rec) <> [] ->
          exists before v after,
            ev_parsed (rec_evaluation rec) = (before ++ v :: after)%list
            /\ Forall (fun x => wins (r_winner (rec_result rec)) x = false)
                 before
            /\ get "winner" v = VStr (r_winner (rec_result rec))
            /\ r_winning_reason (rec_result rec)
               = por (get_default "reasoning" (VStr "") v) (VStr "")
            /\ r_general (rec_result rec)
               = por (get_default "general" (VStr "") v) (VStr "")).
Proof.
  intros env ca cb cfgs ma mb topic conditions blind w w' Hrun.
  destruct (run_debate_record _ _ _ _ _ _ _ _ _ _ _ Hrun)
    as (rec & Hstore & Hres & _ & Hvalid & _).
  exists rec. split; [exact Hstore |]. intros Hne.
  destruct (representative_first _ _
              (final_winner_has_a_verdict _ Hvalid Hne))
    as (before & v & after & Hsplit & Hbefore & Hv & Hrep).
  exists before, v, after. rewrite Hres. unfold result_of.
  cbn [r_winner r_winning_reason r_general]. rewrite Hrep.
  repeat split; try assumption.
  apply eq_str_true_iff. exact Hv.
Qed.

(** Three judges: two verdicts for side A, then one for side B. *)
Lemma representative_texts_come_from_first_match_witness :
  exists rec,
    store (snd (Scenario.run
                  [ Completion (Some (Scenario.verdict_text "Side A")) None;
                    Completion (Some (Scenario.verdict_text "Side A")) None;
                    Completion (Some (Scenario.verdict_text "Side B")) None ]
                  false))
    = (store Scenario.w0 ++ [rec])%list
    /\ (ev_parsed (rec_evaluation rec) <> [] ->
        exists before v after,
          ev_parsed (rec_evaluation rec) = (before ++ v :: after)%list
          /\ Forall (fun x => wins (r_winner (rec_result rec)) x = false)
               before
          /\ get "winner" v = VStr (r_winner (rec_result rec))
          /\ r_winning_reason (rec_result rec)
             = por (get_default "reasoning" (VStr "") v) (VStr "")
          /\ r_general (rec_result rec)
             = por (get_default "general" (VStr "") v) (VStr "")).
Proof.
  apply (representative_texts_come_from_first_match
           (Scenario.env
              [ Completion (Some (Scenario.verdict_text "Side A")) None;
                Completion (Some (Scenario.verdict_text "Side A")) None;
                Completion (Some (Scenario.verdict_text "Side B")) None ])
           Scenario.client Scenario.client
           [Scenario.judge "judge0"; Scenario.judge "judge1";
            Scenario.judge "judge2"]
           "model-a" "model-b" "X" "" false Scenario.w0).
  vm_compute. reflexivity.
Defined.

(** Two verdicts for side A with different reasons, then one for side B:
    the reason of the first is the one kept. *)
Example first_reason_is_kept :
  result_of
    [ [("winner", VStr "Side A"); ("reasoning", VStr "first")];
      [("winner", VStr "Side A"); ("reasoning", VStr "second")];
      [("winner", VStr "Side B"); ("reasoning", VStr "third")] ]
  = {| r_general := VStr ""; r_winner := "Side A";
       r_winning_reason := VStr "first" |}.
Proof. reflexivity. Qed.

(** ** C5: the validity check in the run *)

(** C5 at a failing input.  A judge answers with a verdict whose winner is a
    JSON array.  The winner is neither ["Side A"] nor ["Side B"], so the
    verdict fails the predicate of C5; but [is_valid_jury] does not return
    [False] on it: hashing the list raises [TypeError], nothing catches it,
    and the run ends without a record. *)
Theorem list_winner_aborts_the_run :
  let run :=
    Scenario.run [Completion (Some Scenario.list_winner_text) None] false in
  is_valid_jury Scenario.list_winner = Raise TypeError
  /\ fst run = Raise TypeError
  /\ store (snd run) = [].
Proof. vm_compute. repeat split. Qed.

(** A verdict of the same shape with a string that is not a side is dropped
    and the run goes on. *)
Example other_winner_is_dropped :
  is_valid_jury
    [("winner", VStr "Side C"); ("total_score_A", VInt 18);
     ("total_score_B", VInt 12)]
  = Return false.
Proof. reflexivity. Qed.

(** ** Dicts *)

Section DictFacts.

Context {V : Type}.

Lemma lookup_set_same (k : string) (v : V) (d : dict V) :
  Dict.lookup k (Dict.set k v d) = Some v.
Proof.
  induction d as [| [k' v'] d IH]; simpl.
  - rewrite String.eqb_refl. reflexivity.
  - destruct (String.eqb k k') eqn:E; simpl; rewrite E; [reflexivity | exact IH].
Qed.

Lemma lookup_set_other (k k' : string) (v : V) (d : dict V) :
  String.eqb k k' = false ->
  Dict.lookup k (Dict.set k' v d) = Dict.lookup k d.
Proof.
  intros Hne. induction d as [| [k0 v0] d IH]; simpl.
  - rewrite Hne. reflexivity.
  - destruct (String.eqb k' k0) eqn:E; simpl.
    + apply String.eqb_eq in E. subst k0. rewrite Hne. reflexivity.
    + destruct (String.eqb k k0); [reflexivity | exact IH].
Qed.

End DictFacts.

Lemma get_set_same k v d : get k (Dict.set k v d) = v.
Proof. unfold get. rewrite lookup_set_same. reflexivity. Qed.

Lemma get_set_other k k' v d :
  String.eqb k k' = false -> get k (Dict.set k' v d) = get k d.
Proof. intros H. unfold get. rewrite lookup_set_other by exact H. reflexivity. Qed.

Lemma get_default_of_get k default d v :
  get k d = v -> v <> VNone -> get_default k default d = v.
Proof.
  unfold get, get_default. destruct (Dict.lookup k d); intros H Hv;
    [exact H | congruence].
Qed.

(** ** De-blinding *)

(** A parsed response de-blinded under the swapped side map. *)
Lemma jury_parsed_of_blind d :
  jury_parsed_of (VDict d) blind_map
  = Return
      (normalize_jury_scores
         (Dict.set "winner"
            (remap_winner (get_default "winner" (VStr "") d) blind_map) d)
         blind_map).
Proof. reflexivity. Qed.

Lemma get_normalized_blind d :
  let n := normalize_jury_scores d blind_map in
  get "total_score_A" n = get "total_score_B" d
  /\ get "total_score_B" n = get "total_score_A" d
  /\ get "detailed_scores_A" n = get "detailed_scores_B" d
  /\ get "detailed_scores_B" n = get "detailed_scores_A" d
  /\ get "winner" n = get "winner" d
  /\ get "reasoning" n = get "reasoning" d
  /\ get "general" n = get "general" d.
Proof. repeat split. Qed.

(** What [run_jury_evaluation] returns under blinding: the swapped side map,
    and a prompt in which the transcript of side B stands for ["Side A"]. *)
Lemma run_jury_evaluation_blind env client judge_model topic conditions ha hb
    w jr w' :
  run_jury_evaluation env client judge_model topic conditions ha hb true w
  = (Return jr, w') ->
  jr_side_map jr = blind_map
  /\ exists template,
       prompt_file env "judge/judge_evaluation.txt" = Some template
       /\ render_prompt template
            [ ("TOPIC", Some topic);
              ("CONDITIONS", Some conditions);
              ("SIDE_A_TEXT", Some (merge_responses hb));
              ("SIDE_B_TEXT", Some (merge_responses ha)) ]
          = Return (jr_prompt jr).
Proof.
  unfold run_jury_evaluation. intros H.
  inv_bind H as template w1 H1. apply load_prompt_inv in H1.
  destruct H1 as [Htemplate ->].
  inv_bind H as u0 w2 H2. cbv iota beta zeta in H.
  inv_bind H as prompt w3 H3. apply lift_Return_inv in H3.
  destruct H3 as [Hrender ->].
  inv_bind H as res w4 H4.
  inversion H; subst; clear H. cbn [jr_side_map jr_prompt].
  split; [reflexivity |]. exists template. split; assumption.
Qed.

(** The verdict of the judge of a run with a single judge. *)
Lemma single_judge_verdict env ca cb cfg ma mb topic conditions blind w t0
    st js w1 text usage :
  debate_and_jury env ca cb [cfg] ma mb topic conditions blind w
  = (Return (t0, st, js), w1) ->
  (forall client model messages,
      backend env (calls w + 8) client model messages
      = Completion text usage) ->
  exists raw parsed valid,
    parse_jury_response env (content_or_empty text) = Return raw
    /\ jury_parsed_of raw (side_map_of blind) = Return parsed
    /\ is_valid_jury parsed = Return valid
    /\ jury_parsed_list js = if valid then [parsed] else [].
Proof.
  intros Hdj Hreply. apply debate_and_jury_inv in Hdj.
  destruct Hdj as (sp & wb & _ & _ & Hrounds & Hjury).
  apply debate_rounds_inv in Hrounds.
  destruct Hrounds as (ras & rbs & entries & _ & _ & _ & _ & _ & _ & Hcalls & _).
  rewrite calls_started in Hcalls. simpl in Hcalls.
  simpl in Hjury. inv_bind Hjury as st' w2 Hjudge.
  inversion Hjury; subst; clear Hjury.
  apply jury_step_inv in Hjudge.
  destruct Hjudge as (prompt & text' & u & parsed & valid & Hans & -> & _).
  destruct Hans as (template & usage' & raw & _ & _ & Hr & _ & Hraw & Hparsed
                    & Hvalid).
  rewrite Hcalls, Hreply in Hr. inversion Hr; subst.
  exists raw, parsed, valid.
  split; [exact Hraw |]. split; [exact Hparsed |]. split; [exact Hvalid |].
  destruct valid; reflexivity.
Qed.

(** ** C2: de-blinding *)

(** C2.  Under blinding the side map is [{A: "B", B: "A"}] and the judge is
    shown the transcript of side B as "Side A".  De-blinding a parsed
    verdict turns the winner ["Side A"] into ["Side B"] and ["Side B"] into
    ["Side A"], swaps the two totals and the two detailed score tables, and
    keeps the reasoning and the general summary.  In a blind run with one
    judge whose answer parses to a verdict for "Side A" with both totals,
    the winner of the record is ["Side B"]. *)
Theorem deblinding_recovers_true_sides :
  (forall env client judge_model topic conditions ha hb w jr w',
      run_jury_evaluation env client judge_model topic conditions ha hb true w
      = (Return jr, w') ->
      jr_side_map jr = {| map_A := "B"; map_B := "A" |}
      /\ exists template,
           prompt_file env "judge/judge_evaluation.txt" = Some template
           /\ render_prompt template
                [ ("TOPIC", Some topic);
                  ("CONDITIONS", Some conditions);
                  ("SIDE_A_TEXT", Some (merge_responses hb));
                  ("SIDE_B_TEXT", Some (merge_responses ha)) ]
              = Return (jr_prompt jr))
  /\ (forall d,
         exists n,
           jury_parsed_of (VDict d) blind_map = Return n
           /\ (get "winner" d = VStr "Side A" -> get "winner" n = VStr "Side B")
           /\ (get "winner" d = VStr "Side B" -> get "winner" n = VStr "Side A")
           /\ get "total_score_A" n = get "total_score_B" d
           /\ get "total_score_B" n = get "total_score_A" d
           /\ get "detailed_scores_A" n = get "detailed_scores_B" d
           /\ get "detailed_scores_B" n = get "detailed_scores_A" d
           /\ get "reasoning" n = get "reasoning" d
           /\ get "general" n = get "general" d)
  /\ (forall env client_a client_b cfg model_a model_b topic conditions w w'
             text usage d,
         run_debate env client_a client_b [cfg] model_a model_b topic
           conditions true w = (Return tt, w') ->
         (forall client model messages,
             backend env (calls w + 8) client model messages
             = Completion text usage) ->
         parse_jury_response env (content_or_empty text) = Return (VDict d) ->
         get "winner" d = VStr "Side A" ->
         is_not_none (get "total_score_A" d) = true ->
         is_not_none (get "total_score_B" d) = true ->
         exists rec,
           store w' = (store w ++ [rec])%list
           /\ r_winner (rec_result rec) = "Side B"
           /\ ev_winner_counts (rec_evaluation rec)
              = {| side_a_count := 0; side_b_count := 1 |}).
Proof.
  assert (Hdeblind : forall d,
    exists n,
      jury_parsed_of (VDict d) blind_map = Return n
      /\ (get "winner" d = VStr "Side A" -> get "winner" n = VStr "Side B")
      /\ (get "winner" d = VStr "Side B" -> get "winner" n = VStr "Side A")
      /\ get "total_score_A" n = get "total_score_B" d
      /\ get "total_score_B" n = get "total_score_A" d
      /\ get "detailed_scores_A" n = get "detailed_scores_B" d
      /\ get "detailed_scores_B" n = get "detailed_scores_A" d
      /\ get "reasoning" n = get "reasoning" d
      /\ get "general" n = get "general" d).
  { intros d. eexists. split; [apply jury_parsed_of_blind |].
    destruct (get_normalized_blind
                (Dict.set "winner"
                   (remap_winner (get_default "winner" (VStr "") d) blind_map)
                   d))
      as (Hta & Htb & Hda & Hdb & Hw & Hr & Hg).
    rewrite Hta, Htb, Hda, Hdb, Hw, Hr, Hg.
    rewrite get_set_same, !get_set_other by reflexivity.
    repeat split; intros Hwinner;
      rewrite (get_default_of_get _ _ _ _ Hwinner) by discriminate;
      reflexivity. }
  split; [| split; [exact Hdeblind |]].
  - intros env client judge_model topic conditions ha hb w jr w' H.
    apply run_jury_evaluation_blind in H. exact H.
  - intros env ca cb cfg ma mb topic conditions w w' text usage d Hrun Hreply
      Hparse Hwinner Hta Htb.
    apply run_debate_Return_inv in Hrun.
    destruct Hrun as (t0 & st & js & w1 & uid & duration & Hdj & Hstore).
    destruct (single_judge_verdict _ _ _ _ _ _ _ _ _ _ _ _ _ _ _ _ Hdj Hreply)
      as (raw & parsed & valid & Hraw & Hparsed & Hvalid & Hlist).
    rewrite Hparse in Hraw. inversion Hraw; subst raw; clear Hraw.
    destruct (Hdeblind d) as (n & Hn & Hab & _ & Hna & Hnb & _).
    change (side_map_of true) with blind_map in Hparsed.
    rewrite Hn in Hparsed. inversion Hparsed; subst parsed; clear Hparsed.
    specialize (Hab Hwinner).
    assert (Hok : is_valid_jury n = Return true).
    { apply is_valid_jury_true_iff. rewrite Hna, Hnb. auto. }
    rewrite Hok in Hvalid. inversion Hvalid; subst valid; clear Hvalid.
    eexists. split; [exact Hstore |].
    unfold build_record.
    cbn [rec_result rec_evaluation ev_winner_counts].
    rewrite Hlist. unfold result_of, winners_of. cbn [map r_winner].
    rewrite Hab. split; reflexivity.
Qed.

(** The blind scenario: the judge is shown side B as "Side A" and answers
    that "Side A" wins. *)
Lemma deblinding_recovers_true_sides_witness :
  exists rec,
    store (snd (Scenario.run
                  [Completion (Some (Scenario.verdict_text "Side A")) None]
                  true))
    = (store Scenario.w0 ++ [rec])%list
    /\ r_winner (rec_result rec) = "Side B"
    /\ ev_winner_counts (rec_evaluation rec)
       = {| side_a_count := 0; side_b_count := 1 |}.
Proof.
  apply (proj2 (proj2 deblinding_recovers_true_sides)
           (Scenario.env
              [Completion (Some (Scenario.verdict_text "Side A")) None])
           Scenario.client Scenario.client (Scenario.judge "judge0")
           "model-a" "model-b" "X" "" Scenario.w0
           (snd (Scenario.run
                   [Completion (Some (Scenario.verdict_text "Side A")) None]
                   true))
           (Some (Scenario.verdict_text "Side A")) None
           (Scenario.verdict "Side A")).
  - vm_compute. reflexivity.
  - intros client model messages. reflexivity.
  - vm_compute. reflexivity.
  - reflexivity.
  - reflexivity.
  - reflexivity.
Defined.

(** ** The threads of the rounds *)

Lemma debater_turn_thread env i side client model template topic conditions
    messages opponent_history opponent_label w t w' :
  debater_turn env i side client model template topic conditions messages
    opponent_history opponent_label w = (Return t, w') ->
  t_messages t
  = (messages ++ [user_message (re_prompt (t_entry t));
                  assistant_message (re_content (t_entry t))])%list
  /\ entry_usage (t_entry t) = t_usage t.
Proof.
  unfold debater_turn. intros H.
  inv_bind H as prompt w1 H1. inv_bind H as u1 w2 H2.
  inv_bind H as t1 w3 H3. inv_bind H as res w4 H4.
  inv_bind H as t2 w5 H5. inv_bind H as u2 w6 H6.
  inv_bind H as u w7 H7.
  inversion H; subst; clear H. cbn [t_messages t_entry t_usage].
  split.
  - rewrite <- app_assoc. reflexivity.
  - destruct u. reflexivity.
Qed.

Section RoundsInFull.

Variable env : Env.
Variables client_a client_b : Client.
Variables model_a model_b topic conditions : string.

(** A round that returns, with the threads, the totals and the requests. *)
Lemma debate_round_full i round_file st w st' w' :
  debate_round env client_a client_b model_a model_b topic conditions
    i round_file st w = (Return st', w') ->
  exists ea eb text_a usage_a text_b usage_b,
    rounds_log st' = (rounds_log st ++ [ea; eb])%list
    /\ re_side ea = "A" /\ re_side eb = "B"
    /\ messages_a st'
       = (messages_a st ++ [user_message (re_prompt ea);
                            assistant_message (re_content ea)])%list
    /\ messages_b st'
       = (messages_b st ++ [user_message (re_prompt eb);
                            assistant_message (re_content eb)])%list
    /\ totals st'
       = add_usage (add_usage (totals st) (entry_usage ea)) (entry_usage eb)
    /\ backend env (calls w) client_a model_a
         (messages_a st ++ [user_message (re_prompt ea)])%list
       = Completion text_a usage_a
    /\ re_content ea = content_or_empty text_a
    /\ backend env (S (calls w)) client_b model_b
         (messages_b st ++ [user_message (re_prompt eb)])%list
       = Completion text_b usage_b
    /\ re_content eb = content_or_empty text_b
    /\ calls w' = (calls w + 2)%nat.
Proof.
  unfold debate_round, sleep. intros H.
  inv_bind H as ta w1. apply load_prompt_inv in Hstep. destruct Hstep as [_ ->].
  inv_bind H as tb w2. apply load_prompt_inv in Hstep. destruct Hstep as [_ ->].
  inv_bind H as u1 w3. apply log_inv in Hstep. subst.
  inv_bind H as turn_a w4 Ha.
  destruct (debater_turn_thread _ _ _ _ _ _ _ _ _ _ _ _ _ _ Ha) as [Hma Hua].
  apply debater_turn_inv in Ha.
  destruct Ha as (text_a & usage_a & _ & Hba & _ & _ & _ & Hside_a & Hca
                  & Hcalls_a).
  inv_bind H as u2 w5. inversion Hstep; subst; clear Hstep.
  inv_bind H as turn_b w6 Hb.
  destruct (debater_turn_thread _ _ _ _ _ _ _ _ _ _ _ _ _ _ Hb) as [Hmb Hub].
  apply debater_turn_inv in Hb.
  destruct Hb as (text_b & usage_b & _ & Hbb & _ & _ & _ & Hside_b & Hcb
                  & Hcalls_b).
  inv_bind H as u3 w7. inversion Hstep; subst; clear Hstep.
  inversion H; subst; clear H.
  cbn [rounds_log messages_a messages_b totals].
  simpl in Hba, Hcalls_a. rewrite Hcalls_a in Hbb.
  exists (t_entry turn_a), (t_entry turn_b), text_a, usage_a, text_b, usage_b.
  rewrite Hua, Hub, <- app_assoc.
  repeat split; try assumption. lia.
Qed.

Lemma thread_of_round side ea eb entries :
  re_side ea = "A" -> re_side eb = "B" ->
  thread_of side (ea :: eb :: entries)
  = ((if String.eqb "A" side
      then [user_message (re_prompt ea); assistant_message (re_content ea)]
      else [])
     ++ (if String.eqb "B" side
         then [user_message (re_prompt eb); assistant_message (re_content eb)]
         else [])
     ++ thread_of side entries)%list.
Proof.
  intros Ha Hb. unfold thread_of. cbn [flat_map]. rewrite Ha, Hb.
  reflexivity.
Qed.

(** The rounds that return: each side's thread grows by its own prompts and
    answers only, the totals by the usage of the entries in order, and the
    request of a side in a round carries the side's thread so far and the
    new prompt. *)
Lemma debate_rounds_full todo :
  forall st w st' w',
    debate_rounds env client_a client_b model_a model_b topic conditions
      todo st w = (Return st', w') ->
    exists entries,
      rounds_log st' = (rounds_log st ++ entries)%list
      /\ messages_a st' = (messages_a st ++ thread_of "A" entries)%list
      /\ messages_b st' = (messages_b st ++ thread_of "B" entries)%list
      /\ totals st' = fold_left add_usage (map entry_usage entries) (totals st)
      /\ (forall k ea eb,
             nth_error entries (2 * k) = Some ea ->
             nth_error entries (2 * k + 1) = Some eb ->
             exists text_a usage_a text_b usage_b,
               backend env (calls w + 2 * k) client_a model_a
                 (messages_a st ++ thread_of "A" (firstn (2 * k) entries)
                    ++ [user_message (re_prompt ea)])%list
               = Completion text_a usage_a
               /\ re_content ea = content_or_empty text_a
               /\ backend env (calls w + 2 * k + 1) client_b model_b
                    (messages_b st ++ thread_of "B" (firstn (2 * k) entries)
                       ++ [user_message (re_prompt eb)])%list
                  = Completion text_b usage_b
               /\ re_content eb = content_or_empty text_b).
Proof.
  induction todo as [| [i round_file] todo IH]; intros st w st' w' H.
  - simpl in H. inversion H; subst; clear H. exists [].
    rewrite !app_nil_r. repeat split.
    intros k ea eb Hk. destruct (2 * k)%nat; discriminate.
  - simpl in H. inv_bind H as st1 w1.
    apply debate_round_full in Hstep.
    destruct Hstep as (ea0 & eb0 & text_a & usage_a & text_b & usage_b & Hlog
                       & Hsa & Hsb & Hma & Hmb & Htot & Hba & Hca & Hbb & Hcb
                       & Hcalls).
    apply IH in H.
    destruct H as (entries & Hlog' & Hma' & Hmb' & Htot' & Hreq).
    exists (ea0 :: eb0 :: entries).
    rewrite !(thread_of_round _ ea0 eb0 entries Hsa Hsb). simpl String.eqb.
    cbv iota.
    split; [rewrite Hlog', Hlog, <- app_assoc; reflexivity |].
    split; [rewrite Hma', Hma, <- app_assoc; reflexivity |].
    split; [rewrite Hmb', Hmb, <- app_assoc; reflexivity |].
    split; [rewrite Htot', Htot; reflexivity |].
    intros k ea eb Hea Heb. destruct k as [| k].
    + simpl in Hea, Heb. inversion Hea; subst ea. inversion Heb; subst eb.
      exists text_a, usage_a, text_b, usage_b.
      simpl. rewrite !Nat.add_0_r.
      replace (calls w + 1)%nat with (S (calls w)) by lia.
      repeat split; assumption.
    + replace (2 * S k)%nat with (S (S (2 * k))) in * by lia.
      simpl in Hea, Heb.
      destruct (Hreq k ea eb Hea Heb)
        as (ta & ua & tb & ub & Hra & Hcontent_a & Hrb & Hcontent_b).
      exists ta, ua, tb, ub.
      cbn [firstn].
      rewrite !(thread_of_round _ ea0 eb0 _ Hsa Hsb). simpl String.eqb.
      cbv iota. cbn [app].
      rewrite Hma, <- !app_assoc in Hra. rewrite Hmb, <- !app_assoc in Hrb.
      cbn [app] in Hra, Hrb.
      replace (calls w + S (S (2 * k)))%nat with (calls w1 + 2 * k)%nat by lia.
      repeat split; assumption.
Qed.

End RoundsInFull.

(** ** The opponent variables *)

Lemma opponent_variables_first_round i h label :
  i <= 1 -> build_opponent_variables i h label = [].
Proof.
  intros Hi. unfold build_opponent_variables.
  apply Z.leb_le in Hi. rewrite Hi. reflexivity.
Qed.

Lemma opponent_variables_previous_round i h label item :
  1 < i ->
  nth_error h (Z.to_nat (i - 2)) = Some item ->
  build_opponent_variables i h label
  = [(label ++ "_ROUND_" ++ Str.of_Z (i - 1), res_content item)].
Proof.
  intros Hi Hnth. unfold build_opponent_variables.
  assert (Hlt : (Z.to_nat (i - 2) < List.length h)%nat)
    by (apply nth_error_Some; congruence).
  destruct (i <=? 1) eqn:E1; [apply Z.leb_le in E1; lia |].
  destruct (Z.of_nat (List.length h) <=? i - 2) eqn:E2;
    [apply Z.leb_le in E2; lia |].
  rewrite Hnth. reflexivity.
Qed.

(** The variables of round [i] read the opponent's history up to round
    [i - 1] only: what the opponent said in round [i] or later changes
    nothing. *)
Lemma opponent_variables_prefix i h later label :
  Z.of_nat (List.length h) = i - 1 ->
  build_opponent_variables i (h ++ later) label
  = build_opponent_variables i h label.
Proof.
  intros Hlen. unfold build_opponent_variables.
  destruct (i <=? 1) eqn:E1; [reflexivity |].
  apply Z.leb_gt in E1.
  rewrite length_app.
  destruct (Z.of_nat (List.length h + List.length later) <=? i - 2) eqn:E2;
    [apply Z.leb_le in E2; lia |].
  destruct (Z.of_nat (List.length h) <=? i - 2) eqn:E3;
    [apply Z.leb_le in E3; lia |].
  rewrite nth_error_app1 by lia. reflexivity.
Qed.

Lemma firstn_S_split {A} (k : nat) (l : list A) :
  (k < List.length l)%nat ->
  exists x, firstn (S k) l = (firstn k l ++ [x])%list.
Proof.
  revert l. induction k as [| k IH]; intros l Hk.
  - destruct l as [| x l]; [simpl in Hk; lia |]. exists x. reflexivity.
  - destruct l as [| y l]; [simpl in Hk; lia |].
    destruct (IH l) as (x & Hx); [simpl in Hk; lia |].
    exists x. change (firstn (S (S k)) (y :: l)) with (y :: firstn (S k) l).
    rewrite Hx. reflexivity.
Qed.

(** The prompts of the rounds of a run: in round [k + 1] either side's
    prompt is rendered from the opponent's results of the first [k] rounds. *)
Lemma round_prompts env ca cb cfgs ma mb topic conditions blind w t0 st js w1 :
  debate_and_jury env ca cb cfgs ma mb topic conditions blind w
  = (Return (t0, st, js), w1) ->
  forall k round_file,
    nth_error rounds k = Some round_file ->
    exists ta tb ea eb,
      prompt_file env ("model_a/" ++ round_file) = Some ta
      /\ prompt_file env ("model_b/" ++ round_file) = Some tb
      /\ nth_error (rounds_log st) (2 * k) = Some ea
      /\ nth_error (rounds_log st) (2 * k + 1) = Some eb
      /\ render_prompt ta
           (round_variables topic conditions (Z.of_nat k + 1)
              (firstn k (history_b st)) "MODEL_B")
         = Return (re_prompt ea)
      /\ render_prompt tb
           (round_variables topic conditions (Z.of_nat k + 1)
              (firstn k (history_a st)) "MODEL_A")
         = Return (re_prompt eb).
Proof.
  intros Hdj k round_file Hk. apply debate_and_jury_inv in Hdj.
  destruct Hdj as (sp & wb & _ & _ & Hrounds & _).
  apply debate_rounds_inv in Hrounds.
  destruct Hrounds as (ras & rbs & entries & Hha & Hhb & Hlog & Hla & Hlb & _
                       & _ & _ & Hprompts).
  simpl in Hha, Hhb, Hlog.
  destruct (Hprompts k round_file Hk)
    as (ta & tb & ea & eb & Hta & Htb & Hea & Heb & Hpa & Hpb).
  exists ta, tb, ea, eb. rewrite Hha, Hhb, Hlog.
  unfold initial_state in Hpa, Hpb.
  cbn [history_a history_b app] in Hpa, Hpb.
  replace (Z.of_nat k + 1) with (1 + Z.of_nat k) by lia.
  repeat split; try assumption.
  assert (Hlt : (k < List.length ras)%nat).
  { rewrite Hla. apply nth_error_Some. congruence. }
  destruct (firstn_S_split k ras Hlt) as (x & Hx).
  unfold round_variables in *. rewrite Hx in Hpb.
  rewrite opponent_variables_prefix in Hpb; [exact Hpb |].
  rewrite length_firstn. lia.
Qed.

(** ** C9: the opponent context *)

Section RoundResults.

Variable env : Env.
Variables client_a client_b : Client.
Variables model_a model_b topic conditions : string.

(** The results of a round that returns: one per side, each the answer to
    that side's request, and the content of the side's entry. *)
Lemma debate_round_results i round_file st w st' w' :
  debate_round env client_a client_b model_a model_b topic conditions
    i round_file st w = (Return st', w') ->
  exists ra rb ea eb,
    history_a st' = (history_a st ++ [ra])%list
    /\ history_b st' = (history_b st ++ [rb])%list
    /\ rounds_log st' = (rounds_log st ++ [ea; eb])%list
    /\ re_side ea = "A" /\ re_side eb = "B"
    /\ messages_a st'
       = (messages_a st ++ [user_message (re_prompt ea);
                            assistant_message (re_content ea)])%list
    /\ messages_b st'
       = (messages_b st ++ [user_message (re_prompt eb);
                            assistant_message (re_content eb)])%list
    /\ backend env (calls w) client_a model_a
         (messages_a st ++ [user_message (re_prompt ea)])%list
       = Completion (res_content ra) (res_usage ra)
    /\ backend env (S (calls w)) client_b model_b
         (messages_b st ++ [user_message (re_prompt eb)])%list
       = Completion (res_content rb) (res_usage rb)
    /\ re_content ea = content_or_empty (res_content ra)
    /\ re_content eb = content_or_empty (res_content rb)
    /\ calls w' = (calls w + 2)%nat.
Proof.
  unfold debate_round, sleep. intros H.
  inv_bind H as ta w1. apply load_prompt_inv in Hstep. destruct Hstep as [_ ->].
  inv_bind H as tb w2. apply load_prompt_inv in Hstep. destruct Hstep as [_ ->].
  inv_bind H as u1 w3. apply log_inv in Hstep. subst.
  inv_bind H as turn_a w4 Ha.
  destruct (debater_turn_thread _ _ _ _ _ _ _ _ _ _ _ _ _ _ Ha) as [Hma _].
  apply debater_turn_inv in Ha.
  destruct Ha as (text_a & usage_a & _ & Hba & Hres_a & _ & _ & Hside_a & Hca
                  & Hcalls_a).
  inv_bind H as u2 w5. inversion Hstep; subst; clear Hstep.
  inv_bind H as turn_b w6 Hb.
  destruct (debater_turn_thread _ _ _ _ _ _ _ _ _ _ _ _ _ _ Hb) as [Hmb _].
  apply debater_turn_inv in Hb.
  destruct Hb as (text_b & usage_b & _ & Hbb & Hres_b & _ & _ & Hside_b & Hcb
                  & Hcalls_b).
  inv_bind H as u3 w7. inversion Hstep; subst; clear Hstep.
  inversion H; subst; clear H.
  cbn [history_a history_b rounds_log messages_a messages_b].
  simpl in Hba, Hcalls_a. rewrite Hcalls_a in Hbb.
  exists (t_result turn_a), (t_result turn_b), (t_entry turn_a),
    (t_entry turn_b).
  split; [reflexivity |]. split; [reflexivity |].
  split; [rewrite <- app_assoc; reflexivity |].
  split; [exact Hside_a |]. split; [exact Hside_b |].
  split; [exact Hma |]. split; [exact Hmb |].
  split; [rewrite Hres_a; exact Hba |].
  split; [rewrite Hres_b; exact Hbb |].
  split; [rewrite Hres_a; exact Hca |].
  split; [rewrite Hres_b; exact Hcb | lia].
Qed.

(** The rounds that return: the histories hold one result per round and
    side, the answer to the request that carried the side's thread so far
    and its new prompt. *)
Lemma debate_rounds_results todo :
  forall st w st' w',
    debate_rounds env client_a client_b model_a model_b topic conditions
      todo st w = (Return st', w') ->
    exists ras rbs entries,
      history_a st' = (history_a st ++ ras)%list
      /\ history_b st' = (history_b st ++ rbs)%list
      /\ rounds_log st' = (rounds_log st ++ entries)%list
      /\ forall k,
           (k < List.length todo)%nat ->
           exists ra rb ea eb,
             nth_error ras k = Some ra
             /\ nth_error rbs k = Some rb
             /\ nth_error entries (2 * k) = Some ea
             /\ nth_error entries (2 * k + 1) = Some eb
             /\ backend env (calls w + 2 * k) client_a model_a
                  (messages_a st ++ thread_of "A" (firstn (2 * k) entries)
                     ++ [user_message (re_prompt ea)])%list
                = Completion (res_content ra) (res_usage ra)
             /\ backend env (calls w + 2 * k + 1) client_b model_b
                  (messages_b st ++ thread_of "B" (firstn (2 * k) entries)
                     ++ [user_message (re_prompt eb)])%list
                = Completion (res_content rb) (res_usage rb)
             /\ re_content ea = content_or_empty (res_content ra)
             /\ re_content eb = content_or_empty (res_content rb).
Proof.
  induction todo as [| [i round_file] todo IH]; intros st w st' w' H.
  - simpl in H. inversion H; subst; clear H. exists [], [], [].
    rewrite !app_nil_r. repeat split. intros k Hk. simpl in Hk. lia.
  - simpl in H. inv_bind H as st1 w1.
    apply debate_round_results in Hstep.
    destruct Hstep as (ra0 & rb0 & ea0 & eb0 & Hha & Hhb & Hlog & Hsa & Hsb
                       & Hma & Hmb & Hra & Hrb & Hca & Hcb & Hcalls).
    apply IH in H. destruct H as (ras & rbs & entries & Hha' & Hhb' & Hlog'
                                  & Hrest).
    exists (ra0 :: ras), (rb0 :: rbs), (ea0 :: eb0 :: entries).
    split; [rewrite Hha', Hha, <- app_assoc; reflexivity |].
    split; [rewrite Hhb', Hhb, <- app_assoc; reflexivity |].
    split; [rewrite Hlog', Hlog, <- app_assoc; reflexivity |].
    intros k Hk. destruct k as [| k].
    + exists ra0, rb0, ea0, eb0. cbn [nth_error Nat.mul Nat.add firstn].
      rewrite !Nat.add_0_r.
      replace (calls w + 1)%nat with (S (calls w)) by lia.
      repeat split; assumption.
    + destruct (Hrest k ltac:(simpl in Hk; lia))
        as (ra & rb & ea & eb & H1 & H2 & H3 & H4 & H5 & H6 & H7 & H8).
      exists ra, rb, ea, eb.
      replace (2 * S k)%nat with (S (S (2 * k))) by lia.
      replace (calls w + S (S (2 * k)))%nat with (calls w1 + 2 * k)%nat by lia.
      cbn [nth_error Nat.add firstn].
      rewrite !(thread_of_round _ ea0 eb0 _ Hsa Hsb). simpl String.eqb.
      cbv iota. cbn [app].
      rewrite Hma, <- !app_assoc in H5. rewrite Hmb, <- !app_assoc in H6.
      cbn [app] in H5, H6.
      repeat split; assumption.
Qed.

End RoundResults.

(** The variables of the first round, and of a later one. *)
Lemma round_variables_first topic conditions h label :
  round_variables topic conditions 1 h label
  = [("TOPIC", Some topic); ("CONDITIONS", Some conditions)].
Proof. reflexivity. Qed.

Lemma round_variables_later topic conditions j h prev :
  nth_error h j = Some prev ->
  round_variables topic conditions (Z.of_nat (S j) + 1) (firstn (S j) h)
    "MODEL_B"
  = [ ("TOPIC", Some topic); ("CONDITIONS", Some conditions);
      ("MODEL_B_ROUND_" ++ Str.of_Z (Z.of_nat (S j)), res_content prev) ]
  /\ round_variables topic conditions (Z.of_nat (S j) + 1) (firstn (S j) h)
       "MODEL_A"
     = [ ("TOPIC", Some topic); ("CONDITIONS", Some conditions);
         ("MODEL_A_ROUND_" ++ Str.of_Z (Z.of_nat (S j)), res_content prev) ].
Proof.
  intros Hprev.
  assert (Hnth : nth_error (firstn (S j) h)
                   (Z.to_nat (Z.of_nat (S j) + 1 - 2)) = Some prev).
  { replace (Z.to_nat (Z.of_nat (S j) + 1 - 2)) with j by lia.
    rewrite nth_error_firstn.
    destruct (Nat.ltb_spec j (S j)); [exact Hprev | lia]. }
  assert (Hi : 1 < Z.of_nat (S j) + 1) by lia.
  unfold round_variables.
  rewrite !(opponent_variables_previous_round _ _ _ prev Hi Hnth).
  replace (Z.of_nat (S j) + 1 - 1) with (Z.of_nat (S j)) by lia.
  split; reflexivity.
Qed.

(** C9.  For round 1 the opponent variables are empty.  For a round [i > 1]
    in which the opponent has a result for round [i - 1], they bind exactly
    one key, the opponent's label followed by [_ROUND_] and [i - 1], to the
    content of that result.  They depend on the opponent's results up to
    round [i - 1] only, so the content of the opponent's round [i] never
    enters them.  In a run, each side's history holds its result of every
    round: the answer to the request that carried the side's own thread and
    its prompt of the round, and the content of the side's entry of the
    round.  The prompt of either side in round 1 is its template rendered
    with the topic and the conditions alone; in round [k + 1 > 1] it is
    rendered with the topic, the conditions and one more variable, named
    after the opponent and round [k], bound to the content of the
    opponent's result of round [k]. *)
Theorem opponent_context_is_one_round_behind :
  (forall i h label, i <= 1 -> build_opponent_variables i h label = [])
  /\ (forall i h label item,
         1 < i ->
         nth_error h (Z.to_nat (i - 2)) = Some item ->
         build_opponent_variables i h label
         = [(label ++ "_ROUND_" ++ Str.of_Z (i - 1), res_content item)])
  /\ (forall i h later label,
         Z.of_nat (List.length h) = i - 1 ->
         build_opponent_variables i (h ++ later) label
         = build_opponent_variables i h label)
  /\ (forall env client_a client_b judge_configs model_a model_b topic
             conditions blind_jury w t0 st js w1,
         debate_and_jury env client_a client_b judge_configs model_a model_b
           topic conditions blind_jury w = (Return (t0, st, js), w1) ->
         exists system_prompt,
           prompt_file env "system.txt" = Some system_prompt
           /\ forall k round_file,
             nth_error rounds k = Some round_file ->
             exists ta tb ea eb ra rb,
               prompt_file env ("model_a/" ++ round_file) = Some ta
               /\ prompt_file env ("model_b/" ++ round_file) = Some tb
               /\ nth_error (rounds_log st) (2 * k) = Some ea
               /\ nth_error (rounds_log st) (2 * k + 1) = Some eb
               /\ nth_error (history_a st) k = Some ra
               /\ nth_error (history_b st) k = Some rb
               /\ asked env (calls w + 2 * k) client_a model_a system_prompt
                    "A" (firstn (2 * k) (rounds_log st)) (re_prompt ea) ra
               /\ asked env (calls w + 2 * k + 1) client_b model_b
                    system_prompt "B" (firstn (2 * k) (rounds_log st))
                    (re_prompt eb) rb
               /\ re_content ea = content_or_empty (res_content ra)
               /\ re_content eb = content_or_empty (res_content rb)
               /\ match k with
                  | O =>
                      render_prompt ta
                        [("TOPIC", Some topic);
                         ("CONDITIONS", Some conditions)]
                      = Return (re_prompt ea)
                      /\ render_prompt tb
                           [("TOPIC", Some topic);
                            ("CONDITIONS", Some conditions)]
                         = Return (re_prompt eb)
                  | S j =>
                      exists pa pb,
                        nth_error (history_a st) j = Some pa
                        /\ nth_error (history_b st) j = Some pb
                        /\ render_prompt ta
                             [ ("TOPIC", Some topic);
                               ("CONDITIONS", Some conditions);
                               ("MODEL_B_ROUND_" ++ Str.of_Z (Z.of_nat k),
                                res_content pb) ]
                           = Return (re_prompt ea)
                        /\ render_prompt tb
                             [ ("TOPIC", Some topic);
                               ("CONDITIONS", Some conditions);
                               ("MODEL_A_ROUND_" ++ Str.of_Z (Z.of_nat k),
                                res_content pa) ]
                           = Return (re_prompt eb)
                  end).
Proof.
  split; [exact opponent_variables_first_round |].
  split; [exact opponent_variables_previous_round |].
  split; [exact opponent_variables_prefix |].
  intros env ca cb cfgs ma mb topic conditions blind w t0 st js w1 Hdj.
  pose proof Hdj as Hcopy. apply debate_and_jury_inv in Hcopy.
  destruct Hcopy as (sp & wb & Hsp & _ & Hrounds & _).
  exists sp. split; [exact Hsp |].
  intros k round_file Hk.
  destruct (round_prompts _ _ _ _ _ _ _ _ _ _ _ _ _ _ Hdj k round_file Hk)
    as (ta & tb & ea & eb & Hta & Htb & Hea & Heb & Hpa & Hpb).
  apply debate_rounds_results in Hrounds.
  destruct Hrounds as (ras & rbs & entries & Hha & Hhb & Hlog & Hres).
  cbn [initial_state history_a history_b rounds_log messages_a messages_b app]
    in Hha, Hhb, Hlog, Hres.
  rewrite calls_started in Hres.
  assert (Hlt : (k < 4)%nat).
  { change 4%nat with (List.length rounds). apply nth_error_Some. congruence. }
  assert (Hlen : List.length (enumerate 1 rounds) = 4%nat) by reflexivity.
  destruct (Hres k ltac:(rewrite Hlen; exact Hlt))
    as (ra & rb & ea' & eb' & Hra & Hrb & Hea' & Heb' & Hqa & Hqb & Hca & Hcb).
  rewrite <- Hlog in Hea', Heb', Hqa, Hqb.
  rewrite <- Hha in Hra. rewrite <- Hhb in Hrb.
  rewrite Hea in Hea'. inversion Hea'; subst ea'.
  rewrite Heb in Heb'. inversion Heb'; subst eb'.
  exists ta, tb, ea, eb, ra, rb.
  do 6 (split; [assumption |]).
  split; [exact Hqa |]. split; [exact Hqb |].
  do 2 (split; [assumption |]).
  destruct k as [| j].
  - change (Z.of_nat 0 + 1) with 1 in Hpa, Hpb.
    rewrite round_variables_first in Hpa, Hpb. split; assumption.
  - destruct (Hres j ltac:(rewrite Hlen; lia))
      as (pa & pb & _ & _ & Hpa' & Hpb' & _).
    rewrite <- Hha in Hpa'. rewrite <- Hhb in Hpb'.
    exists pa, pb.
    do 2 (split; [assumption |]).
    rewrite (proj1 (round_variables_later topic conditions j _ pb Hpb'))
      in Hpa.
    rewrite (proj2 (round_variables_later topic conditions j _ pa Hpa'))
      in Hpb.
    split; assumption.
Qed.

(** Round 2 of the scenario: the prompt of side A quotes the first speech
    of side B (["speech 1"]), the prompt of side B the first speech of side
    A (["speech 0"]). *)
Lemma opponent_context_is_one_round_behind_witness :
  exists t0 st js w1,
    debate_and_jury (Scenario.env []) Scenario.client Scenario.client []
      "model-a" "model-b" "X" "" false Scenario.w0
    = (Return (t0, st, js), w1)
    /\ exists ea eb pa pb,
         nth_error (rounds_log st) 2 = Some ea
         /\ nth_error (rounds_log st) 3 = Some eb
         /\ res_content pa = Some "speech 0"
         /\ res_content pb = Some "speech 1"
         /\ render_prompt Scenario.template
              [ ("TOPIC", Some "X"); ("CONDITIONS", Some "");
                ("MODEL_B_ROUND_1", res_content pb) ]
            = Return (re_prompt ea)
         /\ render_prompt Scenario.template
              [ ("TOPIC", Some "X"); ("CONDITIONS", Some "");
                ("MODEL_A_ROUND_1", res_content pa) ]
            = Return (re_prompt eb).
Proof.
  destruct (debate_and_jury (Scenario.env []) Scenario.client Scenario.client
              [] "model-a" "model-b" "X" "" false Scenario.w0)
    as [[[[t0 st] js] | e | ] w1] eqn:E; try (vm_compute in E; discriminate).
  exists t0, st, js, w1. split; [reflexivity |].
  destruct (proj2 (proj2 (proj2 opponent_context_is_one_round_behind))
              (Scenario.env []) Scenario.client Scenario.client []
              "model-a" "model-b" "X" "" false Scenario.w0 t0 st js w1 E)
    as (sp & _ & Hround).
  destruct (Hround 1%nat "round2_rebuttal.txt" eq_refl)
    as (ta & tb & ea & eb & ra & rb & Hta & Htb & Hea & Heb & _ & _ & _ & _
        & _ & _ & pa & pb & Hpa & Hpb & Hprompt_a & Hprompt_b).
  injection Hta as <-. injection Htb as <-.
  exists ea, eb, pa, pb.
  split; [exact Hea |]. split; [exact Heb |].
  vm_compute in E. injection E as _ <- _ _.
  split; [injection Hpa as <-; reflexivity |].
  split; [injection Hpb as <-; reflexivity |].
  split; [exact Hprompt_a | exact Hprompt_b].
Defined.

(** In the scenario the second prompt of side B quotes the first speech of
    side A (["speech 0"]) and not the second (["speech 2"]). *)
Example second_prompt_of_side_b :
  build_opponent_variables 2
    [ {| res_model := "model-a"; res_content := Some "speech 0";
         res_usage := None |};
      {| res_model := "model-a"; res_content := Some "speech 2";
         res_usage := None |} ]
    "MODEL_A"
  = [("MODEL_A_ROUND_1", Some "speech 0")].
Proof. reflexivity. Qed.

(** ** C7: an answer that does not parse *)








(** * Further properties *)

(** ** The number of requests *)

Lemma bounded_ret {A} (a : A) : bounded 0 (ret a).
Proof. intros w r w' H. inversion H; subst. lia. Qed.

Lemma bounded_raise {A} (e : exn) : bounded 0 (@raise A e).
Proof. intros w r w' H. inversion H; subst. lia. Qed.

Lemma bounded_lift {A} (o : outcome A) : bounded 0 (lift o).
Proof. intros w r w' H. inversion H; subst. lia. Qed.

Lemma bounded_log message : bounded 0 (log message).
Proof. intros w r w' H. inversion H; subst. simpl. lia. Qed.

Lemma bounded_load_prompt env name : bounded 0 (load_prompt env name).
Proof.
  unfold load_prompt. destruct (prompt_file env name);
    [apply bounded_ret | apply bounded_raise].
Qed.

Lemma bounded_time_time env : bounded 0 (time_time env).
Proof. intros w r w' H. inversion H; subst. simpl. lia. Qed.

Lemma bounded_call_model env client model messages :
  bounded 1 (call_model env client model messages).
Proof.
  intros w r w' H. unfold call_model in H.
  destruct (backend env (calls w) client model messages);
    inversion H; subst; simpl; lia.
Qed.

Lemma bounded_bind {A B} n1 n2 (m : M A) (k : A -> M B) :
  bounded n1 m -> (forall a, bounded n2 (k a)) -> bounded (n1 + n2) (bind m k).
Proof.
  intros Hm Hk w r w' H. unfold bind in H.
  destruct (m w) as [[a | e | ] w1] eqn:E; pose proof (Hm _ _ _ E) as H1.
  - pose proof (Hk a _ _ _ H). lia.
  - inversion H; subst. lia.
  - inversion H; subst. lia.
Qed.

Lemma bounded_weaken {A} n n' (m : M A) :
  (n <= n')%nat -> bounded n m -> bounded n' m.
Proof. intros Hn Hm w r w' H. pose proof (Hm _ _ _ H). lia. Qed.

Lemma bounded_debater_turn env i side client model template topic conditions
    messages opponent_history opponent_label :
  bounded 1 (debater_turn env i side client model template topic conditions
               messages opponent_history opponent_label).
Proof.
  unfold debater_turn.
  apply (bounded_bind 0 1); [apply bounded_lift | intros prompt].
  apply (bounded_bind 0 1); [apply bounded_log | intros u1].
  apply (bounded_bind 0 1); [apply bounded_time_time | intros t1].
  apply (bounded_bind 1 0); [apply bounded_call_model | intros res].
  apply (bounded_bind 0 0); [apply bounded_time_time | intros t2].
  apply (bounded_bind 0 0); [apply bounded_log | intros u2].
  apply (bounded_bind 0 0); [apply bounded_lift | intros u].
  apply bounded_ret.
Qed.

Lemma bounded_debate_round env ca cb ma mb topic conditions i round_file st :
  bounded 2 (debate_round env ca cb ma mb topic conditions i round_file st).
Proof.
  unfold debate_round, sleep.
  apply (bounded_bind 0 2); [apply bounded_load_prompt | intros ta].
  apply (bounded_bind 0 2); [apply bounded_load_prompt | intros tb].
  apply (bounded_bind 0 2); [apply bounded_log | intros u1].
  apply (bounded_bind 1 1); [apply bounded_debater_turn | intros turn_a].
  apply (bounded_bind 0 1); [apply bounded_ret | intros u2].
  apply (bounded_bind 1 0); [apply bounded_debater_turn | intros turn_b].
  apply (bounded_bind 0 0); [apply bounded_ret | intros u3].
  apply bounded_ret.
Qed.

Lemma bounded_debate_rounds env ca cb ma mb topic conditions todo :
  forall st,
    bounded (2 * List.length todo)
      (debate_rounds env ca cb ma mb topic conditions todo st).
Proof.
  induction todo as [| [i round_file] todo IH]; intros st; simpl debate_rounds.
  - apply bounded_ret.
  - apply (bounded_weaken (2 + 2 * List.length todo)); [simpl; lia |].
    apply bounded_bind; [apply bounded_debate_round | intros st'; apply IH].
Qed.

Lemma bounded_jury_step env topic conditions ha hb blind cfg st :
  bounded 1 (jury_step env topic conditions ha hb blind cfg st).
Proof.
  unfold jury_step.
  apply (bounded_bind 1 0).
  - unfold run_jury_evaluation.
    apply (bounded_bind 0 1); [apply bounded_load_prompt | intros template].
    apply (bounded_bind 0 1); [apply bounded_log | intros u1].
    destruct blind; cbv iota beta zeta;
      (apply (bounded_bind 0 1); [apply bounded_lift | intros prompt]);
      (apply (bounded_bind 1 0); [apply bounded_call_model | intros res]);
      apply bounded_ret.
  - intros jr.
    apply (bounded_bind 0 0); [apply bounded_lift | intros u].
    apply (bounded_bind 0 0); [apply bounded_lift | intros raw].
    apply (bounded_bind 0 0); [apply bounded_lift | intros parsed].
    apply (bounded_bind 0 0); [apply bounded_lift | intros valid].
    destruct (negb valid); [| apply bounded_ret].
    apply (bounded_bind 0 0); [apply bounded_log | intros u2].
    apply bounded_ret.
Qed.

Lemma bounded_jury_loop env topic conditions ha hb blind cfgs :
  forall st,
    bounded (List.length cfgs)
      (jury_loop env topic conditions ha hb blind cfgs st).
Proof.
  induction cfgs as [| cfg cfgs IH]; intros st; simpl jury_loop.
  - apply bounded_ret.
  - apply (bounded_bind 1 (List.length cfgs));
      [apply bounded_jury_step | intros st'; apply IH].
Qed.

Lemma bounded_debate_and_jury env ca cb cfgs ma mb topic conditions blind :
  bounded (8 + List.length cfgs)
    (debate_and_jury env ca cb cfgs ma mb topic conditions blind).
Proof.
  unfold debate_and_jury.
  apply (bounded_bind 0 (8 + List.length cfgs));
    [apply bounded_time_time | intros t0].
  apply (bounded_bind 0 (8 + List.length cfgs));
    [apply bounded_log | intros u1].
  apply (bounded_bind 0 (8 + List.length cfgs));
    [apply bounded_log | intros u2].
  apply (bounded_bind 0 (8 + List.length cfgs));
    [apply bounded_load_prompt | intros sp].
  apply (bounded_bind 8 (List.length cfgs));
    [apply (bounded_debate_rounds _ _ _ _ _ _ _ (enumerate 1 rounds))
    | intros st].
  apply (bounded_weaken (List.length cfgs + 0)); [lia |].
  apply bounded_bind; [apply bounded_jury_loop | intros js; apply bounded_ret].
Qed.

(** X1.  A run makes at most eight requests plus one per judge, whatever
    its outcome, and exactly that many when it returns: each debater is
    asked once per round and each judge once. *)
Theorem run_requests_are_counted :
  forall env client_a client_b judge_configs model_a model_b topic conditions
         blind_jury w,
    let out :=
      run_debate env client_a client_b judge_configs model_a model_b topic
        conditions blind_jury w in
    (calls (snd out) <= calls w + 8 + List.length judge_configs)%nat
    /\ (fst out = Return tt ->
        calls (snd out) = (calls w + 8 + List.length judge_configs)%nat).
Proof.
  intros env ca cb cfgs ma mb topic conditions blind w out. subst out.
  rewrite run_debate_calls. split.
  - pose proof (bounded_debate_and_jury env ca cb cfgs ma mb topic conditions
                  blind w) as Hb.
    destruct (debate_and_jury env ca cb cfgs ma mb topic conditions blind w)
      as [r w1] eqn:E.
    specialize (Hb r w1 eq_refl). simpl. lia.
  - intros Hret.
    destruct (run_debate env ca cb cfgs ma mb topic conditions blind w)
      as [r w'] eqn:Erun.
    simpl in Hret. subst r.
    apply run_debate_Return_inv in Erun.
    destruct Erun as (t0 & st & js & w1 & _ & _ & Hdj & _).
    rewrite Hdj. simpl.
    apply debate_and_jury_inv in Hdj.
    destruct Hdj as (sp & wb & _ & _ & Hrounds & Hjury).
    apply debate_rounds_inv in Hrounds.
    destruct Hrounds as (ras & rbs & entries & _ & _ & _ & _ & _ & _ & Hcalls
                         & _).
    apply jury_loop_inv in Hjury. destruct Hjury as (Hcalls' & _).
    rewrite calls_started in Hcalls. simpl in Hcalls. lia.
Qed.

(** ** The store *)

(** X2.  A run either returns, and then exactly one record has been appended
    to the store, or ends with an exception, and then the store is as it
    was.  The lines already in the store are never changed, no run appends
    more than one record, and every run ends. *)
Theorem run_appends_at_most_one_record :
  forall env client_a client_b judge_configs model_a model_b topic conditions
         blind_jury w,
    let out :=
      run_debate env client_a client_b judge_configs model_a model_b topic
        conditions blind_jury w in
    (fst out = Return tt
     /\ exists rec, store (snd out) = (store w ++ [rec])%list)
    \/ (exists e, fst out = Raise e /\ store (snd out) = store w).
Proof.
  intros env ca cb cfgs ma mb topic conditions blind w out. subst out.
  destruct (run_debate_outcome env ca cb cfgs ma mb topic conditions blind w)
    as [(e & w' & Hrun & Hstore) | (w' & rec & Hrun & Hstore)];
    rewrite Hrun; simpl.
  - right. exists e. split; [reflexivity | exact Hstore].
  - left. split; [reflexivity |]. exists rec. exact Hstore.
Qed.

(** ** The judges, one by one *)

Section JuryTrace.

Variable env : Env.
Variables topic conditions : string.
Variables ha hb : list ModelResult.
Variable blind : bool.

Lemma absorb_parsed trace :
  forall st,
    jury_parsed_list (fold_left (absorb blind) trace st)
    = (jury_parsed_list st ++ map jo_parsed (filter jo_valid trace))%list.
Proof.
  induction trace as [| o trace IH]; intros st; simpl.
  - rewrite app_nil_r. reflexivity.
  - rewrite IH. unfold absorb, jury_state_after. simpl.
    destruct (jo_valid o); simpl; [rewrite <- app_assoc |]; reflexivity.
Qed.

Lemma absorb_results trace :
  forall st,
    jury_results (fold_left (absorb blind) trace st)
    = (jury_results st ++ map (entry_of blind) (filter jo_valid trace))%list.
Proof.
  induction trace as [| o trace IH]; intros st; simpl.
  - rewrite app_nil_r. reflexivity.
  - rewrite IH. unfold absorb, jury_state_after. simpl.
    destruct (jo_valid o); simpl; [rewrite <- app_assoc |]; reflexivity.
Qed.

Lemma absorb_totals trace :
  forall st,
    j_totals (fold_left (absorb blind) trace st)
    = fold_left add_usage (map jo_usage trace) (j_totals st).
Proof.
  induction trace as [| o trace IH]; intros st; simpl.
  - reflexivity.
  - rewrite IH. reflexivity.
Qed.

(** A loop over the judges that returns has, for every judge in order, an
    answered request; the state is the one reached by absorbing the judges'
    outcomes from left to right. *)
Lemma jury_loop_trace cfgs :
  forall st w st' w',
    jury_loop env topic conditions ha hb blind cfgs st w = (Return st', w') ->
    exists trace,
      map jo_cfg trace = cfgs
      /\ (forall k o,
             nth_error trace k = Some o ->
             judge_answer env topic conditions ha hb blind (jo_cfg o)
               (calls w + k) (jo_prompt o) (jo_text o) (jo_usage o)
               (jo_parsed o) (jo_valid o))
      /\ st' = fold_left (absorb blind) trace st.
Proof.
  induction cfgs as [| cfg cfgs IH]; intros st w st' w' H.
  - simpl in H. inversion H; subst. exists []. repeat split.
    intros k o Hk. destruct k; discriminate.
  - simpl in H. inv_bind H as st1 w1.
    apply jury_step_inv in Hstep.
    destruct Hstep as (prompt & text & u & parsed & valid & Hans & -> & Hcalls).
    apply IH in H. destruct H as (trace & Hcfgs & Hanswers & ->).
    exists ({| jo_cfg := cfg; jo_prompt := prompt; jo_text := text;
               jo_usage := u; jo_parsed := parsed; jo_valid := valid |}
              :: trace).
    split; [simpl; rewrite Hcfgs; reflexivity |].
    split; [| reflexivity].
    intros k o Hk. destruct k as [| k]; simpl in Hk.
    + inversion Hk; subst; clear Hk. rewrite Nat.add_0_r. exact Hans.
    + replace (calls w + S k)%nat with (calls w1 + k)%nat by lia.
      apply Hanswers. exact Hk.
Qed.

End JuryTrace.

(** The jury of a run that returns. *)
Lemma run_debate_trace env ca cb cfgs ma mb topic conditions blind w w' :
  run_debate env ca cb cfgs ma mb topic conditions blind w = (Return tt, w') ->
  exists rec t0 st js w1 trace,
    store w' = (store w ++ [rec])%list
    /\ debate_and_jury env ca cb cfgs ma mb topic conditions blind w
       = (Return (t0, st, js), w1)
    /\ rec_rounds rec = rounds_log st
    /\ map jo_cfg trace = cfgs
    /\ (forall k o,
           nth_error trace k = Some o ->
           judge_answer env topic conditions (history_a st) (history_b st)
             blind (jo_cfg o) (calls w + 8 + k) (jo_prompt o) (jo_text o)
             (jo_usage o) (jo_parsed o) (jo_valid o))
    /\ ev_juries (rec_evaluation rec)
       = map (entry_of blind) (filter jo_valid trace)
    /\ ev_parsed (rec_evaluation rec) = map jo_parsed (filter jo_valid trace)
    /\ rec_totals rec = fold_left add_usage (map jo_usage trace) (totals st).
Proof.
  intros Hrun. apply run_debate_Return_inv in Hrun.
  destruct Hrun as (t0 & st & js & w1 & uid & duration & Hdj & Hstore).
  pose proof Hdj as Hcopy. apply debate_and_jury_inv in Hcopy.
  destruct Hcopy as (sp & wb & _ & _ & Hrounds & Hjury).
  apply debate_rounds_inv in Hrounds.
  destruct Hrounds as (ras & rbs & entries & _ & _ & _ & _ & _ & _ & Hcalls & _).
  rewrite calls_started in Hcalls. simpl in Hcalls.
  apply jury_loop_trace in Hjury.
  destruct Hjury as (trace & Hcfgs & Hanswers & ->).
  eexists. exists t0, st. do 2 eexists. exists trace.
  split; [exact Hstore |]. split; [exact Hdj |].
  split; [reflexivity |]. split; [exact Hcfgs |].
  split.
  { intros k o Hk. rewrite <- Hcalls. apply Hanswers. exact Hk. }
  cbn [build_record rec_evaluation ev_juries ev_parsed rec_totals].
  rewrite absorb_results, absorb_parsed, absorb_totals. repeat split.
Qed.

(** ** The jury lists of the record *)

(** X3.  In the record of a run that returns, [juries] and [parsed] run in
    parallel: both list exactly the judges whose verdict passed the validity
    check, in the order of the configured judges, the entry and the verdict
    at one position coming from the same judge.  What a judge did is fixed
    by the run: its outcome is the answer to its request, the request
    number eight plus its position, read, parsed, de-blinded and checked.
    Every jury entry carries the blind flag of the run and the side map that
    goes with it. *)
Theorem jury_lists_are_parallel :
  forall env client_a client_b judge_configs model_a model_b topic conditions
         blind_jury w w',
    run_debate env client_a client_b judge_configs model_a model_b topic
      conditions blind_jury w = (Return tt, w') ->
    exists rec t0 st js w1 trace,
      store w' = (store w ++ [rec])%list
      /\ debate_and_jury env client_a client_b judge_configs model_a model_b
           topic conditions blind_jury w = (Return (t0, st, js), w1)
      /\ judged env topic conditions st blind_jury (calls w + 8)
           judge_configs trace
      /\ ev_juries (rec_evaluation rec)
         = map (entry_of blind_jury) (filter jo_valid trace)
      /\ ev_parsed (rec_evaluation rec)
         = map jo_parsed (filter jo_valid trace)
      /\ List.length (ev_juries (rec_evaluation rec))
         = List.length (ev_parsed (rec_evaluation rec))
      /\ Forall (fun e => je_blind e = blind_jury
                          /\ je_side_map e = side_map_of blind_jury)
           (ev_juries (rec_evaluation rec)).
Proof.
  intros env ca cb cfgs ma mb topic conditions blind w w' Hrun.
  destruct (run_debate_trace _ _ _ _ _ _ _ _ _ _ _ Hrun)
    as (rec & t0 & st & js & w1 & trace & Hstore & Hdj & _ & Hcfgs & Hanswers
        & Hjuries & Hparsed & _).
  exists rec, t0, st, js, w1, trace.
  split; [exact Hstore |]. split; [exact Hdj |].
  split; [split; [exact Hcfgs | exact Hanswers] |].
  split; [exact Hjuries |]. split; [exact Hparsed |].
  rewrite Hjuries, Hparsed. split; [rewrite !length_map; reflexivity |].
  apply Forall_forall. intros e He. apply in_map_iff in He.
  destruct He as (o & <- & _). split; reflexivity.
Qed.

(** Three judges; the second answers with text that is not JSON. *)
Lemma jury_lists_are_parallel_witness :
  let env :=
    Scenario.env
      [ Completion (Some (Scenario.verdict_text "Side A")) None;
        Completion (Some "no verdict") None;
        Completion (Some (Scenario.verdict_text "Side B")) None ] in
  let judges :=
    [Scenario.judge "judge0"; Scenario.judge "judge1";
     Scenario.judge "judge2"] in
  exists rec t0 st js w1 trace,
    store (snd (run_debate env Scenario.client Scenario.client judges
                  "model-a" "model-b" "X" "" true Scenario.w0))
    = (store Scenario.w0 ++ [rec])%list
    /\ debate_and_jury env Scenario.client Scenario.client judges "model-a"
         "model-b" "X" "" true Scenario.w0 = (Return (t0, st, js), w1)
    /\ judged env "X" "" st true (calls Scenario.w0 + 8) judges trace
    /\ ev_juries (rec_evaluation rec)
       = map (entry_of true) (filter jo_valid trace)
    /\ ev_parsed (rec_evaluation rec) = map jo_parsed (filter jo_valid trace)
    /\ List.length (ev_juries (rec_evaluation rec))
       = List.length (ev_parsed (rec_evaluation rec))
    /\ Forall (fun e => je_blind e = true /\ je_side_map e = side_map_of true)
         (ev_juries (rec_evaluation rec)).
Proof.
  intros env judges.
  apply (jury_lists_are_parallel env Scenario.client Scenario.client judges
           "model-a" "model-b" "X" "" true Scenario.w0).
  vm_compute. reflexivity.
Defined.

(** X4.  In the record of a run that returns, the two winner counts add up
    to the number of verdicts, which is the number of jury entries and at
    most the number of configured judges. *)
Theorem winner_counts_add_up :
  forall env client_a client_b judge_configs model_a model_b topic conditions
         blind_jury w w',
    run_debate env client_a client_b judge_configs model_a model_b topic
      conditions blind_jury w = (Return tt, w') ->
    exists rec,
      store w' = (store w ++ [rec])%list
      /\ (side_a_count (ev_winner_counts (rec_evaluation rec))
          + side_b_count (ev_winner_counts (rec_evaluation rec)))%nat
         = List.length (ev_parsed (rec_evaluation rec))
      /\ List.length (ev_parsed (rec_evaluation rec))
         = List.length (ev_juries (rec_evaluation rec))
      /\ (List.length (ev_parsed (rec_evaluation rec))
          <= List.length judge_configs)%nat.
Proof.
  intros env ca cb cfgs ma mb topic conditions blind w w' Hrun.
  destruct (run_debate_record _ _ _ _ _ _ _ _ _ _ _ Hrun)
    as (rec & Hstore & _ & Hcounts & Hvalid & Hlen).
  destruct (run_debate_trace _ _ _ _ _ _ _ _ _ _ _ Hrun)
    as (rec' & t0 & st & js & w1 & trace & Hstore' & _ & _ & _ & _ & Hjuries
        & Hparsed & _).
  rewrite Hstore in Hstore'. apply app_inv_head in Hstore'.
  inversion Hstore'; subst rec'; clear Hstore'.
  exists rec. split; [exact Hstore |].
  rewrite Hcounts. cbn [winner_counts_of side_a_count side_b_count].
  split; [apply valid_verdicts_counts; exact Hvalid |].
  split; [rewrite Hjuries, Hparsed, !length_map; reflexivity | exact Hlen].
Qed.

Lemma winner_counts_add_up_witness :
  exists rec,
    store (snd (Scenario.run
                  [ Completion (Some (Scenario.verdict_text "Side A")) None;
                    Completion (Some "no verdict") None;
                    Completion (Some (Scenario.verdict_text "Side B")) None ]
                  false))
    = (store Scenario.w0 ++ [rec])%list
    /\ (side_a_count (ev_winner_counts (rec_evaluation rec))
        + side_b_count (ev_winner_counts (rec_evaluation rec)))%nat
       = List.length (ev_parsed (rec_evaluation rec))
    /\ List.length (ev_parsed (rec_evaluation rec))
       = List.length (ev_juries (rec_evaluation rec))
    /\ (List.length (ev_parsed (rec_evaluation rec)) <= 3)%nat.
Proof.
  apply (winner_counts_add_up
           (Scenario.env
              [ Completion (Some (Scenario.verdict_text "Side A")) None;
                Completion (Some "no verdict") None;
                Completion (Some (Scenario.verdict_text "Side B")) None ])
           Scenario.client Scenario.client
           [Scenario.judge "judge0"; Scenario.judge "judge1";
            Scenario.judge "judge2"]
           "model-a" "model-b" "X" "" false Scenario.w0).
  vm_compute. reflexivity.
Defined.

(** X5.  All the judges of a run are shown the same prompt: the jury
    entries of the record have one and the same [prompt]. *)
Theorem judges_share_one_prompt :
  forall env client_a client_b judge_configs model_a model_b topic conditions
         blind_jury w w',
    run_debate env client_a client_b judge_configs model_a model_b topic
      conditions blind_jury w = (Return tt, w') ->
    exists rec,
      store w' = (store w ++ [rec])%list
      /\ forall e1 e2,
           In e1 (ev_juries (rec_evaluation rec)) ->
           In e2 (ev_juries (rec_evaluation rec)) ->
           je_prompt e1 = je_prompt e2.
Proof.
  intros env ca cb cfgs ma mb topic conditions blind w w' Hrun.
  destruct (run_debate_trace _ _ _ _ _ _ _ _ _ _ _ Hrun)
    as (rec & t0 & st & js & w1 & trace & Hstore & _ & _ & _ & Hanswers
        & Hjuries & _).
  exists rec. split; [exact Hstore |].
  assert (Hprompt : forall e,
             In e (ev_juries (rec_evaluation rec)) ->
             exists template,
               prompt_file env "judge/judge_evaluation.txt" = Some template
               /\ render_prompt template
                    (judge_variables topic conditions (history_a st)
                       (history_b st) blind)
                  = Return (je_prompt e)).
  { intros e He. rewrite Hjuries in He. apply in_map_iff in He.
    destruct He as (o & <- & Ho). apply filter_In in Ho.
    destruct Ho as [Ho _]. apply In_nth_error in Ho. destruct Ho as (k & Hk).
    destruct (Hanswers k o Hk) as (template & usage & raw & Ht & Hr & _).
    exists template. split; [exact Ht | exact Hr]. }
  intros e1 e2 H1 H2.
  destruct (Hprompt e1 H1) as (t1 & Ht1 & Hr1).
  destruct (Hprompt e2 H2) as (t2 & Ht2 & Hr2).
  rewrite Ht1 in Ht2. inversion Ht2; subst t2.
  rewrite Hr1 in Hr2. inversion Hr2. reflexivity.
Qed.

Lemma judges_share_one_prompt_witness :
  exists rec,
    store (snd (Scenario.run
                  [ Completion (Some (Scenario.verdict_text "Side A")) None;
                    Completion (Some (Scenario.verdict_text "Side B")) None ]
                  true))
    = (store Scenario.w0 ++ [rec])%list
    /\ forall e1 e2,
         In e1 (ev_juries (rec_evaluation rec)) ->
         In e2 (ev_juries (rec_evaluation rec)) ->
         je_prompt e1 = je_prompt e2.
Proof.
  apply (judges_share_one_prompt
           (Scenario.env
              [ Completion (Some (Scenario.verdict_text "Side A")) None;
                Completion (Some (Scenario.verdict_text "Side B")) None ])
           Scenario.client Scenario.client
           [Scenario.judge "judge0"; Scenario.judge "judge1"]
           "model-a" "model-b" "X" "" true Scenario.w0).
  vm_compute. reflexivity.
Defined.

(** ** The threads and the totals of the rounds *)


(** X6.  After the rounds each debater's thread is the system prompt
    followed by that debater's own prompts and answers, round by round;
    nothing the other debater was sent or answered is in it.  The request of
    a side in a round carries exactly the thread so far and the new prompt,
    goes to that side's client and model, and its answer is the content of
    the entry. *)
Theorem each_side_keeps_its_own_thread :
  forall env client_a client_b judge_configs model_a model_b topic conditions
         blind_jury w t0 st js w1,
    debate_and_jury env client_a client_b judge_configs model_a model_b topic
      conditions blind_jury w = (Return (t0, st, js), w1) ->
    exists system_prompt,
      prompt_file env "system.txt" = Some system_prompt
      /\ messages_a st
         = system_message system_prompt :: thread_of "A" (rounds_log st)
      /\ messages_b st
         = system_message system_prompt :: thread_of "B" (rounds_log st)
      /\ (forall k ea eb,
             nth_error (rounds_log st) (2 * k) = Some ea ->
             nth_error (rounds_log st) (2 * k + 1) = Some eb ->
             exists text_a usage_a text_b usage_b,
               backend env (calls w + 2 * k) client_a model_a
                 (system_message system_prompt
                    :: thread_of "A" (firstn (2 * k) (rounds_log st))
                    ++ [user_message (re_prompt ea)])%list
               = Completion text_a usage_a
               /\ re_content ea = content_or_empty text_a
               /\ backend env (calls w + 2 * k + 1) client_b model_b
                    (system_message system_prompt
                       :: thread_of "B" (firstn (2 * k) (rounds_log st))
                       ++ [user_message (re_prompt eb)])%list
                  = Completion text_b usage_b
               /\ re_content eb = content_or_empty text_b).
Proof.
  intros env ca cb cfgs ma mb topic conditions blind w t0 st js w1 Hdj.
  apply debate_and_jury_inv in Hdj.
  destruct Hdj as (sp & wb & Hsp & _ & Hrounds & _).
  apply debate_rounds_full in Hrounds.
  destruct Hrounds as (entries & Hlog & Hma & Hmb & _ & Hreq).
  simpl in Hlog, Hma, Hmb. rewrite calls_started in Hreq.
  exists sp. rewrite Hlog, Hma, Hmb.
  split; [exact Hsp |]. split; [reflexivity |]. split; [reflexivity |].
  exact Hreq.
Qed.

Lemma each_side_keeps_its_own_thread_witness :
  exists t0 st js w1,
    debate_and_jury (Scenario.env []) Scenario.client Scenario.client []
      "model-a" "model-b" "X" "" false Scenario.w0
    = (Return (t0, st, js), w1)
    /\ exists system_prompt,
         prompt_file (Scenario.env []) "system.txt" = Some system_prompt
         /\ messages_a st
            = system_message system_prompt :: thread_of "A" (rounds_log st)
         /\ messages_b st
            = system_message system_prompt :: thread_of "B" (rounds_log st)
         /\ (forall k ea eb,
                nth_error (rounds_log st) (2 * k) = Some ea ->
                nth_error (rounds_log st) (2 * k + 1) = Some eb ->
                exists text_a usage_a text_b usage_b,
                  backend (Scenario.env []) (calls Scenario.w0 + 2 * k)
                    Scenario.client "model-a"
                    (system_message system_prompt
                       :: thread_of "A" (firstn (2 * k) (rounds_log st))
                       ++ [user_message (re_prompt ea)])%list
                  = Completion text_a usage_a
                  /\ re_content ea = content_or_empty text_a
                  /\ backend (Scenario.env []) (calls Scenario.w0 + 2 * k + 1)
                       Scenario.client "model-b"
                       (system_message system_prompt
                          :: thread_of "B" (firstn (2 * k) (rounds_log st))
                          ++ [user_message (re_prompt eb)])%list
                     = Completion text_b usage_b
                  /\ re_content eb = content_or_empty text_b).
Proof.
  eexists. eexists. eexists. eexists. split.
  - vm_compute. reflexivity.
  - eapply (each_side_keeps_its_own_thread
              (Scenario.env []) Scenario.client Scenario.client []
              "model-a" "model-b" "X" "" false Scenario.w0).
    vm_compute. reflexivity.
Defined.

(** ** The totals of the record *)

Lemma filter_all_of_length {A} (f : A -> bool) (l : list A) :
  List.length (filter f l) = List.length l -> filter f l = l.
Proof.
  induction l as [| x l IH]; intros H; [reflexivity |].
  simpl in *. destruct (f x).
  - simpl in H. rewrite IH by lia. reflexivity.
  - pose proof (filter_length_le f l). lia.
Qed.

Lemma jury_usage_entry_of blind o : jury_usage (entry_of blind o) = jo_usage o.
Proof. unfold jury_usage, entry_of, jury_entry. simpl. destruct (jo_usage o); reflexivity. Qed.

(** The integer counters of a sum of usages. *)
Lemma fold_add_usage_counters us :
  forall t,
    total_tokens (fold_left add_usage us t)
    = total_tokens t + sum_of u_total_tokens us
    /\ total_completion_tokens (fold_left add_usage us t)
       = total_completion_tokens t + sum_of u_completion_tokens us
    /\ total_prompt_tokens (fold_left add_usage us t)
       = total_prompt_tokens t + sum_of u_prompt_tokens us
    /\ total_reasoning_tokens (fold_left add_usage us t)
       = total_reasoning_tokens t + sum_of u_reasoning_tokens us.
Proof.
  unfold sum_of. induction us as [| u us IH]; intros t; simpl.
  - repeat split; lia.
  - destruct (IH (add_usage t u)) as (H1 & H2 & H3 & H4).
    rewrite H1, H2, H3, H4. simpl. repeat split; lia.
Qed.

(** X7.  The totals of the record are the sum, taken from left to right and
    starting from zero, of the usage of the eight round entries and then of
    the usage of every configured judge, in order, as read from the answer
    to that judge's request: the usage of a judge whose verdict was dropped
    is counted too, although the record has no jury entry for it.  Each
    token counter of the totals is the plain sum of that counter over these
    usages. *)
Theorem record_totals_are_sums :
  forall env client_a client_b judge_configs model_a model_b topic conditions
         blind_jury w w',
    run_debate env client_a client_b judge_configs model_a model_b topic
      conditions blind_jury w = (Return tt, w') ->
    exists rec t0 st js w1 trace,
      store w' = (store w ++ [rec])%list
      /\ debate_and_jury env client_a client_b judge_configs model_a model_b
           topic conditions blind_jury w = (Return (t0, st, js), w1)
      /\ judged env topic conditions st blind_jury (calls w + 8)
           judge_configs trace
      /\ rec_rounds rec = rounds_log st
      /\ map jury_usage (ev_juries (rec_evaluation rec))
         = map jo_usage (filter jo_valid trace)
      /\ rec_totals rec
         = fold_left add_usage
             (map entry_usage (rec_rounds rec) ++ map jo_usage trace)%list
             zero_totals
      /\ total_tokens (rec_totals rec)
         = sum_of u_total_tokens (map entry_usage (rec_rounds rec))
           + sum_of u_total_tokens (map jo_usage trace)
      /\ total_completion_tokens (rec_totals rec)
         = sum_of u_completion_tokens (map entry_usage (rec_rounds rec))
           + sum_of u_completion_tokens (map jo_usage trace)
      /\ total_prompt_tokens (rec_totals rec)
         = sum_of u_prompt_tokens (map entry_usage (rec_rounds rec))
           + sum_of u_prompt_tokens (map jo_usage trace)
      /\ total_reasoning_tokens (rec_totals rec)
         = sum_of u_reasoning_tokens (map entry_usage (rec_rounds rec))
           + sum_of u_reasoning_tokens (map jo_usage trace).
Proof.
  intros env ca cb cfgs ma mb topic conditions blind w w' Hrun.
  destruct (run_debate_trace _ _ _ _ _ _ _ _ _ _ _ Hrun)
    as (rec & t0 & st & js & w1 & trace & Hstore & Hdj & Hrounds & Hcfgs
        & Hanswers & Hjuries & _ & Htotals).
  pose proof Hdj as Hcopy. apply debate_and_jury_inv in Hcopy.
  destruct Hcopy as (sp & wb & _ & _ & Hloop & _).
  apply debate_rounds_full in Hloop.
  destruct Hloop as (entries & Hlog & _ & _ & Htot & _).
  simpl in Hlog, Htot.
  exists rec, t0, st, js, w1, trace.
  assert (Hsum : rec_totals rec
                 = fold_left add_usage
                     (map entry_usage (rec_rounds rec) ++ map jo_usage trace)%list
                     zero_totals).
  { rewrite Htotals, Hrounds, Hlog, fold_left_app, Htot. reflexivity. }
  split; [exact Hstore |]. split; [exact Hdj |].
  split; [split; [exact Hcfgs | exact Hanswers] |].
  split; [exact Hrounds |].
  split.
  { rewrite Hjuries, map_map. apply map_ext. intros o.
    apply jury_usage_entry_of. }
  split; [exact Hsum |].
  rewrite Hsum.
  destruct (fold_add_usage_counters
              (map entry_usage (rec_rounds rec) ++ map jo_usage trace)%list
              zero_totals) as (H1 & H2 & H3 & H4).
  rewrite H1, H2, H3, H4. unfold sum_of.
  rewrite !map_app, !fold_right_app. simpl.
  assert (Hshift : forall (l : list Z) (z : Z),
             fold_right Z.add z l = fold_right Z.add 0 l + z).
  { induction l as [| x l IHl]; intros z; simpl; [lia |].
    rewrite IHl. lia. }
  rewrite !(Hshift _ (fold_right Z.add 0 _)). repeat split; lia.
Qed.

(** Two judges; the second reports seven tokens and answers with text that
    is not JSON: its verdict is dropped and its tokens are counted. *)
Lemma record_totals_are_sums_witness :
  let env :=
    Scenario.env
      [ Completion (Some (Scenario.verdict_text "Side A")) None;
        Completion (Some "no verdict")
          (Some [("total_tokens", VInt 7); ("cost", VFloat 0.5)]) ] in
  let judges := [Scenario.judge "judge0"; Scenario.judge "judge1"] in
  exists rec t0 st js w1 trace,
    store (snd (run_debate env Scenario.client Scenario.client judges
                  "model-a" "model-b" "X" "" false Scenario.w0))
    = (store Scenario.w0 ++ [rec])%list
    /\ debate_and_jury env Scenario.client Scenario.client judges "model-a"
         "model-b" "X" "" false Scenario.w0 = (Return (t0, st, js), w1)
    /\ judged env "X" "" st false (calls Scenario.w0 + 8) judges trace
    /\ rec_rounds rec = rounds_log st
    /\ map jury_usage (ev_juries (rec_evaluation rec))
       = map jo_usage (filter jo_valid trace)
    /\ rec_totals rec
       = fold_left add_usage
           (map entry_usage (rec_rounds rec) ++ map jo_usage trace)%list
           zero_totals
    /\ total_tokens (rec_totals rec)
       = sum_of u_total_tokens (map entry_usage (rec_rounds rec))
         + sum_of u_total_tokens (map jo_usage trace)
    /\ total_completion_tokens (rec_totals rec)
       = sum_of u_completion_tokens (map entry_usage (rec_rounds rec))
         + sum_of u_completion_tokens (map jo_usage trace)
    /\ total_prompt_tokens (rec_totals rec)
       = sum_of u_prompt_tokens (map entry_usage (rec_rounds rec))
         + sum_of u_prompt_tokens (map jo_usage trace)
    /\ total_reasoning_tokens (rec_totals rec)
       = sum_of u_reasoning_tokens (map entry_usage (rec_rounds rec))
         + sum_of u_reasoning_tokens (map jo_usage trace).
Proof.
  intros env judges.
  apply (record_totals_are_sums env Scenario.client Scenario.client judges
           "model-a" "model-b" "X" "" false Scenario.w0).
  vm_compute. reflexivity.
Defined.

(** ** The prompt templates *)

(** X8.  A run that returns has found every template it reads: the system
    prompt, the template of either side for each of the four rounds and, if
    there is a judge, the judge template.  If the system prompt or a
    template of the first round is missing, the run ends with
    [FileNotFoundError] before any request is made, and nothing is
    written. *)
Theorem templates_are_required :
  (forall env client_a client_b judge_configs model_a model_b topic conditions
          blind_jury w w',
      run_debate env client_a client_b judge_configs model_a model_b topic
        conditions blind_jury w = (Return tt, w') ->
      prompt_file env "system.txt" <> None
      /\ (forall round_file,
             In round_file rounds ->
             prompt_file env ("model_a/" ++ round_file) <> None
             /\ prompt_file env ("model_b/" ++ round_file) <> None)
      /\ (judge_configs <> [] ->
          prompt_file env "judge/judge_evaluation.txt" <> None))
  /\ (forall env client_a client_b judge_configs model_a model_b topic
             conditions blind_jury w,
         prompt_file env "system.txt" = None
         \/ prompt_file env "model_a/round1_opening.txt" = None
         \/ prompt_file env "model_b/round1_opening.txt" = None ->
         let out :=
           run_debate env client_a client_b judge_configs model_a model_b
             topic conditions blind_jury w in
         fst out = Raise FileNotFoundError
         /\ calls (snd out) = calls w
         /\ store (snd out) = store w).
Proof.
  split.
  - intros env ca cb cfgs ma mb topic conditions blind w w' Hrun.
    destruct (run_debate_trace _ _ _ _ _ _ _ _ _ _ _ Hrun)
      as (rec & t0 & st & js & w1 & trace & _ & Hdj & _ & Hcfgs & Hanswers & _).
    pose proof (round_prompts _ _ _ _ _ _ _ _ _ _ _ _ _ _ Hdj) as Hprompts.
    apply debate_and_jury_inv in Hdj.
    destruct Hdj as (sp & wb & Hsp & _).
    split; [congruence |]. split.
    + intros round_file Hin. apply In_nth_error in Hin.
      destruct Hin as (k & Hk).
      destruct (Hprompts k round_file Hk) as (ta & tb & ? & ? & Hta & Htb & _).
      split; congruence.
    + intros Hne. destruct trace as [| o trace];
        [simpl in Hcfgs; congruence |].
      destruct (Hanswers 0%nat o eq_refl) as (template & ? & ? & Ht & _).
      congruence.
  - intros env ca cb cfgs ma mb topic conditions blind w Hmissing out.
    assert (Hdj : exists w1,
               debate_and_jury env ca cb cfgs ma mb topic conditions blind w
               = (Raise FileNotFoundError, w1)
               /\ calls w1 = calls w).
    { destruct (prompt_file env "system.txt") as [sp |] eqn:Hsp.
      - assert (Hround : forall st w0,
                   debate_round env ca cb ma mb topic conditions 1
                     "round1_opening.txt" st w0
                   = (Raise FileNotFoundError, w0)).
        { intros st w0. unfold debate_round, load_prompt.
          change ("model_a/" ++ "round1_opening.txt")
            with "model_a/round1_opening.txt".
          change ("model_b/" ++ "round1_opening.txt")
            with "model_b/round1_opening.txt".
          destruct (prompt_file env "model_a/round1_opening.txt") as [ta |];
            [| reflexivity].
          destruct (prompt_file env "model_b/round1_opening.txt") as [tb |];
            [| reflexivity].
          destruct Hmissing as [H | [H | H]]; discriminate. }
        rewrite (debate_and_jury_unfold _ _ _ _ _ _ _ _ _ _ _ Hsp).
        cbn [rounds enumerate debate_rounds].
        erewrite bind_Raise; [| apply bind_Raise; apply Hround].
        eexists. split; reflexivity.
      - unfold debate_and_jury, load_prompt. rewrite Hsp.
        eexists. split; reflexivity. }
    destruct Hdj as (w1 & Hdj & Hcalls).
    destruct (run_debate_raises _ _ _ _ _ _ _ _ _ _ _ _ Hdj) as [Hrun Hstore].
    subst out. rewrite Hrun. simpl. repeat split; assumption.
Qed.

(** The scenario without its prompt files. *)
Lemma templates_are_required_witness :
  let env :=
    {| backend := backend (Scenario.env []);
       prompt_file := fun _ => None;
       clock := clock (Scenario.env []);
       nanoid := nanoid (Scenario.env []);
       json_loads := json_loads (Scenario.env []);
       float_of_str := float_of_str (Scenario.env []);
       int_of_str := int_of_str (Scenario.env []) |} in
  let out :=
    run_debate env Scenario.client Scenario.client [] "model-a" "model-b"
      "X" "" false Scenario.w0 in
  fst out = Raise FileNotFoundError
  /\ calls (snd out) = calls Scenario.w0
  /\ store (snd out) = store Scenario.w0.
Proof.
  intros env.
  apply (proj2 templates_are_required env Scenario.client Scenario.client []
           "model-a" "model-b" "X" "" false Scenario.w0).
  left. reflexivity.
Defined.

(** ** Rendering a prompt *)

(** X9.  [render_prompt] returns a text when every variable has one, and
    raises [TypeError] when some variable is [None], whatever the template
    and whether or not the placeholder occurs in it. *)
Theorem render_prompt_needs_texts :
  forall template variables,
    (Forall (fun kv => snd kv <> None) variables ->
     exists text, render_prompt template variables = Return text)
    /\ (Exists (fun kv => snd kv = None) variables ->
        render_prompt template variables = Raise TypeError).
Proof.
  intros template variables. revert template.
  induction variables as [| [key [v |]] rest IH]; intros template.
  - split; [intros _; exists template; reflexivity | intros H; inversion H].
  - destruct (IH (Str.replace ("{{" ++ key ++ "}}") v template)) as [IHok IHno].
    split; intros H; simpl.
    + apply IHok. inversion H; assumption.
    + apply IHno. inversion H as [? ? Hhd | ? ? Htl]; subst;
        [discriminate | exact Htl].
  - split; intros H; simpl; [| reflexivity].
    inversion H as [| ? ? Hhd _]; subst. contradiction Hhd. reflexivity.
Qed.

Lemma render_prompt_needs_texts_witness :
  (exists text,
      render_prompt "{{TOPIC}}!" [("TOPIC", Some "X"); ("CONDITIONS", Some "")]
      = Return text)
  /\ render_prompt "no placeholder" [("TOPIC", Some "X"); ("OTHER", None)]
     = Raise TypeError.
Proof.
  split.
  - apply (proj1 (render_prompt_needs_texts "{{TOPIC}}!"
                    [("TOPIC", Some "X"); ("CONDITIONS", Some "")])).
    repeat constructor; discriminate.
  - apply (proj2 (render_prompt_needs_texts "no placeholder"
                    [("TOPIC", Some "X"); ("OTHER", None)])).
    right. left. reflexivity.
Defined.

Lemma prefix_nonempty_of_empty old :
  old <> "" -> String.prefix old "" = false.
Proof. destruct old; [congruence | reflexivity]. Qed.

(** Replacing a text that does not occur changes nothing. *)
Lemma replace_without_occurrence old new s :
  old <> "" -> ~ occurs old s -> Str.replace old new s = s.
Proof.
  intros Hold Hno. unfold Str.replace.
  destruct old as [| c0 old0]; [congruence |].
  induction s as [| c s IH]; [reflexivity |].
  cbn [Str.replace_from].
  destruct (String.prefix (String c0 old0) (String c s)) eqn:E.
  - contradiction Hno. exists 0%nat. exact E.
  - rewrite IH; [reflexivity |].
    intros (n & Hn). apply Hno. exists (S n). exact Hn.
Qed.

(** X10.  A template in which none of the placeholders [{{KEY}}] of the
    variables occurs is returned as it is: text between braces that names no
    variable stays in the prompt, and variables that are not used change
    nothing. *)
Theorem render_prompt_keeps_other_text :
  forall template variables,
    Forall (fun kv => snd kv <> None
                      /\ ~ occurs ("{{" ++ fst kv ++ "}}") template)
      variables ->
    render_prompt template variables = Return template.
Proof.
  intros template variables H.
  induction H as [| [key [v |]] rest [Hsome Hno] _ IH];
    cbn [render_prompt fst snd] in *.
  - reflexivity.
  - rewrite replace_without_occurrence; [exact IH | discriminate | exact Hno].
  - contradiction Hsome. reflexivity.
Qed.

Lemma render_prompt_keeps_other_text_witness :
  render_prompt "Say {{OTHER}}" [("TOPIC", Some "X")] = Return "Say {{OTHER}}".
Proof.
  apply (render_prompt_keeps_other_text "Say {{OTHER}}" [("TOPIC", Some "X")]).
  constructor; [| constructor].
  split; [discriminate |].
  intros (n & Hn).
  do 14 (destruct n as [| n]; [discriminate |]).
  discriminate.
Defined.

(** ** A reply without content *)

Lemma set_none_is_there (k : string) (d : dict (option string)) :
  Exists (fun kv => snd kv = None) (Dict.set k None d).
Proof.
  induction d as [| [k' v'] d IH]; simpl.
  - left. reflexivity.
  - destruct (String.eqb k k'); [left; reflexivity | right; exact IH].
Qed.

(** X11.  When the opponent's result of the round before has no content
    ([None]), a debater's turn in a round after the first raises
    [TypeError] while rendering its prompt: no request is made and nothing
    is logged. *)
Theorem turn_after_empty_reply_raises :
  forall env i side client model template topic conditions messages
         opponent_history opponent_label item w,
    1 < i ->
    nth_error opponent_history (Z.to_nat (i - 2)) = Some item ->
    res_content item = None ->
    debater_turn env i side client model template topic conditions messages
      opponent_history opponent_label w
    = (Raise TypeError, w).
Proof.
  intros env i side client model template topic conditions messages
    opponent_history opponent_label item w Hi Hnth Hnone.
  unfold debater_turn. apply bind_Raise. unfold lift. f_equal.
  apply render_prompt_needs_texts.
  unfold round_variables.
  rewrite (opponent_variables_previous_round _ _ _ _ Hi Hnth), Hnone.
  unfold Dict.update. cbn [fold_left fst snd].
  apply set_none_is_there.
Qed.

(** Round 2 for side B after a first reply of side A without content. *)
Lemma turn_after_empty_reply_raises_witness :
  debater_turn (Scenario.env []) 2 "B" Scenario.client "model-b"
    Scenario.template "X" "" []
    [ {| res_model := "model-a"; res_content := None; res_usage := None |};
      {| res_model := "model-a"; res_content := Some "speech 2";
         res_usage := None |} ]
    "MODEL_A" Scenario.w0
  = (Raise TypeError, Scenario.w0).
Proof.
  apply (turn_after_empty_reply_raises (Scenario.env []) 2 "B" Scenario.client
           "model-b" Scenario.template "X" "" []
           [ {| res_model := "model-a"; res_content := None;
                res_usage := None |};
             {| res_model := "model-a"; res_content := Some "speech 2";
                res_usage := None |} ]
           "MODEL_A"
           {| res_model := "model-a"; res_content := None; res_usage := None |}
           Scenario.w0).
  - lia.
  - reflexivity.
  - reflexivity.
Defined.

(** ** Unique ids *)

Lemma unique_id_inv env fuel seen :
  forall w uid seen' w',
    unique_id env fuel seen w = (Return (uid, seen'), w') ->
    existsb (String.eqb uid) seen = false
    /\ seen' = uid :: seen
    /\ (draws w < draws w')%nat
    /\ uid = nanoid env (draws w' - 1)
    /\ (forall n, (draws w <= n < draws w' - 1)%nat ->
                  existsb (String.eqb (nanoid env n)) seen = true)
    /\ calls w' = calls w /\ store w' = store w.
Proof.
  induction fuel as [| fuel IH]; intros w uid seen' w' H.
  - discriminate.
  - cbn [unique_id] in H. unfold bind, generate in H.
    destruct (existsb (String.eqb (nanoid env (draws w))) seen) eqn:E.
    + apply IH in H. simpl in H.
      destruct H as (Hfresh & Hseen & Hlt & Huid & Hbefore & Hcalls & Hstore).
      repeat split; try assumption; try lia.
      intros n Hn. destruct (Nat.eq_dec n (draws w)) as [-> | Hne];
        [exact E | apply Hbefore; lia].
    + inversion H; subst; clear H. simpl.
      rewrite Nat.sub_0_r.
      repeat split; try assumption; try lia.
Qed.

Lemma unique_id_returns env fuel seen :
  forall w k,
    (k < fuel)%nat ->
    existsb (String.eqb (nanoid env (draws w + k))) seen = false ->
    exists r w', unique_id env fuel seen w = (Return r, w').
Proof.
  induction fuel as [| fuel IH]; intros w k Hk Hfresh; [lia |].
  cbn [unique_id]. unfold bind, generate.
  destruct (existsb (String.eqb (nanoid env (draws w))) seen) eqn:E.
  - destruct k as [| k]; [rewrite Nat.add_0_r in Hfresh; congruence |].
    apply (IH (with_draws (S (draws w)) w) k); [lia |].
    cbn [draws with_draws].
    replace (S (draws w) + k)%nat with (draws w + S k)%nat by lia.
    exact Hfresh.
  - do 2 eexists. reflexivity.
Qed.

(** X12.  [unique_id] returns the first draw of the generator that is not in
    [seen] and adds it to [seen]: the id is new, every draw before it was a
    collision, and no request or record is touched.  It returns as soon as a
    fresh draw comes within the fuel, so with an empty [seen] the first draw
    is taken; and two calls in a row, the second on the set the first
    returned, never give the same id. *)
Theorem unique_id_is_first_fresh_draw :
  (forall env fuel seen w uid seen' w',
      unique_id env fuel seen w = (Return (uid, seen'), w') ->
      existsb (String.eqb uid) seen = false
      /\ seen' = uid :: seen
      /\ (draws w < draws w')%nat
      /\ uid = nanoid env (draws w' - 1)
      /\ (forall n, (draws w <= n < draws w' - 1)%nat ->
                    existsb (String.eqb (nanoid env n)) seen = true)
      /\ calls w' = calls w /\ store w' = store w)
  /\ (forall env fuel seen w k,
         (k < fuel)%nat ->
         existsb (String.eqb (nanoid env (draws w + k))) seen = false ->
         exists r w', unique_id env fuel seen w = (Return r, w'))
  /\ (forall env fuel1 fuel2 seen w uid1 seen1 w1 uid2 seen2 w2,
         unique_id env fuel1 seen w = (Return (uid1, seen1), w1) ->
         unique_id env fuel2 seen1 w1 = (Return (uid2, seen2), w2) ->
         uid1 <> uid2).
Proof.
  split; [exact unique_id_inv |]. split; [exact unique_id_returns |].
  intros env fuel1 fuel2 seen w uid1 seen1 w1 uid2 seen2 w2 H1 H2.
  apply unique_id_inv in H1. destruct H1 as (_ & -> & _).
  apply unique_id_inv in H2. destruct H2 as (Hfresh & _).
  simpl in Hfresh. apply orb_false_iff in Hfresh. destruct Hfresh as [Hne _].
  apply String.eqb_neq in Hne. congruence.
Qed.

(** A generator that repeats a seen id twice before a new one. *)
Lemma unique_id_is_first_fresh_draw_witness :
  exists r w',
    unique_id
      {| backend := backend (Scenario.env []);
         prompt_file := prompt_file (Scenario.env []);
         clock := clock (Scenario.env []);
         nanoid := fun n => if (n <? 2)%nat then "taken" else "fresh";
         json_loads := json_loads (Scenario.env []);
         float_of_str := float_of_str (Scenario.env []);
         int_of_str := int_of_str (Scenario.env []) |}
      5 ["taken"] Scenario.w0 = (Return r, w').
Proof.
  apply (proj1 (proj2 unique_id_is_first_fresh_draw) _ 5%nat ["taken"]
           Scenario.w0 2%nat).
  - lia.
  - reflexivity.
Defined.

(** ** Reading a usage payload *)

Lemma extract_usage_fields_present env kv rest :
  extract_usage_fields env (Some (kv :: rest))
  = (c <~ py_float env (por (cost_of_usage (kv :: rest)) (VFloat 0%float)) ;;
     ct <~ py_int env (por (get "completion_tokens" (kv :: rest)) (VInt 0)) ;;
     pt <~ py_int env (por (get "prompt_tokens" (kv :: rest)) (VInt 0)) ;;
     tt <~ py_int env (por (get "total_tokens" (kv :: rest)) (VInt 0)) ;;
     rt <~ py_int env (por (get "reasoning_tokens" (kv :: rest)) (VInt 0)) ;;
     Return {| u_cost := c; u_completion_tokens := ct;
               u_prompt_tokens := pt; u_total_tokens := tt;
               u_reasoning := ""; u_reasoning_tokens := rt |}).
Proof. reflexivity. Qed.

Lemma py_float_of_typed env v :
  absent_or_float v = true ->
  py_float env (por v (VFloat 0%float)) = Return (float_or_zero v).
Proof.
  destruct v; try discriminate; intros _; [reflexivity |].
  unfold por, truthy, float_or_zero.
  destruct (PrimFloat.eqb f 0%float); reflexivity.
Qed.

Lemma py_int_of_typed env v :
  absent_or_int v = true ->
  py_int env (por v (VInt 0)) = Return (int_or_zero v).
Proof.
  destruct v; try discriminate; intros _; [reflexivity |].
  unfold por, truthy, int_or_zero.
  destruct (Z.eqb z 0) eqn:E; simpl; [| reflexivity].
  apply Z.eqb_eq in E. congruence.
Qed.

(** X13.  For a usage payload that is not empty, whose cost is a float or
    absent and whose four token counts are ints or absent, the extraction
    does not raise and returns these numbers as they are, an absent or null
    field reading as zero; the reasoning text is always empty. *)
Theorem typed_usage_is_read_as_is :
  forall env usage,
    usage <> [] ->
    absent_or_float (cost_of_usage usage) = true ->
    absent_or_int (get "completion_tokens" usage) = true ->
    absent_or_int (get "prompt_tokens" usage) = true ->
    absent_or_int (get "total_tokens" usage) = true ->
    absent_or_int (get "reasoning_tokens" usage) = true ->
    extract_usage_fields env (Some usage)
    = Return
        {| u_cost := float_or_zero (cost_of_usage usage);
           u_completion_tokens := int_or_zero (get "completion_tokens" usage);
           u_prompt_tokens := int_or_zero (get "prompt_tokens" usage);
           u_total_tokens := int_or_zero (get "total_tokens" usage);
           u_reasoning := "";
           u_reasoning_tokens := int_or_zero (get "reasoning_tokens" usage) |}.
Proof.
  intros env usage Hne Hc Hct Hpt Htt Hrt.
  destruct usage as [| kv rest]; [congruence |].
  rewrite extract_usage_fields_present.
  rewrite (py_float_of_typed env _ Hc).
  rewrite (py_int_of_typed env _ Hct), (py_int_of_typed env _ Hpt),
    (py_int_of_typed env _ Htt), (py_int_of_typed env _ Hrt).
  reflexivity.
Qed.

Lemma typed_usage_is_read_as_is_witness :
  extract_usage_fields (Scenario.env [])
    (Some [ ("prompt_tokens", VInt 120); ("completion_tokens", VInt 30);
            ("total_tokens", VInt 150); ("cost", VFloat 0.25%float);
            ("total_cost", VNone) ])
  = Return
      {| u_cost := 0.25%float; u_completion_tokens := 30;
         u_prompt_tokens := 120; u_total_tokens := 150; u_reasoning := "";
         u_reasoning_tokens := 0 |}.
Proof.
  apply (typed_usage_is_read_as_is (Scenario.env [])
           [ ("prompt_tokens", VInt 120); ("completion_tokens", VInt 30);
             ("total_tokens", VInt 150); ("cost", VFloat 0.25%float);
             ("total_cost", VNone) ]);
    [discriminate | reflexivity ..].
Defined.

Lemma set_is_not_empty {V} (k : string) (v : V) (d : dict V) :
  Dict.set k v d <> [].
Proof.
  destruct d as [| [k' v'] d]; simpl; [discriminate |].
  destruct (String.eqb k k'); discriminate.
Qed.

(** X14.  [total_cost] takes precedence over [cost]: when the payload has a
    [total_cost] that is not null, the extraction gives the same result
    whatever the value of [cost]. *)
Theorem total_cost_takes_precedence :
  forall env usage v,
    is_not_none (get "total_cost" usage) = true ->
    extract_usage_fields env (Some (Dict.set "cost" v usage))
    = extract_usage_fields env (Some usage).
Proof.
  intros env usage v Htotal.
  destruct usage as [| kv rest]; [discriminate |].
  destruct (Dict.set "cost" v (kv :: rest)) as [| kv' rest'] eqn:E;
    [exfalso; exact (set_is_not_empty _ _ _ E) |].
  rewrite !extract_usage_fields_present. rewrite <- E.
  unfold cost_of_usage.
  rewrite !get_set_other by reflexivity.
  rewrite Htotal. reflexivity.
Qed.

Lemma total_cost_takes_precedence_witness :
  extract_usage_fields (Scenario.env [])
    (Some (Dict.set "cost" (VStr "n/a")
             [("total_cost", VFloat 0.5%float); ("total_tokens", VInt 9)]))
  = extract_usage_fields (Scenario.env [])
      (Some [("total_cost", VFloat 0.5%float); ("total_tokens", VInt 9)]).
Proof.
  apply (total_cost_takes_precedence (Scenario.env [])
           [("total_cost", VFloat 0.5%float); ("total_tokens", VInt 9)]
           (VStr "n/a")).
  reflexivity.
Defined.

(** ** Blinding and validity *)

Lemma is_valid_jury_present kv rest :
  is_valid_jury (kv :: rest)
  = (let winner := get "winner" (kv :: rest) in
     if negb (hashable winner) then Raise TypeError
     else if negb (eq_str winner "Side A" || eq_str winner "Side B")
     then Return false
     else Return (is_not_none (get "total_score_A" (kv :: rest))
                  && is_not_none (get "total_score_B" (kv :: rest)))).
Proof. reflexivity. Qed.

Lemma remap_winner_hashable raw :
  hashable (remap_winner raw blind_map) = hashable (remap_winner raw identity_map).
Proof.
  unfold remap_winner.
  destruct (eq_str raw "Side A"); [reflexivity |].
  destruct (eq_str raw "Side B"); reflexivity.
Qed.

Lemma remap_winner_names_a_side raw :
  (eq_str (remap_winner raw blind_map) "Side A"
   || eq_str (remap_winner raw blind_map) "Side B")%bool
  = (eq_str (remap_winner raw identity_map) "Side A"
     || eq_str (remap_winner raw identity_map) "Side B")%bool.
Proof.
  unfold remap_winner.
  destruct (eq_str raw "Side A"); [reflexivity |].
  destruct (eq_str raw "Side B"); reflexivity.
Qed.

(** X15.  Whether the answer of a judge counts does not depend on blinding:
    for every parsed answer, de-blinding through the swapped side map and
    through the identity map give the same validity, or fail with the same
    error. *)
Theorem blinding_does_not_change_validity :
  forall jury_parsed_raw,
    (parsed <~ jury_parsed_of jury_parsed_raw blind_map ;; is_valid_jury parsed)
    = (parsed <~ jury_parsed_of jury_parsed_raw identity_map ;;
       is_valid_jury parsed).
Proof.
  intros v. destruct v as [| | | | | | d]; try reflexivity.
  unfold jury_parsed_of, as_dict, obind.
  set (raw := get_default "winner" (VStr "") d).
  unfold normalize_jury_scores.
  change (String.eqb (map_A blind_map) "A") with false.
  change (String.eqb (map_A identity_map) "A") with true.
  cbv iota.
  destruct (Dict.set "winner" (remap_winner raw identity_map) d)
    as [| kv rest] eqn:E; [exfalso; exact (set_is_not_empty _ _ _ E) |].
  rewrite !is_valid_jury_present. rewrite <- E. cbv zeta.
  change (get "winner" (("total_score_A", ?x) :: ?r))
    with (get "winner" (Dict.set "winner" (remap_winner raw blind_map) d)).
  rewrite !get_set_same.
  rewrite remap_winner_hashable, remap_winner_names_a_side.
  rewrite !(get_set_other _ "winner") by reflexivity.
  rewrite (Bool.andb_comm (is_not_none (get "total_score_B" d))).
  reflexivity.
Qed.

(** ** Fenced answers *)

Lemma append_is_not_empty (s t : string) : t <> "" -> s ++ t <> "".
Proof. destruct s; simpl; [auto | discriminate]. Qed.

Lemma rstrip_by_app p (s t : string) :
  Str.rstrip_by p t <> "" ->
  Str.rstrip_by p (s ++ t) = s ++ Str.rstrip_by p t.
Proof.
  intros Ht. induction s as [| c s IH]; simpl; [reflexivity |].
  rewrite IH.
  destruct (s ++ Str.rstrip_by p t) eqn:E; [| reflexivity].
  exfalso. exact (append_is_not_empty s _ Ht E).
Qed.

Lemma rstrip_by_app2 p (a body t : string) :
  Str.rstrip_by p t <> "" ->
  Str.rstrip_by p (a ++ body ++ t) = a ++ body ++ Str.rstrip_by p t.
Proof.
  intros Ht. rewrite rstrip_by_app; rewrite rstrip_by_app; auto.
  apply append_is_not_empty. exact Ht.
Qed.

(** X16.  An answer wrapped in a json code fence is unwrapped before it is
    parsed: the fence and the language tag are removed and what is left is
    the body without its leading white space, followed by the newline that
    stood before the closing fence. *)
Theorem json_fence_is_unwrapped :
  forall body,
    clean_jury_text
      ("```json" ++ Str.newline ++ body ++ Str.newline ++ "```")
    = Str.lstrip (body ++ Str.newline).
Proof.
  intros body. unfold clean_jury_text.
  assert (Hstrip :
            Str.strip ("```json" ++ Str.newline ++ body ++ Str.newline ++ "```")
            = "```json" ++ Str.newline ++ body ++ Str.newline ++ "```").
  { unfold Str.strip, Str.strip_by.
    change (Str.lstrip_by Str.is_space
              ("```json" ++ Str.newline ++ body ++ Str.newline ++ "```"))
      with (("```json" ++ Str.newline) ++ body ++ Str.newline ++ "```").
    rewrite rstrip_by_app2; [reflexivity | discriminate]. }
  rewrite Hstrip.
  change (Str.startswith "```"
            ("```json" ++ Str.newline ++ body ++ Str.newline ++ "```"))
    with true.
  cbv iota.
  assert (Hticks :
            Str.strip_chars "`"
              ("```json" ++ Str.newline ++ body ++ Str.newline ++ "```")
            = "json" ++ Str.newline ++ body ++ Str.newline).
  { unfold Str.strip_chars, Str.strip_by.
    change (Str.lstrip_by (Str.mem_char "`")
              ("```json" ++ Str.newline ++ body ++ Str.newline ++ "```"))
      with (("json" ++ Str.newline) ++ body ++ Str.newline ++ "```").
    rewrite rstrip_by_app2; [reflexivity | discriminate]. }
  rewrite Hticks.
  reflexivity.
Qed.

(** ** List variables *)

Lemma split_without_separator sep s :
  contains_char sep s = false -> split sep s = [s].
Proof.
  induction s as [| c s IH]; simpl; [reflexivity |].
  intros H. apply Bool.orb_false_iff in H as [Hc Hs].
  rewrite Hc, (IH Hs). reflexivity.
Qed.

Lemma split_app sep s t :
  contains_char sep s = false ->
  split sep (s ++ String sep t) = s :: split sep t.
Proof.
  induction s as [| c s IH]; simpl.
  - intros _. rewrite Ascii.eqb_refl. reflexivity.
  - intros H. apply Bool.orb_false_iff in H as [Hc Hs].
    rewrite Hc, (IH Hs). reflexivity.
Qed.

Lemma split_join items :
  items <> [] ->
  Forall (fun item => contains_char comma item = false) items ->
  split comma (Str.join "," items) = items.
Proof.
  induction items as [| a items IH]; [congruence |].
  intros _ Hall. inversion Hall as [| a' items' Ha Hitems]; subst.
  destruct items as [| b rest].
  - simpl. apply split_without_separator. exact Ha.
  - change (Str.join "," (a :: b :: rest))
      with (a ++ String comma (Str.join "," (b :: rest))).
    rewrite split_app by exact Ha.
    rewrite IH; [reflexivity | discriminate | exact Hitems].
Qed.

Lemma split_pieces sep s :
  Forall (fun piece => contains_char sep piece = false) (split sep s).
Proof.
  induction s as [| c s IH]; simpl.
  - constructor; [reflexivity | constructor].
  - destruct (Ascii.eqb c sep) eqn:Hc.
    + constructor; [reflexivity | exact IH].
    + destruct (split sep s) as [| piece pieces].
      * constructor; [simpl; rewrite Hc; reflexivity | constructor].
      * inversion IH; subst.
        constructor; [simpl; rewrite Hc; assumption | assumption].
Qed.

Lemma lstrip_by_contains p c s :
  contains_char c s = false -> contains_char c (Str.lstrip_by p s) = false.
Proof.
  induction s as [| a s IH]; simpl; [auto |].
  intros H. destruct (p a); [| exact H].
  apply Bool.orb_false_iff in H as [_ Hs]. exact (IH Hs).
Qed.

Lemma rstrip_by_contains p c s :
  contains_char c s = false -> contains_char c (Str.rstrip_by p s) = false.
Proof.
  induction s as [| a s IH]; simpl; [auto |].
  intros H. apply Bool.orb_false_iff in H as [Ha Hs].
  specialize (IH Hs).
  destruct (Str.rstrip_by p s) as [| b r].
  - destruct (p a); simpl; [reflexivity | rewrite Ha; reflexivity].
  - simpl. rewrite Ha. exact IH.
Qed.

Lemma rstrip_by_idempotent p s :
  Str.rstrip_by p (Str.rstrip_by p s) = Str.rstrip_by p s.
Proof.
  induction s as [| a s IH]; simpl; [reflexivity |].
  destruct (Str.rstrip_by p s) as [| b r] eqn:E.
  - destruct (p a) eqn:Ha; simpl; [reflexivity | rewrite Ha; reflexivity].
  - change (Str.rstrip_by p (String a (String b r)))
      with (match Str.rstrip_by p (String b r) with
            | EmptyString =>
                if p a then EmptyString else String a EmptyString
            | r' => String a r'
            end).
    rewrite IH. reflexivity.
Qed.

Lemma lstrip_by_head p s :
  Str.lstrip_by p s = ""
  \/ exists c t, Str.lstrip_by p s = String c t /\ p c = false.
Proof.
  induction s as [| a s IH]; simpl; [left; reflexivity |].
  destruct (p a) eqn:Ha; [exact IH |].
  right. exists a, s. split; [reflexivity | exact Ha].
Qed.

Lemma rstrip_by_head p c t :
  p c = false -> exists t', Str.rstrip_by p (String c t) = String c t'.
Proof.
  intros Hc. simpl. destruct (Str.rstrip_by p t) as [| b r].
  - rewrite Hc. eexists. reflexivity.
  - eexists. reflexivity.
Qed.

Lemma strip_by_idempotent p s :
  Str.strip_by p (Str.strip_by p s) = Str.strip_by p s.
Proof.
  unfold Str.strip_by.
  destruct (lstrip_by_head p s) as [E | (c & t & E & Hc)]; rewrite E.
  - reflexivity.
  - destruct (rstrip_by_head p c t Hc) as [t' Et]. rewrite Et.
    simpl Str.lstrip_by. rewrite Hc. rewrite <- Et.
    apply rstrip_by_idempotent.
Qed.

Lemma join_is_not_empty a rest : a <> "" -> Str.join "," (a :: rest) <> "".
Proof.
  intros Ha. destruct rest as [| b rest]; simpl; [exact Ha |].
  destruct a; [congruence | discriminate].
Qed.

Lemma require_env_Return environ key c v :
  environ key = Some (String c v) ->
  require_env environ key = Return (String c v).
Proof. intros H. unfold require_env. rewrite H. reflexivity. Qed.

Lemma require_env_inv environ key v :
  require_env environ key = Return v -> environ key = Some v /\ v <> "".
Proof.
  unfold require_env. destruct (environ key) as [[| c s] |]; try discriminate.
  intros H. injection H as <-. split; [reflexivity | discriminate].
Qed.

(** X17.  A list variable is read back as it was written: when the variable
    holds items joined by commas, none empty, none with a comma or with
    white space around it, [parse_list_env] returns exactly these items, in
    their order. *)
Theorem parse_list_env_reads_a_joined_list :
  forall environ key items,
    items <> [] ->
    Forall list_item items ->
    environ key = Some (Str.join "," items) ->
    parse_list_env environ key = Return items.
Proof.
  intros environ key items Hne Hall Hkey.
  unfold parse_list_env.
  destruct (Str.join "," items) as [| c v] eqn:Hjoin.
  { destruct items as [| a rest]; [congruence |].
    inversion Hall as [| a' rest' [Ha _] _]; subst.
    exfalso. exact (join_is_not_empty a rest Ha Hjoin). }
  rewrite (require_env_Return _ _ _ _ Hkey). cbn [obind].
  rewrite <- Hjoin.
  rewrite split_join; [| exact Hne |].
  2:{ eapply Forall_impl; [| exact Hall]. intros item (_ & _ & H). exact H. }
  f_equal. clear Hne Hkey Hjoin.
  induction Hall as [| item items (Hitem & Hstrip & _) _ IH]; [reflexivity |].
  cbn [map filter]. rewrite Hstrip.
  destruct (String.eqb item "") eqn:E.
  - apply String.eqb_eq in E. congruence.
  - cbn [negb]. f_equal. exact IH.
Qed.

Lemma parse_list_env_reads_a_joined_list_witness :
  parse_list_env Setup.environ "JUDGE_BACKENDS"
  = Return ["online"; "local"; "online"].
Proof.
  apply (parse_list_env_reads_a_joined_list Setup.environ "JUDGE_BACKENDS"
           ["online"; "local"; "online"]).
  - discriminate.
  - repeat constructor; discriminate.
  - reflexivity.
Defined.

(** X18.  Every item that [parse_list_env] returns is a proper item: it is
    not empty, has no white space around it and no comma in it, however the
    variable was written. *)
Theorem parse_list_env_items_are_clean :
  forall environ key items,
    parse_list_env environ key = Return items ->
    Forall list_item items.
Proof.
  intros environ key items H. unfold parse_list_env in H.
  destruct (require_env environ key) as [v | e |]; try discriminate.
  cbn [obind] in H. injection H as <-.
  apply Forall_forall. intros item Hin.
  apply filter_In in Hin as [Hin Hitem].
  apply in_map_iff in Hin as (piece & <- & Hpiece).
  pose proof (split_pieces comma v) as Hfree.
  rewrite Forall_forall in Hfree. specialize (Hfree piece Hpiece).
  repeat split.
  - intros E. rewrite E in Hitem. discriminate.
  - apply strip_by_idempotent.
  - unfold Str.strip, Str.strip_by.
    apply rstrip_by_contains, lstrip_by_contains. exact Hfree.
Qed.

Lemma parse_list_env_items_are_clean_witness :
  Forall list_item ["judge-1"; "judge-2"; "judge-3"].
Proof.
  apply (parse_list_env_items_are_clean Setup.environ "JUDGE_MODELS").
  reflexivity.
Defined.

(** ** Backends and clients *)

Lemma judge_configs_of_inv environ :
  forall models backends configs,
    List.length models = List.length backends ->
    judge_configs_of environ (combine models backends) = Return configs ->
    map bc_model configs = models
    /\ map bc_backend configs = backends
    /\ Forall (well_formed_config environ) configs.
Proof.
  induction models as [| model models IH]; intros backends configs Hlen H.
  - destruct backends; [| discriminate]. simpl in H. injection H as <-.
    repeat split; constructor.
  - destruct backends as [| backend backends]; [discriminate |].
    injection Hlen as Hlen. cbn [combine judge_configs_of] in H.
    destruct (known_backend backend) eqn:Hknown; [| discriminate].
    cbn [negb] in H.
    apply obind_Return_inv in H as (base_url & Hurl & H).
    apply obind_Return_inv in H as (rest & Hrest & H).
    injection H as <-.
    apply require_env_inv in Hurl as [Hurl Hne].
    destruct (IH backends rest Hlen Hrest) as (Hm & Hb & Hwf).
    cbn [map bc_model bc_backend]. rewrite Hm, Hb.
    repeat split. constructor; [| exact Hwf].
    repeat split; assumption.
Qed.

(** X19.  The judges are the models and the backends of the two list
    variables, paired by position: when [build_judge_configs] returns, the
    models of its configurations are the items of JUDGE_MODELS and their
    backends the items of JUDGE_BACKENDS, in order, and every configuration
    has a known backend, requires the key exactly when it is online, and has
    the base URL of its backend. *)
Theorem judge_configs_pair_models_with_backends :
  forall environ configs,
    build_judge_configs environ = Return configs ->
    parse_list_env environ "JUDGE_MODELS" = Return (map bc_model configs)
    /\ parse_list_env environ "JUDGE_BACKENDS"
       = Return (map bc_backend configs)
    /\ Forall (well_formed_config environ) configs.
Proof.
  intros environ configs H. unfold build_judge_configs in H.
  apply obind_Return_inv in H as (models & Hmodels & H).
  apply obind_Return_inv in H as (backends & Hbackends & H).
  destruct (Nat.eqb (List.length models) (List.length backends)) eqn:Hlen;
    [| discriminate].
  cbn [negb] in H. apply Nat.eqb_eq in Hlen.
  destruct (judge_configs_of_inv environ models backends configs Hlen H)
    as (Hm & Hb & Hwf).
  rewrite Hm, Hb. repeat split; assumption.
Qed.

Lemma judge_configs_pair_models_with_backends_witness :
  parse_list_env Setup.environ "JUDGE_MODELS"
  = Return ["judge-1"; "judge-2"; "judge-3"]
  /\ parse_list_env Setup.environ "JUDGE_BACKENDS"
     = Return ["online"; "local"; "online"].
Proof.
  destruct (judge_configs_pair_models_with_backends Setup.environ
              [ {| bc_backend := "online";
                   bc_base_url := "https://openrouter.ai/api/v1";
                   bc_model := "judge-1"; bc_requires_api_key := true |};
                {| bc_backend := "local";
                   bc_base_url := "http://localhost:1234/v1";
                   bc_model := "judge-2"; bc_requires_api_key := false |};
                {| bc_backend := "online";
                   bc_base_url := "https://openrouter.ai/api/v1";
                   bc_model := "judge-3"; bc_requires_api_key := true |} ]
              eq_refl) as (Hm & Hb & _).
  split; [exact Hm | exact Hb].
Defined.

Lemma value_or_ValueError_obind {A B} (o : outcome A) (k : A -> outcome B) :
  value_or_ValueError o ->
  (forall a, value_or_ValueError (k a)) ->
  value_or_ValueError (obind o k).
Proof.
  intros [[a ->] | ->] Hk; [apply Hk | right; reflexivity].
Qed.

Lemma value_or_ValueError_Return {A} (a : A) : value_or_ValueError (Return a).
Proof. left. exists a. reflexivity. Qed.

Lemma value_or_ValueError_Raise {A} :
  value_or_ValueError (Raise ValueError : outcome A).
Proof. right. reflexivity. Qed.

Lemma require_env_fails_with_ValueError environ key :
  value_or_ValueError (require_env environ key).
Proof.
  unfold require_env. destruct (environ key) as [[| c v] |];
    auto using @value_or_ValueError_Return, @value_or_ValueError_Raise.
Qed.

Lemma resolve_backend_fails_with_ValueError environ role :
  value_or_ValueError (resolve_backend environ role).
Proof.
  unfold resolve_backend.
  apply value_or_ValueError_obind;
    [apply require_env_fails_with_ValueError | intros backend].
  destruct (negb _); [apply value_or_ValueError_Raise |].
  apply value_or_ValueError_obind;
    [apply require_env_fails_with_ValueError | intros base_url].
  apply value_or_ValueError_obind;
    [apply require_env_fails_with_ValueError | intros model].
  apply value_or_ValueError_Return.
Qed.

Lemma settled_or_fails_of_value {A} openai_error (o : outcome A) :
  value_or_ValueError o -> settled_or_fails openai_error o.
Proof.
  intros [H | ->]; [left; exact H | right].
  exists ValueError. split; [reflexivity | left; reflexivity].
Qed.

Lemma settled_or_fails_obind {A B} openai_error (o : outcome A)
    (k : A -> outcome B) :
  settled_or_fails openai_error o ->
  (forall a, settled_or_fails openai_error (k a)) ->
  settled_or_fails openai_error (obind o k).
Proof.
  intros [[a ->] | (e & -> & He)] Hk; [apply Hk | right].
  exists e. split; [reflexivity | exact He].
Qed.

Lemma settled_or_fails_Return {A} openai_error (a : A) :
  settled_or_fails openai_error (Return a).
Proof. left. exists a. reflexivity. Qed.

Lemma build_client_settled_or_fails environ openai_error url requires :
  settled_or_fails openai_error
    (build_client environ openai_error url requires).
Proof.
  unfold build_client. destruct (_ && _).
  - apply settled_or_fails_of_value, value_or_ValueError_Raise.
  - unfold OpenAI.
    destruct (openai_error url _) as [e |] eqn:E;
      [right | apply settled_or_fails_Return].
    exists e. split; [reflexivity | right]. do 2 eexists. exact E.
Qed.

Lemma parse_list_env_fails_with_ValueError environ key :
  value_or_ValueError (parse_list_env environ key).
Proof.
  unfold parse_list_env.
  apply value_or_ValueError_obind;
    [apply require_env_fails_with_ValueError | intros v].
  apply value_or_ValueError_Return.
Qed.

Lemma judge_configs_of_fails_with_ValueError environ pairs :
  value_or_ValueError (judge_configs_of environ pairs).
Proof.
  induction pairs as [| [model backend] pairs IH]; cbn [judge_configs_of].
  - apply value_or_ValueError_Return.
  - destruct (negb _); [apply value_or_ValueError_Raise |].
    apply value_or_ValueError_obind;
      [apply require_env_fails_with_ValueError | intros base_url].
    apply value_or_ValueError_obind; [exact IH | intros configs].
    apply value_or_ValueError_Return.
Qed.

Lemma build_judge_configs_fails_with_ValueError environ :
  value_or_ValueError (build_judge_configs environ).
Proof.
  unfold build_judge_configs.
  apply value_or_ValueError_obind;
    [apply parse_list_env_fails_with_ValueError | intros models].
  apply value_or_ValueError_obind;
    [apply parse_list_env_fails_with_ValueError | intros backends].
  destruct (negb _); [apply value_or_ValueError_Raise |].
  apply judge_configs_of_fails_with_ValueError.
Qed.

Lemma find_last {A} (f : A -> bool) (l : list A) (x : A) :
  f x = true ->
  exists y, find f (l ++ [x])%list = Some y /\ (In y l \/ y = x).
Proof.
  intros Hx. induction l as [| a l IH]; simpl.
  - rewrite Hx. exists x. split; [reflexivity | right; reflexivity].
  - destruct (f a) eqn:Ha.
    + exists a. split; [reflexivity | left; left; reflexivity].
    + destruct IH as (y & Hy & [Hin | ->]).
      * exists y. split; [exact Hy | left; right; exact Hin].
      * exists x. split; [exact Hy | right; reflexivity].
Qed.

(** What the loop of the main block does with one judge: the cache entry of
    its base URL and key requirement is there or is made, then taken. *)
Lemma assign_clients_cons environ openai_error cfg rest judge_clients :
  assign_clients environ openai_error (cfg :: rest) judge_clients
  = (let same (entry : string * bool * Client) :=
       String.eqb (fst (fst entry)) (bc_base_url cfg)
       && Bool.eqb (snd (fst entry)) (bc_requires_api_key cfg) in
     judge_clients <~
       match find same judge_clients with
       | Some _ => Return judge_clients
       | None =>
           client <~ build_client environ openai_error (bc_base_url cfg)
                       (bc_requires_api_key cfg) ;;
           Return (judge_clients
                     ++ [(bc_base_url cfg, bc_requires_api_key cfg, client)])%list
       end ;;
     match find same judge_clients with
     | Some entry =>
         configs <~ assign_clients environ openai_error rest judge_clients ;;
         Return ({| cfg_model := bc_model cfg;
                    cfg_backend := bc_backend cfg;
                    cfg_base_url := bc_base_url cfg;
                    cfg_requires_api_key := bc_requires_api_key cfg;
                    cfg_client := snd entry |} :: configs)
     | None => Raise KeyError
     end).
Proof. reflexivity. Qed.

Lemma same_key_refl url (requires : bool) :
  String.eqb url url && Bool.eqb requires requires = true.
Proof. rewrite String.eqb_refl, Bool.eqb_reflx. reflexivity. Qed.

Lemma assign_clients_settled_or_fails environ openai_error :
  forall configs judge_clients,
    settled_or_fails openai_error
      (assign_clients environ openai_error configs judge_clients).
Proof.
  induction configs as [| cfg rest IH]; intros cache.
  - apply settled_or_fails_Return.
  - rewrite assign_clients_cons. cbv zeta.
    destruct (find _ cache) as [entry |] eqn:Hfind.
    + cbn [obind]. rewrite Hfind.
      apply settled_or_fails_obind; [apply IH | intros configs].
      apply settled_or_fails_Return.
    + destruct (build_client_settled_or_fails environ openai_error
                  (bc_base_url cfg) (bc_requires_api_key cfg))
        as [[client ->] | (e & -> & He)];
        [| right; exists e; split; [reflexivity | exact He]].
      cbn [obind].
      destruct (find_last
                  (fun entry : string * bool * Client =>
                     String.eqb (fst (fst entry)) (bc_base_url cfg)
                     && Bool.eqb (snd (fst entry)) (bc_requires_api_key cfg))
                  cache (bc_base_url cfg, bc_requires_api_key cfg, client)
                  (same_key_refl _ _)) as (y & -> & _).
      apply settled_or_fails_obind; [apply IH | intros configs].
      apply settled_or_fails_Return.
Qed.

Lemma configure_settled_or_fails environ openai_error :
  settled_or_fails openai_error (configure environ openai_error).
Proof.
  unfold configure.
  apply settled_or_fails_obind;
    [apply settled_or_fails_of_value, require_env_fails_with_ValueError
    | intros topic].
  apply settled_or_fails_obind;
    [apply settled_or_fails_of_value, resolve_backend_fails_with_ValueError
    | intros model_a_config].
  apply settled_or_fails_obind;
    [apply settled_or_fails_of_value, resolve_backend_fails_with_ValueError
    | intros model_b_config].
  apply settled_or_fails_obind;
    [apply settled_or_fails_of_value, build_judge_configs_fails_with_ValueError
    | intros judge_configs].
  apply settled_or_fails_obind;
    [apply build_client_settled_or_fails | intros client_a].
  apply settled_or_fails_obind;
    [apply build_client_settled_or_fails | intros client_b].
  apply settled_or_fails_obind;
    [apply assign_clients_settled_or_fails | intros judges].
  apply settled_or_fails_Return.
Qed.

(** X20.  A run that cannot be configured stops before anything happens:
    either the configuration is settled, or the main block raises, having
    logged nothing, asked no model and written no record.  What it raises is
    a [ValueError] of the program, or the exception of the client
    constructor (an [InvalidURL] for a malformed base URL); in particular
    the lookup of a judge's client in the cache never fails. *)
Theorem misconfigured_run_stops_before_it_starts :
  forall env environ openai_error w,
    (exists rc, configure environ openai_error = Return rc)
    \/ (exists e,
          configure environ openai_error = Raise e
          /\ main env environ openai_error w = (Raise e, w)
          /\ (e = ValueError
              \/ exists base_url api_key,
                   openai_error base_url api_key = Some e)).
Proof.
  intros env environ openai_error w.
  destruct (configure_settled_or_fails environ openai_error)
    as [Hrc | (e & Hraise & He)]; [left; exact Hrc | right].
  exists e. split; [exact Hraise |]. split; [| exact He].
  unfold main. apply bind_Raise. unfold lift. rewrite Hraise. reflexivity.
Qed.

(** A base URL that the client constructor cannot parse stops the main
    block with [InvalidURL], which is not a [ValueError]. *)
Example malformed_base_url_raises_InvalidURL :
  configure Setup.broken Setup.openai_error = Raise InvalidURL
  /\ main (Scenario.env []) Setup.broken Setup.openai_error Scenario.w0
     = (Raise InvalidURL, Scenario.w0).
Proof. split; reflexivity. Qed.

Lemma get_api_key_is_set environ :
  get_api_key environ <> "" ->
  environ "API_KEY" = Some (get_api_key environ).
Proof.
  unfold get_api_key, getenv_default.
  destruct (environ "API_KEY") as [[| c v] |]; simpl; congruence.
Qed.

Lemma build_client_inv environ openai_error url requires client :
  build_client environ openai_error url requires = Return client ->
  base_url client = url
  /\ api_key client <> ""
  /\ (requires = true ->
      api_key client = get_api_key environ /\ get_api_key environ <> "").
Proof.
  unfold build_client, OpenAI.
  destruct (String.eqb (get_api_key environ) "") eqn:E.
  - destruct requires; simpl; intros H; [discriminate |].
    destruct (openai_error url _); [discriminate |].
    injection H as <-. simpl.
    split; [reflexivity |]. split; discriminate.
  - rewrite Bool.andb_false_r. intros H.
    destruct (openai_error url _); [discriminate |].
    injection H as <-. simpl.
    apply String.eqb_neq in E. repeat split; assumption.
Qed.

Lemma resolve_backend_inv environ role cfg :
  resolve_backend environ role = Return cfg ->
  well_formed_config environ cfg.
Proof.
  unfold resolve_backend. intros H.
  apply obind_Return_inv in H as (backend & _ & H).
  destruct (known_backend (lower (Str.strip backend))) eqn:Hknown;
    [| discriminate].
  cbn [negb] in H.
  apply obind_Return_inv in H as (url & Hurl & H).
  apply obind_Return_inv in H as (model & _ & H).
  injection H as <-.
  apply require_env_inv in Hurl as [Hurl Hne].
  repeat split; assumption.
Qed.

Lemma cache_hit environ openai_error url (requires : bool)
    (judge_clients : list (string * bool * Client)) entry :
  Forall (fun e => build_client environ openai_error (fst (fst e)) (snd (fst e))
                   = Return (snd e)) judge_clients ->
  find (fun e : string * bool * Client =>
          String.eqb (fst (fst e)) url && Bool.eqb (snd (fst e)) requires)
       judge_clients = Some entry ->
  build_client environ openai_error url requires = Return (snd entry).
Proof.
  intros Hcache Hfind. apply find_some in Hfind as [Hin Hsame].
  rewrite Forall_forall in Hcache. specialize (Hcache entry Hin).
  apply Bool.andb_true_iff in Hsame as [Hurl Hreq].
  apply String.eqb_eq in Hurl. apply Bool.eqb_prop in Hreq.
  rewrite <- Hurl, <- Hreq. exact Hcache.
Qed.

Lemma assign_clients_inv environ openai_error :
  forall configs judge_clients judges,
    Forall (fun e => build_client environ openai_error (fst (fst e)) (snd (fst e))
                     = Return (snd e)) judge_clients ->
    assign_clients environ openai_error configs judge_clients = Return judges ->
    Forall2 (judge_of environ openai_error) configs judges.
Proof.
  induction configs as [| cfg rest IH]; intros cache judges Hcache H.
  - injection H as <-. constructor.
  - rewrite assign_clients_cons in H. cbv zeta in H.
    assert (Hnext :
              forall cache',
                Forall (fun e => build_client environ openai_error (fst (fst e))
                                   (snd (fst e)) = Return (snd e)) cache' ->
                match
                  find (fun e : string * bool * Client =>
                          String.eqb (fst (fst e)) (bc_base_url cfg)
                          && Bool.eqb (snd (fst e)) (bc_requires_api_key cfg))
                       cache'
                with
                | Some entry =>
                    configs <~ assign_clients environ openai_error rest cache' ;;
                    Return ({| cfg_model := bc_model cfg;
                               cfg_backend := bc_backend cfg;
                               cfg_base_url := bc_base_url cfg;
                               cfg_requires_api_key := bc_requires_api_key cfg;
                               cfg_client := snd entry |} :: configs)
                | None => Raise KeyError
                end = Return judges ->
                Forall2 (judge_of environ openai_error) (cfg :: rest) judges).
    { intros cache' Hcache' Hrest.
      destruct (find _ cache') as [entry |] eqn:Hfind; [| discriminate].
      apply obind_Return_inv in Hrest as (js & Hjs & Hrest).
      injection Hrest as <-.
      constructor; [| exact (IH cache' js Hcache' Hjs)].
      unfold judge_of. cbn [cfg_model cfg_backend cfg_base_url
                              cfg_requires_api_key cfg_client].
      repeat split. exact (cache_hit _ _ _ _ _ _ Hcache' Hfind). }
    destruct (find _ cache) as [entry |] eqn:Hfind.
    + cbn [obind] in H. exact (Hnext cache Hcache H).
    + destruct (build_client environ openai_error (bc_base_url cfg)
                  (bc_requires_api_key cfg)) as [client | e |] eqn:Hclient;
        try discriminate.
      cbn [obind] in H. refine (Hnext _ _ H).
      apply Forall_app. split; [exact Hcache |].
      constructor; [exact Hclient | constructor].
Qed.

Lemma configure_inv environ openai_error rc :
  configure environ openai_error = Return rc ->
  resolve_backend environ "MODEL_A" = Return (rc_model_a rc)
  /\ resolve_backend environ "MODEL_B" = Return (rc_model_b rc)
  /\ build_client environ openai_error (bc_base_url (rc_model_a rc))
       (bc_requires_api_key (rc_model_a rc)) = Return (rc_client_a rc)
  /\ build_client environ openai_error (bc_base_url (rc_model_b rc))
       (bc_requires_api_key (rc_model_b rc)) = Return (rc_client_b rc)
  /\ exists configs,
       build_judge_configs environ = Return configs
       /\ assign_clients environ openai_error configs [] = Return (rc_judges rc).
Proof.
  unfold configure. intros H.
  apply obind_Return_inv in H as (topic & _ & H).
  apply obind_Return_inv in H as (a & Ha & H).
  apply obind_Return_inv in H as (b & Hb & H).
  apply obind_Return_inv in H as (configs & Hconfigs & H).
  apply obind_Return_inv in H as (ca & Hca & H).
  apply obind_Return_inv in H as (cb & Hcb & H).
  apply obind_Return_inv in H as (judges & Hjudges & H).
  injection H as <-. cbn [rc_model_a rc_model_b rc_client_a rc_client_b rc_judges].
  repeat split; try assumption.
  exists configs. split; assumption.
Qed.

Lemma configure_judges environ openai_error rc :
  configure environ openai_error = Return rc ->
  exists configs,
    build_judge_configs environ = Return configs
    /\ Forall2 (judge_of environ openai_error) configs (rc_judges rc).
Proof.
  intros H. apply configure_inv in H.
  destruct H as (_ & _ & _ & _ & configs & Hconfigs & Hassign).
  exists configs. split; [exact Hconfigs |].
  exact (assign_clients_inv environ openai_error configs [] _ (Forall_nil _)
           Hassign).
Qed.

(** X21.  The cache of judge clients does not change what a judge gets: in
    a settled configuration every judge has the model, the backend, the base
    URL and the key requirement of its configuration, in the order of
    [build_judge_configs], and its client is the one that [build_client]
    builds for that base URL and key requirement. *)
Theorem judges_get_the_client_of_their_backend :
  forall environ openai_error rc,
    configure environ openai_error = Return rc ->
    exists configs,
      build_judge_configs environ = Return configs
      /\ Forall2 (judge_of environ openai_error) configs (rc_judges rc).
Proof.
  intros environ openai_error rc H.
  exact (configure_judges environ openai_error rc H).
Qed.

Lemma judges_get_the_client_of_their_backend_witness :
  exists configs,
    build_judge_configs Setup.environ = Return configs
    /\ Forall2 (judge_of Setup.environ Setup.openai_error) configs
         [ Setup.online_judge "judge-1"; Setup.local_judge "judge-2";
           Setup.online_judge "judge-3" ].
Proof.
  apply (judges_get_the_client_of_their_backend Setup.environ
           Setup.openai_error Setup.settled).
  reflexivity.
Defined.

Lemma carries_key_of_client environ openai_error cfg client :
  well_formed_config environ cfg ->
  build_client environ openai_error (bc_base_url cfg) (bc_requires_api_key cfg)
  = Return client ->
  carries_key environ (bc_backend cfg) client.
Proof.
  intros (_ & Hreq & _) Hclient Honline.
  rewrite Honline in Hreq. cbn in Hreq.
  apply build_client_inv in Hclient as (_ & _ & Hkey).
  destruct (Hkey Hreq) as [Heq Hne].
  rewrite Heq. split; [apply get_api_key_is_set; exact Hne | exact Hne].
Qed.

(** X22.  No online backend is used without a key: in a settled
    configuration the client of every participant whose backend is online,
    either side or any judge, carries the value of API_KEY, and that value
    is set and not empty. *)
Theorem online_clients_carry_the_api_key :
  forall environ openai_error rc,
    configure environ openai_error = Return rc ->
    carries_key environ (bc_backend (rc_model_a rc)) (rc_client_a rc)
    /\ carries_key environ (bc_backend (rc_model_b rc)) (rc_client_b rc)
    /\ Forall (fun judge =>
                 carries_key environ (cfg_backend judge) (cfg_client judge))
         (rc_judges rc).
Proof.
  intros environ openai_error rc H.
  destruct (configure_judges environ openai_error rc H)
    as (configs & Hconfigs & Hjudges).
  apply configure_inv in H.
  destruct H as (Ha & Hb & Hca & Hcb & _).
  apply resolve_backend_inv in Ha. apply resolve_backend_inv in Hb.
  split; [exact (carries_key_of_client _ _ _ _ Ha Hca) |].
  split; [exact (carries_key_of_client _ _ _ _ Hb Hcb) |].
  assert (Hwf : Forall (well_formed_config environ) configs).
  { clear Hjudges.
    unfold build_judge_configs in Hconfigs.
    apply obind_Return_inv in Hconfigs as (models & _ & Hconfigs).
    apply obind_Return_inv in Hconfigs as (backends & _ & Hconfigs).
    destruct (Nat.eqb (List.length models) (List.length backends)) eqn:Hlen;
      [| discriminate].
    apply Nat.eqb_eq in Hlen.
    exact (proj2 (proj2 (judge_configs_of_inv environ models backends configs
                           Hlen Hconfigs))). }
  clear Hconfigs.
  induction Hjudges as [| cfg judge configs judges Hjudge _ IH];
    [constructor |].
  inversion Hwf as [| cfg' configs' Hcfg Hrest]; subst.
  constructor; [| exact (IH Hrest)].
  destruct Hjudge as (_ & Hbackend & _ & _ & Hclient).
  rewrite Hbackend. exact (carries_key_of_client _ _ _ _ Hcfg Hclient).
Qed.

Lemma online_clients_carry_the_api_key_witness :
  carries_key Setup.environ "online" Setup.online_client
  /\ carries_key Setup.environ "local" Setup.local_client
  /\ Forall (fun judge =>
               carries_key Setup.environ (cfg_backend judge) (cfg_client judge))
       [ Setup.online_judge "judge-1"; Setup.local_judge "judge-2";
         Setup.online_judge "judge-3" ].
Proof.
  apply (online_clients_carry_the_api_key Setup.environ Setup.openai_error
           Setup.settled).
  reflexivity.
Defined.

(** ** The main block *)

Lemma run_debate_Return_calls env ca cb cfgs ma mb topic conditions blind
    w w' :
  run_debate env ca cb cfgs ma mb topic conditions blind w = (Return tt, w') ->
  calls w' = (calls w + 8 + List.length cfgs)%nat.
Proof.
  intros Hrun.
  pose proof (run_debate_calls env ca cb cfgs ma mb topic conditions blind w)
    as Hcalls.
  rewrite Hrun in Hcalls. cbn [snd] in Hcalls. rewrite Hcalls.
  apply run_debate_Return_inv in Hrun.
  destruct Hrun as (t0 & st & js & w1 & _ & _ & Hdj & _).
  rewrite Hdj. cbn [snd].
  apply debate_and_jury_inv in Hdj.
  destruct Hdj as (sp & wb & _ & _ & Hrounds & Hjury).
  apply debate_rounds_inv in Hrounds.
  destruct Hrounds as (ras & rbs & entries & _ & _ & _ & _ & _ & _ & Hc & _).
  apply jury_loop_inv in Hjury. destruct Hjury as (Hc' & _).
  rewrite calls_started in Hc. simpl in Hc. lia.
Qed.

Lemma Forall2_same_length {A B} (R : A -> B -> Prop) l l' :
  Forall2 R l l' -> List.length l = List.length l'.
Proof. induction 1; simpl; congruence. Qed.

(** X23.  The number of judges asked is the number of items of
    JUDGE_MODELS: when the main block returns, the list of judge models was
    read, eight requests plus one per listed model were made, and exactly
    one record was appended to the store. *)
Theorem main_asks_every_listed_judge :
  forall env environ openai_error w w',
    main env environ openai_error w = (Return tt, w') ->
    exists models rec,
      parse_list_env environ "JUDGE_MODELS" = Return models
      /\ calls w' = (calls w + 8 + List.length models)%nat
      /\ store w' = (store w ++ [rec])%list.
Proof.
  intros env environ openai_error w w' H. unfold main in H.
  inv_bind H as rc w1 Hcfg. apply lift_Return_inv in Hcfg as [Hcfg ->].
  erewrite bind_Return in H by apply log_Return.
  erewrite bind_Return in H by apply log_Return.
  destruct (configure_judges environ openai_error rc Hcfg)
    as (configs & Hconfigs & Hjudges).
  apply Forall2_same_length in Hjudges.
  unfold build_judge_configs in Hconfigs.
  apply obind_Return_inv in Hconfigs as (models & Hmodels & Hconfigs).
  apply obind_Return_inv in Hconfigs as (backends & _ & Hconfigs).
  destruct (Nat.eqb (List.length models) (List.length backends)) eqn:Hlen;
    [| discriminate].
  apply Nat.eqb_eq in Hlen.
  destruct (judge_configs_of_inv environ models backends configs Hlen Hconfigs)
    as (Hm & _ & _).
  assert (Hn : List.length (rc_judges rc) = List.length models).
  { rewrite <- Hjudges, <- Hm. symmetry. apply length_map. }
  pose proof (run_debate_Return_calls _ _ _ _ _ _ _ _ _ _ _ H) as Hcalls.
  apply run_debate_Return_inv in H.
  destruct H as (t0 & st & js & w2 & uid & duration & _ & Hstore).
  exists models. eexists.
  split; [exact Hmodels |].
  split; [rewrite Hcalls, Hn; reflexivity |].
  exact Hstore.
Qed.

Lemma main_asks_every_listed_judge_witness :
  let judges :=
    [ Completion (Some (Scenario.verdict_text "Side A")) None;
      Completion (Some (Scenario.verdict_text "Side B")) None;
      Completion (Some "no verdict") None ] in
  exists models rec,
    parse_list_env Setup.environ "JUDGE_MODELS" = Return models
    /\ calls (snd (main (Scenario.env judges) Setup.environ Setup.openai_error Scenario.w0))
       = (0 + 8 + List.length models)%nat
    /\ store (snd (main (Scenario.env judges) Setup.environ Setup.openai_error Scenario.w0))
       = ([] ++ [rec])%list.
Proof.
  intros judges.
  apply (main_asks_every_listed_judge (Scenario.env judges) Setup.environ
           Setup.openai_error Scenario.w0
           (snd (main (Scenario.env judges) Setup.environ Setup.openai_error Scenario.w0))).
  vm_compute. reflexivity.
Defined.

(** ** The transcript of a side *)

Lemma string_app_assoc (s t u : string) : (s ++ t) ++ u = s ++ t ++ u.
Proof. induction s as [| c s IH]; simpl; [reflexivity | rewrite IH; reflexivity]. Qed.

Lemma join_snoc sep (l : list string) x :
  l <> [] -> Str.join sep (l ++ [x])%list = Str.join sep l ++ sep ++ x.
Proof.
  induction l as [| a l IH]; [congruence | intros _].
  destruct l as [| b r]; [reflexivity |].
  change (Str.join sep ((a :: b :: r) ++ [x])%list)
    with (a ++ sep ++ Str.join sep ((b :: r) ++ [x])%list).
  rewrite IH by discriminate.
  change (Str.join sep (a :: b :: r)) with (a ++ sep ++ Str.join sep (b :: r)).
  rewrite !string_app_assoc. reflexivity.
Qed.

Lemma merge_items_snoc history item :
  forall i,
    merge_items i (history ++ [item])%list
    = (merge_items i history
         ++ [("Round " ++ Str.of_Z (i + Z.of_nat (List.length history) + 1)
                ++ ":" ++ Str.newline ++ format_opt (res_content item))%string])%list.
Proof.
  induction history as [| h history IH]; intros i.
  - cbn [app merge_items List.length]. rewrite Z.add_0_r. reflexivity.
  - cbn [app merge_items List.length]. rewrite IH. cbn [app].
    replace (i + 1 + Z.of_nat (List.length history) + 1)
      with (i + Z.of_nat (S (List.length history)) + 1) by lia.
    reflexivity.
Qed.

(** X24.  The transcript grows by one labelled speech at a time: the merged
    text of a history with one more item is the merged text of the history,
    a blank line, and the new speech under the header that carries its
    position, counted from one.  A speech without content is written as
    the word None. *)
Theorem merge_responses_appends_a_round :
  forall history item,
    history <> [] ->
    merge_responses (history ++ [item])%list
    = merge_responses history ++ Str.newline ++ Str.newline
        ++ "Round " ++ Str.of_Z (Z.of_nat (List.length history) + 1) ++ ":"
        ++ Str.newline ++ format_opt (res_content item).
Proof.
  intros history item Hne. unfold merge_responses.
  rewrite merge_items_snoc. rewrite join_snoc.
  - rewrite Z.add_0_l. rewrite !string_app_assoc. reflexivity.
  - destruct history; [congruence | discriminate].
Qed.

Lemma merge_responses_appends_a_round_witness :
  merge_responses
    [ {| res_model := "model-a"; res_content := Some "opening";
         res_usage := None |};
      {| res_model := "model-a"; res_content := None; res_usage := None |} ]
  = "Round 1:" ++ Str.newline ++ "opening" ++ Str.newline ++ Str.newline
      ++ "Round 2:" ++ Str.newline ++ "None".
Proof.
  apply (merge_responses_appends_a_round
           [ {| res_model := "model-a"; res_content := Some "opening";
                res_usage := None |} ]
           {| res_model := "model-a"; res_content := None;
              res_usage := None |}).
  discriminate.
Defined.

(** ** An answer that is not an object *)

Lemma misread_raises env blind text e :
  misread env text e ->
  (exists raw,
      parse_jury_response env (content_or_empty text) = Return raw
      /\ jury_parsed_of raw (side_map_of blind) = Raise e)
  \/ parse_jury_response env (content_or_empty text) = Raise e.
Proof.
  intros [Hne [(v & Hv & Hnot & ->) | [Herr Hother]]];
    apply String.eqb_neq in Hne; unfold parse_jury_response; rewrite Hne.
  - left. exists v. rewrite Hv. split; [reflexivity |].
    destruct v; try discriminate; reflexivity.
  - right. rewrite Herr. destruct e; try reflexivity. congruence.
Qed.

Lemma lift_Raise {A} (o : outcome A) e w :
  o = Raise e -> lift o w = (Raise e, w).
Proof. intros ->. reflexivity. Qed.

(** The step of a judge whose answer is misread raises, after the request
    and before anything is added to the state. *)
Lemma jury_step_misread env topic conditions ha hb blind cfg st w template
    prompt text usage u e :
  prompt_file env "judge/judge_evaluation.txt" = Some template ->
  render_prompt template (judge_variables topic conditions ha hb blind)
  = Return prompt ->
  backend env (calls w) (cfg_client cfg) (cfg_model cfg)
    (judge_messages prompt) = Completion text usage ->
  extract_usage_fields env usage = Return u ->
  misread env text e ->
  exists w',
    jury_step env topic conditions ha hb blind cfg st w = (Raise e, w')
    /\ calls w' = S (calls w).
Proof.
  intros Htemplate Hrender Hreply Hu Hbad.
  assert (Hjr : exists w1,
             run_jury_evaluation env (cfg_client cfg) (cfg_model cfg) topic
               conditions ha hb blind w
             = (Return {| jr_judge_model := cfg_model cfg;
                          jr_side_map := side_map_of blind;
                          jr_prompt := prompt;
                          jr_raw_response := text;
                          jr_usage := usage |}, w1)
             /\ calls w1 = S (calls w)).
  { unfold run_jury_evaluation.
    erewrite bind_Return by (apply load_prompt_Return; exact Htemplate).
    erewrite bind_Return by apply log_Return.
    unfold judge_variables in Hrender.
    destruct blind; cbv iota beta zeta;
      (erewrite bind_Return by (apply lift_Return; exact Hrender));
      (erewrite bind_Return by (apply call_model_Return; exact Hreply));
      eexists; split; reflexivity. }
  destruct Hjr as (w1 & Hjr & Hcalls).
  exists w1. split; [| exact Hcalls].
  unfold jury_step.
  erewrite bind_Return by exact Hjr. cbn [jr_usage jr_raw_response jr_side_map].
  erewrite bind_Return by (apply lift_Return; exact Hu).
  destruct (misread_raises env blind text e Hbad)
    as [(raw & Hraw & Hparsed) | Hraw].
  - erewrite bind_Return by (apply lift_Return; exact Hraw).
    apply bind_Raise. apply lift_Raise. exact Hparsed.
  - apply bind_Raise. apply lift_Raise. exact Hraw.
Qed.

Lemma jury_loop_misread env topic conditions ha hb blind good bad usage e :
  misread env bad e ->
  forall cfgs j st w st_good w_good,
    (j < List.length cfgs)%nat ->
    (forall client model messages,
        backend env (calls w + j) client model messages
        = Completion good usage) ->
    jury_loop env topic conditions ha hb blind cfgs st w
    = (Return st_good, w_good) ->
    exists w_bad,
      jury_loop (with_reply env (calls w + j) (Completion bad usage)) topic
        conditions ha hb blind cfgs st w = (Raise e, w_bad)
      /\ calls w_bad = S (calls w + j).
Proof.
  intros Hbad.
  induction cfgs as [| cfg cfgs IH]; intros j st w st_good w_good Hj Hreply H.
  - simpl in Hj. lia.
  - simpl in H. inv_bind H as st1 w1 Hstep.
    pose proof Hstep as Hgood.
    apply jury_step_inv in Hstep.
    destruct Hstep as (prompt & text & u & parsed & valid & Hans & Hst1
                       & Hcalls).
    destruct j as [| j].
    + rewrite Nat.add_0_r in *.
      destruct Hans as (template & usage' & raw & Htemplate & Hrender & Hr & Hu
                        & _).
      rewrite Hreply in Hr. inversion Hr; subst text usage'; clear Hr.
      set (env' := with_reply env (calls w) (Completion bad usage)).
      assert (Hr' : backend env' (calls w) (cfg_client cfg) (cfg_model cfg)
                      (judge_messages prompt) = Completion bad usage).
      { unfold env', with_reply. simpl. rewrite Nat.eqb_refl. reflexivity. }
      destruct (jury_step_misread env' topic conditions ha hb blind cfg st w
                  template prompt bad usage u e Htemplate Hrender Hr' Hu Hbad)
        as (w_bad & Hstep' & Hcalls').
      exists w_bad. split; [| exact Hcalls'].
      simpl jury_loop. apply bind_Raise. exact Hstep'.
    + assert (Hidx : (calls w + S j = calls w1 + j)%nat) by lia.
      rewrite Hidx in *.
      destruct (IH j _ w1 st_good w_good ltac:(simpl in Hj; lia) Hreply H)
        as (w_bad & Hloop & Hcalls').
      exists w_bad. split; [| exact Hcalls'].
      simpl jury_loop.
      erewrite bind_Return; [exact Hloop |].
      rewrite jury_step_with_reply by lia. exact Hgood.
Qed.

(** X25.  An answer that is not an object aborts the run.  Take a run that
    returns, and let one judge answer instead, with the same usage, a text
    that is not empty and whose cleaned text decodes to a JSON value that is
    not an object ([null], a list, a string, a number), or on which
    [json.loads] raises something else than [JSONDecodeError]: then the run
    ends right after that judge's request with [AttributeError], or with
    that exception, and no record is written. *)
Theorem answer_that_is_no_object_aborts_the_run :
  forall env client_a client_b judge_configs model_a model_b topic conditions
         blind_jury w w_good j good bad usage e,
    (j < List.length judge_configs)%nat ->
    (forall client model messages,
        backend env (calls w + 8 + j) client model messages
        = Completion good usage) ->
    misread env bad e ->
    run_debate env client_a client_b judge_configs model_a model_b topic
      conditions blind_jury w = (Return tt, w_good) ->
    exists w_bad,
      run_debate
        (with_reply env (calls w + 8 + j) (Completion bad usage))
        client_a client_b judge_configs model_a model_b topic conditions
        blind_jury w = (Raise e, w_bad)
      /\ calls w_bad = S (calls w + 8 + j)
      /\ store w_bad = store w.
Proof.
  intros env ca cb cfgs ma mb topic conditions blind w w_good j good bad usage
    e Hj Hreply Hbad Hrun.
  apply run_debate_Return_inv in Hrun.
  destruct Hrun as (t0 & st & js & w1 & uid & duration & Hdj & _).
  apply debate_and_jury_inv in Hdj.
  destruct Hdj as (sp & wb & Hsp & Ht0 & Hrounds & Hjury).
  assert (Hcalls : calls wb = (calls w + 8)%nat).
  { pose proof Hrounds as Hcopy. apply debate_rounds_inv in Hcopy.
    destruct Hcopy as (ras & rbs & entries & _ & _ & _ & _ & _ & _ & Hc & _).
    rewrite calls_started in Hc. simpl in Hc. exact Hc. }
  set (idx := (calls w + 8 + j)%nat) in *.
  set (env' := with_reply env idx (Completion bad usage)).
  assert (Hrounds' :
            debate_rounds env' ca cb ma mb topic conditions
              (enumerate 1 rounds) (initial_state sp)
              (started topic ma mb cfgs w)
            = (Return st, wb)).
  { unfold env'. rewrite debate_rounds_with_reply; [exact Hrounds |].
    rewrite calls_started. simpl. unfold idx. lia. }
  assert (Hreply' : forall client model messages,
             backend env (calls wb + j) client model messages
             = Completion good usage).
  { intros client model messages. rewrite Hcalls. apply Hreply. }
  destruct (jury_loop_misread env topic conditions (history_a st)
              (history_b st) blind good bad usage e Hbad cfgs j _ wb js w1
              Hj Hreply' Hjury)
    as (w_bad & Hjury' & Hcalls').
  replace (calls wb + j)%nat with idx in Hjury', Hcalls'
    by (unfold idx; lia).
  fold env' in Hjury'.
  assert (Hdj' :
            debate_and_jury env' ca cb cfgs ma mb topic conditions blind w
            = (Raise e, w_bad)).
  { rewrite (debate_and_jury_unfold env' ca cb cfgs ma mb topic conditions
               blind w sp Hsp).
    erewrite bind_Return by exact Hrounds'.
    apply bind_Raise. exact Hjury'. }
  destruct (run_debate_raises _ _ _ _ _ _ _ _ _ _ _ _ Hdj')
    as [Hrun' Hstore'].
  exists w_bad. split; [exact Hrun' |]. split; [exact Hcalls' | exact Hstore'].
Qed.

(** One judge: the valid verdict for side A of the scenario against the
    answer [null]. *)
Lemma answer_that_is_no_object_aborts_the_run_witness :
  exists w_bad,
    run_debate
      (with_reply
         (NotAnObject.env
            [Completion (Some (Scenario.verdict_text "Side A")) None])
         (calls Scenario.w0 + 8 + 0) (Completion (Some "null") None))
      Scenario.client Scenario.client [Scenario.judge "judge0"] "model-a"
      "model-b" "X" "" false Scenario.w0 = (Raise AttributeError, w_bad)
    /\ calls w_bad = S (calls Scenario.w0 + 8 + 0)
    /\ store w_bad = store Scenario.w0.
Proof.
  apply (answer_that_is_no_object_aborts_the_run
           (NotAnObject.env
              [Completion (Some (Scenario.verdict_text "Side A")) None])
           Scenario.client Scenario.client [Scenario.judge "judge0"]
           "model-a" "model-b" "X" "" false Scenario.w0
           (snd (run_debate
                   (NotAnObject.env
                      [Completion (Some (Scenario.verdict_text "Side A"))
                         None])
                   Scenario.client Scenario.client [Scenario.judge "judge0"]
                   "model-a" "model-b" "X" "" false Scenario.w0))
           0%nat (Some (Scenario.verdict_text "Side A")) (Some "null") None
           AttributeError).
  - simpl. lia.
  - intros client model messages. reflexivity.
  - split; [discriminate |]. left. exists VNone. repeat split.
  - vm_compute. reflexivity.
Defined.
